(** * Marvin query results: rows, result sets and the Results controller

    A shallow embedding of [python/marvin/tools/query/results.py]:
    the row factory [marvintuple] with its overloaded addition, the
    [ResultSet] page buffer and the [Results] controller with its paging,
    subsetting, merging and persistence methods.  Python objects that are
    mutated in place are threaded explicitly; a raised exception leaves
    the object as it was at the raising statement. *)

From stdpp Require Import gmap strings list.
From Stdlib Require Import ZArith Lia Ascii.

Local Open Scope string_scope.
Local Open Scope list_scope.
Local Open Scope Z_scope.

(** ** Cell values and Python results *)

(** A cell of a result row.  The methods modelled here only move cells
    around and compare them for equality. *)
Inductive value :=
| VNone
| VInt (z : Z)
| VStr (s : string).

#[global] Instance value_eq_dec : EqDecision value.
Proof. solve_decision. Defined.

(** The exceptions the module raises, each with its message where the
    source gives one. *)
Inductive Exn :=
| MarvinError (msg : string)
| MarvinUserWarning (msg : string)
| AssertionError (msg : string)
| TypeError
| ValueError
| AttributeError
| IndexError
| ZeroDivisionError
| OSError.

#[global] Instance Exn_eq_dec : EqDecision Exn.
Proof. solve_decision. Defined.

Inductive res (A : Type) :=
| Ok (a : A)
| Raise (e : Exn).
Arguments Ok {A} a.
Arguments Raise {A} e.

Definition res_bind {A B} (r : res A) (k : A -> res B) : res B :=
  match r with
  | Ok a => k a
  | Raise e => Raise e
  end.

Fixpoint res_mapM {A B} (f : A -> res B) (l : list A) : res (list B) :=
  match l with
  | [] => Ok []
  | x :: l' =>
      res_bind (f x) (fun y => res_bind (res_mapM f l') (fun ys => Ok (y :: ys)))
  end.

(** Python truthiness of an optional string ([None] and [''] are false). *)
Definition truthy (o : option string) : bool :=
  match o with
  | Some s => negb (String.eqb s "")
  | None => false
  end.

(** ** Ordered dictionaries *)

(** [OrderedDict]: keys in insertion order, assigning to a key that is
    present keeps its position. *)
Definition odict := list (string * value).

Fixpoint od_get (k : string) (d : odict) : option value :=
  match d with
  | [] => None
  | (k', v) :: d' => if decide (k = k') then Some v else od_get k d'
  end.

Fixpoint od_set (k : string) (v : value) (d : odict) : odict :=
  match d with
  | [] => [(k, v)]
  | (k', v') :: d' =>
      if decide (k = k') then (k', v) :: d' else (k', v') :: od_set k v d'
  end.

(** [d.update(other)] *)
Definition od_update (d other : odict) : odict :=
  foldl (fun acc kv => od_set kv.1 kv.2 acc) d other.

Definition od_keys (d : odict) : list string := d.*1.

(** ** Rows *)

(** What [marvintuple] reads from the [results] keyword it is given. *)
Record ResultsRef := {
  ref_release : option string;
  ref_searchfilter : option string
}.

#[global] Instance ResultsRef_eq_dec : EqDecision ResultsRef.
Proof. solve_decision. Defined.

(** The class returned by [marvintuple]. *)
Record RowClass := {
  cls_name : string;
  cls_fields : list string;
  cls_results : option ResultsRef
}.

#[global] Instance RowClass_eq_dec : EqDecision RowClass.
Proof. solve_decision. Defined.

(** [nt._release = results._release if results else None] *)
Definition cls_release (c : RowClass) : option string :=
  match cls_results c with
  | Some r => ref_release r
  | None => None
  end.

(** [nt._searchfilter = results.searchfilter if results else None] *)
Definition cls_searchfilter (c : RowClass) : option string :=
  match cls_results c with
  | Some r => ref_searchfilter r
  | None => None
  end.

(** An instance of a row class. *)
Record Row := {
  row_class : RowClass;
  row_values : list value
}.

#[global] Instance Row_eq_dec : EqDecision Row.
Proof. solve_decision. Defined.

Definition default_fields : list string :=
  ["mangaid"; "plate"; "plateifu"; "ifu_name"].

(** [row._asdict()] *)
Definition _asdict (r : Row) : odict :=
  zip (cls_fields (row_class r)) (row_values r).

(** Attribute access [row.<name>]. *)
Definition row_getattr (r : Row) (name : string) : res value :=
  match od_get name (_asdict r) with
  | Some v => Ok v
  | None => Raise AttributeError
  end.

Section RowFactory.

(** [collections.namedtuple]'s test of one field name (an identifier,
    not a keyword, no leading underscore). *)
Variable field_name_ok : string -> bool.

(** [namedtuple(name, fields)]: every name acceptable, no name twice. *)
Definition namedtuple (name : string) (fields : list string)
    (results : option ResultsRef) : res RowClass :=
  if forallb field_name_ok fields && bool_decide (NoDup fields)
  then Ok {| cls_name := name; cls_fields := fields; cls_results := results |}
  else Raise ValueError.

(** [marvintuple(name, params, results=results)] for [params] a list or
    a tuple of names. *)
Definition marvintuple (name : string) (params : list string)
    (results : option ResultsRef) : res RowClass :=
  let newcols := filter (fun col => col ∉ default_fields) params in
  let finalfields :=
    match newcols with
    | [] => default_fields
    | _ => default_fields ++ newcols
    end in
  namedtuple name finalfields results.

(** The positional constructor call of a row class, one cell per field. *)
Definition new_row (c : RowClass) (values : list value) : res Row :=
  if decide (length values = length (cls_fields c))
  then Ok {| row_class := c; row_values := values |}
  else Raise TypeError.

(** The keyword constructor call: every field is given and nothing else is. *)
Definition new_row_kw (c : RowClass) (kwargs : odict) : res Row :=
  if forallb (fun k => bool_decide (k ∈ cls_fields c)) (od_keys kwargs)
  then
    res_bind
      (res_mapM (fun f => match od_get f kwargs with
                          | Some v => Ok v
                          | None => Raise TypeError
                          end) (cls_fields c))
      (fun vs => Ok {| row_class := c; row_values := vs |})
  else Raise TypeError.

(** [new_add(self, other)], installed as the rows' [__add__]. *)
Definition new_add (self other : Row) : res Row :=
  if truthy (cls_release (row_class self))
     && negb (bool_decide (cls_release (row_class self)
                           = cls_release (row_class other)))
  then Raise (AssertionError "Cannot add result rows from different releases")
  else
  if truthy (cls_searchfilter (row_class self))
     && negb (bool_decide (cls_searchfilter (row_class self)
                           = cls_searchfilter (row_class other)))
  then Raise (AssertionError
                "Cannot add result rows generated using different search filters")
  else
  res_bind (row_getattr self "plateifu") (fun p1 =>
  res_bind (row_getattr other "plateifu") (fun p2 =>
  if negb (bool_decide (p1 = p2))
  then Raise (AssertionError "The plateifus must be the same to add these rows")
  else
    let self_dict := od_update (_asdict self) (_asdict other) in
    let new_fields := od_keys self_dict in
    res_bind (marvintuple (cls_name (row_class self)) new_fields
                          (cls_results (row_class self)))
             (fun marvin_row => new_row_kw marvin_row self_dict))).

(** A row as the factory builds it: a class that [marvintuple] returned
    and as many cells as the class has fields. *)
Definition row_wf (r : Row) : bool :=
  forallb field_name_ok (cls_fields (row_class r))
  && bool_decide (NoDup (cls_fields (row_class r)))
  && bool_decide (take 4 (cls_fields (row_class r)) = default_fields)
  && bool_decide (length (row_values r) = length (cls_fields (row_class r))).

End RowFactory.

(** ** The page buffer *)

(** One column of the registry, with the name forms [ParameterGroup]
    resolves. *)
Record Column := {
  col_full : string;
  col_remote : string;
  col_display : string;
  col_short : string
}.

#[global] Instance Column_eq_dec : EqDecision Column.
Proof. solve_decision. Defined.

(** [ResultSet]: a list of rows with its paging attributes and the column
    registry of the [Results] that built it.  [current_page] and [choices]
    are derived for display from the attributes kept here. *)
Record ResultSet := {
  rs_rows : list Row;
  rs_count : Z;
  rs_total : Z;
  rs_pages : Z;
  rs_index : Z;
  rs_columns : list Column
}.

#[global] Instance ResultSet_eq_dec : EqDecision ResultSet.
Proof. solve_decision. Defined.

(** [ResultSet.__init__]: [pages = int(ceil(total / float(count)))], a
    division by zero for an empty set. *)
Definition new_ResultSet (objects : list Row) (count total : Z)
    (index : option Z) (cols : list Column) : res ResultSet :=
  if decide (count = 0) then Raise ZeroDivisionError
  else Ok {| rs_rows := objects;
             rs_count := count;
             rs_total := total;
             rs_pages := - ((- total) / count);
             rs_index := match index with Some i => i | None => 0 end;
             rs_columns := cols |}.

(** An element of a plain list held in [Results.results]: a tuple as the
    data source or the remote service returns it, or a row. *)
Inductive item :=
| Raw (t : list value)
| Named (r : Row).

#[global] Instance item_eq_dec : EqDecision item.
Proof. solve_decision. Defined.

Definition item_values (i : item) : list value :=
  match i with
  | Raw t => t
  | Named r => row_values r
  end.

(** What [Results.results] holds: a plain Python list or a [ResultSet]. *)
Inductive buffer :=
| Plain (l : list item)
| Paged (rs : ResultSet).

#[global] Instance buffer_eq_dec : EqDecision buffer.
Proof. solve_decision. Defined.

Definition buffer_items (b : buffer) : list item :=
  match b with
  | Plain l => l
  | Paged rs => Named <$> rs_rows rs
  end.

(** [len(self.results)] *)
Definition buffer_len (b : buffer) : Z := Z.of_nat (length (buffer_items b)).

(** [if self.results:] *)
Definition buffer_nonempty (b : buffer) : bool :=
  match buffer_items b with
  | [] => false
  | _ => true
  end.

(** ** The controller *)

Inductive Mode := local | remote | auto.

#[global] Instance Mode_eq_dec : EqDecision Mode.
Proof. solve_decision. Defined.

(** A live SQLAlchemy query, named by a token; what it returns is given
    by the environment below. *)
Definition handle := nat.

(** [Results.query]: nothing, the literal SQL string, or a live query. *)
Inductive query_repr :=
| QNone
| QLiteral (sql : string)
| QLive (h : handle).

#[global] Instance query_repr_eq_dec : EqDecision query_repr.
Proof. solve_decision. Defined.

(** The Marvin [Query] object a [Results] may keep in [_queryobj]. *)
Inductive QueryObj := MarvinQuery (h : handle).

#[global] Instance QueryObj_eq_dec : EqDecision QueryObj.
Proof. solve_decision. Defined.

(** The attributes of a [Results] object that the methods read or assign. *)
Record Results := {
  results : buffer;
  _queryobj : option QueryObj;
  query : query_repr;
  returntype : option string;
  searchfilter : option string;
  returnparams : option (list string);
  limit : option Z;
  _params : option (list string);
  _release : option string;
  count : Z;
  totalcount : Z;
  _runtime : option Z;
  query_time : option Z;
  response_time : option Z;
  mode : Mode;
  chunk : Z;
  start : Z;
  end_ : Z;
  columns : list Column;
  sortcol : option string;
  order : option string
}.

(** Attribute assignment [self.<attr> = v], for the attributes the methods
    assign. *)
Definition set_results (v : buffer) (s : Results) : Results :=
  {| results := v; _queryobj := _queryobj s; query := query s;
     returntype := returntype s; searchfilter := searchfilter s;
     returnparams := returnparams s; limit := limit s; _params := _params s;
     _release := _release s; count := count s; totalcount := totalcount s;
     _runtime := _runtime s; query_time := query_time s;
     response_time := response_time s; mode := mode s; chunk := chunk s;
     start := start s; end_ := end_ s; columns := columns s; sortcol := sortcol s;
     order := order s |}.

Definition set_queryobj (v : option QueryObj) (s : Results) : Results :=
  {| results := results s; _queryobj := v; query := query s;
     returntype := returntype s; searchfilter := searchfilter s;
     returnparams := returnparams s; limit := limit s; _params := _params s;
     _release := _release s; count := count s; totalcount := totalcount s;
     _runtime := _runtime s; query_time := query_time s;
     response_time := response_time s; mode := mode s; chunk := chunk s;
     start := start s; end_ := end_ s; columns := columns s; sortcol := sortcol s;
     order := order s |}.

Definition set_query (v : query_repr) (s : Results) : Results :=
  {| results := results s; _queryobj := _queryobj s; query := v;
     returntype := returntype s; searchfilter := searchfilter s;
     returnparams := returnparams s; limit := limit s; _params := _params s;
     _release := _release s; count := count s; totalcount := totalcount s;
     _runtime := _runtime s; query_time := query_time s;
     response_time := response_time s; mode := mode s; chunk := chunk s;
     start := start s; end_ := end_ s; columns := columns s; sortcol := sortcol s;
     order := order s |}.

Definition set_count (v : Z) (s : Results) : Results :=
  {| results := results s; _queryobj := _queryobj s; query := query s;
     returntype := returntype s; searchfilter := searchfilter s;
     returnparams := returnparams s; limit := limit s; _params := _params s;
     _release := _release s; count := v; totalcount := totalcount s;
     _runtime := _runtime s; query_time := query_time s;
     response_time := response_time s; mode := mode s; chunk := chunk s;
     start := start s; end_ := end_ s; columns := columns s; sortcol := sortcol s;
     order := order s |}.

Definition set_runtime (v : option Z) (s : Results) : Results :=
  {| results := results s; _queryobj := _queryobj s; query := query s;
     returntype := returntype s; searchfilter := searchfilter s;
     returnparams := returnparams s; limit := limit s; _params := _params s;
     _release := _release s; count := count s; totalcount := totalcount s;
     _runtime := v; query_time := query_time s; response_time := response_time s;
     mode := mode s; chunk := chunk s; start := start s; end_ := end_ s;
     columns := columns s; sortcol := sortcol s; order := order s |}.

Definition set_query_time (v : option Z) (s : Results) : Results :=
  {| results := results s; _queryobj := _queryobj s; query := query s;
     returntype := returntype s; searchfilter := searchfilter s;
     returnparams := returnparams s; limit := limit s; _params := _params s;
     _release := _release s; count := count s; totalcount := totalcount s;
     _runtime := _runtime s; query_time := v; response_time := response_time s;
     mode := mode s; chunk := chunk s; start := start s; end_ := end_ s;
     columns := columns s; sortcol := sortcol s; order := order s |}.

Definition set_response_time (v : option Z) (s : Results) : Results :=
  {| results := results s; _queryobj := _queryobj s; query := query s;
     returntype := returntype s; searchfilter := searchfilter s;
     returnparams := returnparams s; limit := limit s; _params := _params s;
     _release := _release s; count := count s; totalcount := totalcount s;
     _runtime := _runtime s; query_time := query_time s; response_time := v;
     mode := mode s; chunk := chunk s; start := start s; end_ := end_ s;
     columns := columns s; sortcol := sortcol s; order := order s |}.

Definition set_chunk (v : Z) (s : Results) : Results :=
  {| results := results s; _queryobj := _queryobj s; query := query s;
     returntype := returntype s; searchfilter := searchfilter s;
     returnparams := returnparams s; limit := limit s; _params := _params s;
     _release := _release s; count := count s; totalcount := totalcount s;
     _runtime := _runtime s; query_time := query_time s;
     response_time := response_time s; mode := mode s; chunk := v; start := start s;
     end_ := end_ s; columns := columns s; sortcol := sortcol s; order := order s |}.

Definition set_start (v : Z) (s : Results) : Results :=
  {| results := results s; _queryobj := _queryobj s; query := query s;
     returntype := returntype s; searchfilter := searchfilter s;
     returnparams := returnparams s; limit := limit s; _params := _params s;
     _release := _release s; count := count s; totalcount := totalcount s;
     _runtime := _runtime s; query_time := query_time s;
     response_time := response_time s; mode := mode s; chunk := chunk s; start := v;
     end_ := end_ s; columns := columns s; sortcol := sortcol s; order := order s |}.

Definition set_end_ (v : Z) (s : Results) : Results :=
  {| results := results s; _queryobj := _queryobj s; query := query s;
     returntype := returntype s; searchfilter := searchfilter s;
     returnparams := returnparams s; limit := limit s; _params := _params s;
     _release := _release s; count := count s; totalcount := totalcount s;
     _runtime := _runtime s; query_time := query_time s;
     response_time := response_time s; mode := mode s; chunk := chunk s;
     start := start s; end_ := v; columns := columns s; sortcol := sortcol s;
     order := order s |}.

Definition set_columns (v : list Column) (s : Results) : Results :=
  {| results := results s; _queryobj := _queryobj s; query := query s;
     returntype := returntype s; searchfilter := searchfilter s;
     returnparams := returnparams s; limit := limit s; _params := _params s;
     _release := _release s; count := count s; totalcount := totalcount s;
     _runtime := _runtime s; query_time := query_time s;
     response_time := response_time s; mode := mode s; chunk := chunk s;
     start := start s; end_ := end_ s; columns := v; sortcol := sortcol s;
     order := order s |}.

Definition set_sortcol (v : option string) (s : Results) : Results :=
  {| results := results s; _queryobj := _queryobj s; query := query s;
     returntype := returntype s; searchfilter := searchfilter s;
     returnparams := returnparams s; limit := limit s; _params := _params s;
     _release := _release s; count := count s; totalcount := totalcount s;
     _runtime := _runtime s; query_time := query_time s;
     response_time := response_time s; mode := mode s; chunk := chunk s;
     start := start s; end_ := end_ s; columns := columns s; sortcol := v;
     order := order s |}.

Definition set_order (v : option string) (s : Results) : Results :=
  {| results := results s; _queryobj := _queryobj s; query := query s;
     returntype := returntype s; searchfilter := searchfilter s;
     returnparams := returnparams s; limit := limit s; _params := _params s;
     _release := _release s; count := count s; totalcount := totalcount s;
     _runtime := _runtime s; query_time := query_time s;
     response_time := response_time s; mode := mode s; chunk := chunk s;
     start := start s; end_ := end_ s; columns := columns s; sortcol := sortcol s;
     order := v |}.

#[global] Instance Results_eq_dec : EqDecision Results.
Proof. solve_decision. Defined.

(** What a row class built for this controller remembers of it
    ([marvintuple(..., results=self)]). *)
Definition ref_of (s : Results) : ResultsRef :=
  {| ref_release := _release s; ref_searchfilter := searchfilter s |}.

(** ** Collaborators *)

(** [config.urlmap['api'][<route>]['url']] for the routes used here. *)
Record UrlMap := {
  url_querycubes : string;
  url_getsubset : string;
  url_getcolumn : string
}.

(** The ['params'] entry of a request: absent, the list of names the caller
    holds, or the comma-separated string that is sent. *)
Inductive ParamsField :=
| PNone
| PList (names : list string)
| PCsv (csv : string).

(** The parameter dictionary of a remote call. *)
Record Request := {
  rq_searchfilter : option string;
  rq_params : ParamsField;
  rq_start : option Z;
  rq_end : option Z;
  rq_limit : option Z;
  rq_sort : option string;
  rq_order : option string;
  rq_return_all : bool
}.

(** What a completed [Interaction] exposes. *)
Record Response := {
  rsp_data : list (list value);
  rsp_response_time : Z;
  rsp_runtime : Z
}.

(** Everything the controller calls but does not define: the parameter
    registry, [namedtuple]'s name test, cell ordering, the route map, the
    HTTP transport and the live local query. *)
Record Env := {
  (** [ParameterGroup('Columns', [{'full': p} for p in params])], [None]
      when the constructor raises. *)
  parameter_group : list string -> option (list Column);
  field_name_ok : string -> bool;
  (** Python's [<] on two cells. *)
  cell_lt : value -> value -> bool;
  (** [config.urlmap] *)
  urlmap : option UrlMap;
  (** [Interaction(route=url, params=params)], [None] when it raises
      [MarvinError]. *)
  interaction : string -> Request -> option Response;
  (** [query.slice(start, end).all()] *)
  slice_all : handle -> Z -> Z -> list (list value);
  (** [query.from_self().all()] *)
  from_self_all : handle -> list (list value);
  (** [str(query.statement.compile(compile_kwargs={'literal_binds': True}))] *)
  literal_sql : handle -> string
}.

(** Modelled from the spec: [ParameterGroup] lookup by name (its source is
    not part of the code at hand); a name resolves to the first column one
    of whose four name forms it equals. *)
Definition resolve_column (cols : list Column) (name : string) : option Column :=
  List.find (fun c => bool_decide (name = col_full c)
                      || bool_decide (name = col_remote c)
                      || bool_decide (name = col_display c)
                      || bool_decide (name = col_short c)) cols.

(** ** Methods as state transformers *)

(** Warnings issued through [warnings.warn]. *)
Inductive Warning :=
| ChunkNegative (fallback : Z)
| LimitNegative (fallback : Z)
| AllResultsForward
| AllResultsBack
| ReachedEnd
| ReachedBeginning
| FileExists.

#[global] Instance Warning_eq_dec : EqDecision Warning.
Proof. solve_decision. Defined.

(** A method body over an object of type [S]: the returned value or the
    exception raised, the object as the body leaves it, and the warnings
    issued, oldest first. *)
Definition M (S A : Type) : Type := S -> res A * S * list Warning.

#[global] Instance M_ret {S} : MRet (M S) := fun A a s => (Ok a, s, []).

#[global] Instance M_bind {S} : MBind (M S) := fun A B k m s =>
  match m s with
  | (Ok a, s', w) => let '(r, s'', w') := k a s' in (r, s'', w ++ w')
  | (Raise e, s', w) => (Raise e, s', w)
  end.

Definition raise {S A} (e : Exn) : M S A := fun s => (Raise e, s, []).
Definition warn {S} (w : Warning) : M S unit := fun s => (Ok tt, s, [w]).
Definition get {S} : M S S := fun s => (Ok s, s, []).
Definition modify {S} (f : S -> S) : M S unit := fun s => (Ok tt, f s, []).
Definition lift {S A} (r : res A) : M S A := fun s => (r, s, []).

(** The three parts of an outcome. *)
Definition outcome {S A} (o : res A * S * list Warning) : res A := o.1.1.
Definition final {S A} (o : res A * S * list Warning) : S := o.1.2.
Definition warned {S A} (o : res A * S * list Warning) : list Warning := o.2.

(** Truthiness of an optional integer argument ([None] and [0] are false). *)
Definition ztruthy (o : option Z) : bool :=
  match o with
  | Some z => negb (z =? 0)
  | None => false
  end.

(** [','.join(names)] *)
Fixpoint join_csv (names : list string) : string :=
  match names with
  | [] => ""
  | [n] => n
  | n :: rest => n +:+ "," +:+ join_csv rest
  end.

Definition returnparams_field (o : option (list string)) : ParamsField :=
  match o with
  | Some l => PList l
  | None => PNone
  end.

Section Controller.

Variable env : Env.

(** [Results.showQuery] *)
Definition showQuery : M Results string :=
  s ← get;
  match query s with
  | QLiteral sql => mret sql
  | QLive q => mret (literal_sql env q)
  | QNone => raise AttributeError
  end.

(** [Results.getColumns] *)
Definition getColumns : M Results (list Column) :=
  s ← get;
  match _params s with
  | None => raise (MarvinError "Could not create query columns")
  | Some ps =>
      match parameter_group env ps with
      | None => raise (MarvinError "Could not create query columns")
      | Some cols => modify (set_columns cols);; mret cols
      end
  end.

(** [Results._makeNamedTuple(index=index)]; no call in the module passes
    [rows], so the rows are always taken from [self.results]. *)
Definition _makeNamedTuple (index : option Z) : M Results unit :=
  cols ← getColumns;
  let ntnames := col_remote <$> cols in
  s ← get;
  nt ← lift (marvintuple (field_name_ok env) "ResultRow" ntnames (Some (ref_of s)));
  rows ← lift (match results s with
               | Paged rs => Ok (rs_rows rs)
               | Plain l => res_mapM (fun r => new_row nt (item_values r)) l
               end);
  modify (set_count (Z.of_nat (length rows)));;
  s ← get;
  rs ← lift (new_ResultSet rows (count s) (totalcount s) index (columns s));
  modify (set_results (Paged rs)).

(** [Results._interaction(url, params, calltype=..., named_tuple=...,
    index=...)] *)
Definition _interaction (url : string) (params : Request) (calltype : string)
    (named_tuple : bool) (index : option Z)
    : M Results (option (list (list value))) :=
  let params :=
    match rq_params params with
    | PList names =>
        {| rq_searchfilter := rq_searchfilter params;
           rq_params := PCsv (join_csv names);
           rq_start := rq_start params;
           rq_end := rq_end params;
           rq_limit := rq_limit params;
           rq_sort := rq_sort params;
           rq_order := rq_order params;
           rq_return_all := rq_return_all params |}
    | _ => params
    end in
  match interaction env url params with
  | None => raise (MarvinError ("API Query " +:+ calltype +:+ " call failed"))
  | Some ii =>
      let output := rsp_data ii in
      modify (set_response_time (Some (rsp_response_time ii)));;
      modify (set_runtime (Some (rsp_runtime ii)));;
      modify (set_query_time (Some (rsp_runtime ii)));;
      if named_tuple
      then modify (set_results (Plain (Raw <$> output)));;
           _makeNamedTuple index;;
           mret None
      else mret (Some output)
  end.

(** The request of a paging call. *)
Definition subset_request (s : Results) (newstart newend : Z) : Request :=
  {| rq_searchfilter := searchfilter s;
     rq_params := returnparams_field (returnparams s);
     rq_start := Some newstart;
     rq_end := Some newend;
     rq_limit := limit s;
     rq_sort := sortcol s;
     rq_order := order s;
     rq_return_all := false |}.

(** The block "This grabs the next chunk", which [getNext], [getPrevious]
    and [getSubset] each repeat with their own bounds and call name. *)
Definition grab_chunk (calltype : string) (newstart newend : Z) : M Results unit :=
  s ← get;
  match mode s with
  | local =>
      match query s with
      | QLive q =>
          modify (set_results (Plain (Raw <$> slice_all env q newstart newend)));;
          s ← get;
          if buffer_nonempty (results s)
          then _makeNamedTuple (Some newstart)
          else mret tt
      | _ => raise AttributeError
      end
  | remote =>
      match urlmap env with
      | None => raise (MarvinError "No URL Map found.  Cannot make remote call")
      | Some um =>
          _interaction (url_getsubset um) (subset_request s newstart newend)
                       calltype true (Some newstart);;
          mret tt
      end
  | auto => mret tt
  end.

(** [if self.returntype: self.convertToTool()]: the call omits the
    required [tooltype] argument. *)
Definition reconvert : M Results unit :=
  s ← get;
  if truthy (returntype s) then raise TypeError else mret tt.

(** The test [chunk and chunk < 0] with its fallback, opening both
    [getNext] and [getPrevious]. *)
Definition check_chunk (chunk_arg : option Z) : M Results (option Z) :=
  s ← get;
  if ztruthy chunk_arg && bool_decide (default 0 chunk_arg < 0)
  then warn (ChunkNegative (chunk s));; mret (Some (chunk s))
  else mret chunk_arg.

(** [self.chunk = chunk if chunk else self.chunk] *)
Definition store_chunk (chunk_arg : option Z) : M Results unit :=
  s ← get;
  modify (set_chunk (if ztruthy chunk_arg then default 0 chunk_arg else chunk s)).

(** [Results.getNext(chunk=None)] *)
Definition getNext (chunk_arg : option Z) : M Results buffer :=
  chunk_arg ← check_chunk chunk_arg;
  s ← get;
  let newstart := end_ s in
  store_chunk chunk_arg;;
  s ← get;
  let newend := newstart + chunk s in
  if decide (totalcount s = count s)
  then warn AllResultsForward;; mret (results s)
  else
    '(newstart, newend) ←
       (if decide (newend > totalcount s)
        then warn ReachedEnd;; mret (end_ s, totalcount s)
        else mret (newstart, newend));
    grab_chunk "getNext" newstart newend;;
    modify (set_start newstart);;
    modify (set_end_ newend);;
    s ← get;
    modify (set_count (buffer_len (results s)));;
    reconvert;;
    s ← get;
    mret (results s).

(** [Results.getPrevious(chunk=None)] *)
Definition getPrevious (chunk_arg : option Z) : M Results buffer :=
  chunk_arg ← check_chunk chunk_arg;
  s ← get;
  let newend := start s in
  store_chunk chunk_arg;;
  s ← get;
  let newstart := newend - chunk s in
  if decide (totalcount s = count s)
  then warn AllResultsBack;; mret (results s)
  else
    '(newstart, newend) ←
       (if decide (newstart < 0)
        then warn ReachedBeginning;; mret (0, start s)
        else mret (newstart, newend));
    grab_chunk "getPrevious" newstart newend;;
    modify (set_start newstart);;
    modify (set_end_ newend);;
    s ← get;
    modify (set_count (buffer_len (results s)));;
    reconvert;;
    s ← get;
    mret (results s).

(** [Results.getSubset(start, limit=None)] *)
Definition getSubset (start_arg : Z) (limit_arg : option Z) : M Results buffer :=
  s ← get;
  let limit1 := if ztruthy limit_arg then default 0 limit_arg else chunk s in
  limit2 ← (if decide (limit1 < 0)
            then warn (LimitNegative (chunk s));; mret (chunk s)
            else mret limit1);
  let start' := if decide (start_arg < 0) then 0 else start_arg in
  let end' := start' + limit2 in
  modify (set_start start');;
  modify (set_end_ end');;
  modify (set_chunk limit2);;
  grab_chunk "getSubset" start' end';;
  s ← get;
  modify (set_count (buffer_len (results s)));;
  reconvert;;
  s ← get;
  mret (results s).

(** [Results._check_column(name, name_type)] for [name_type = 'remote']
    and for [name_type = 'full']. *)
Definition _check_column (name : string) (form : Column -> string)
    : M Results string :=
  s ← get;
  match resolve_column (columns s) name with
  | Some c => mret (form c)
  | None => raise (MarvinError "Column not found in results")
  end.

(** [list.sort(key=..., reverse=...)]: stable, by Python's [<] on the keys. *)
Fixpoint insert_by {A} (lt : A -> A -> bool) (x : A) (l : list A) : list A :=
  match l with
  | [] => [x]
  | y :: l' => if lt y x then y :: insert_by lt x l' else x :: l
  end.

Definition stable_sort {A} (lt : A -> A -> bool) (l : list A) : list A :=
  foldr (insert_by lt) [] l.

(** Python's [<] on two tuples of cells. *)
Fixpoint tuple_lt (a b : list value) : bool :=
  match a, b with
  | [], [] => false
  | [], _ :: _ => true
  | _ :: _, [] => false
  | x :: a', y :: b' => if decide (x = y) then tuple_lt a' b' else cell_lt env x y
  end.

Definition flip_if {A} (reverse : bool) (lt : A -> A -> bool) : A -> A -> bool :=
  if reverse then fun x y => lt y x else lt.

(** [ResultSet.sort(name, reverse=reverse)] *)
Definition ResultSet_sort (rs : ResultSet) (name : string) (reverse : bool)
    : res ResultSet :=
  let with_rows rows :=
    {| rs_rows := rows; rs_count := rs_count rs; rs_total := rs_total rs;
       rs_pages := rs_pages rs; rs_index := rs_index rs;
       rs_columns := rs_columns rs |} in
  if negb (String.eqb name "")
  then
    match resolve_column (rs_columns rs) name with
    | None => Raise (MarvinError "Column not found in results")
    | Some c =>
        res_bind
          (res_mapM (fun r => res_bind (row_getattr r (col_remote c))
                                       (fun k => Ok (k, r))) (rs_rows rs))
          (fun keyed =>
             Ok (with_rows
                   (snd <$> stable_sort
                              (flip_if reverse (fun x y => cell_lt env x.1 y.1))
                              keyed)))
    end
  else
    Ok (with_rows (stable_sort (fun x y => tuple_lt (row_values x) (row_values y))
                               (rs_rows rs))).

(** [Results.sort(name, order='asc')] *)
Definition sort (name : string) (order_arg : string) : M Results buffer :=
  remotename ← _check_column name col_remote;
  modify (set_sortcol (Some remotename));;
  modify (set_order (Some order_arg));;
  s ← get;
  match mode s with
  | local =>
      let reverse := String.eqb order_arg "desc" in
      match results s with
      | Paged rs =>
          rs' ← lift (ResultSet_sort rs remotename reverse);
          modify (set_results (Paged rs'))
      | Plain _ => raise TypeError
      end
  | remote =>
      match urlmap env with
      | None => raise (MarvinError "No URL Map found.  Cannot make remote call")
      | Some um =>
          _interaction (url_querycubes um)
            {| rq_searchfilter := searchfilter s;
               rq_params := returnparams_field (returnparams s);
               rq_start := None;
               rq_end := None;
               rq_limit := limit s;
               rq_sort := Some remotename;
               rq_order := Some order_arg;
               rq_return_all := false |}
            "Sort" true None;;
          mret tt
      end
  | auto => mret tt
  end;;
  s ← get;
  mret (results s).

(** An element of the argument of [merge_subsets]. *)
Inductive subset_arg :=
| SubList (rows : list Row)
| NotAList.

Definition is_list (a : subset_arg) : bool :=
  match a with
  | SubList _ => true
  | NotAList => false
  end.

Definition subset_rows (a : subset_arg) : list Row :=
  match a with
  | SubList rows => rows
  | NotAList => []
  end.

(** [s[0]] *)
Definition first_row (a : subset_arg) : res Row :=
  match subset_rows a with
  | r :: _ => Ok r
  | [] => Raise IndexError
  end.

Definition msg_not_nested : string :=
  "Input must be a list of result subsets (list of lists)".
Definition msg_different_columns : string :=
  "Cannot merge subsets. Different named columns from base set. Ensure all columns are the same.".
Definition msg_column_number : string :=
  "Cannot merge subsets. Column number mismatch among subsets. Ensure all subsets have the same number of columns".

(** [Results.merge_subsets(subsets)] *)
Definition merge_subsets (subsets : list subset_arg) : M Results buffer :=
  if negb (forallb is_list subsets)
  then raise (MarvinError msg_not_nested)
  else
    firsts ← lift (res_mapM first_row subsets);
    let same_count :=
      forallb (fun r => negb (Z.of_nat (length (row_values r)) =? 0)) firsts in
    firsts ← lift (res_mapM first_row subsets);
    s ← get;
    let same_cols :=
      forallb (fun r => bool_decide (cls_fields (row_class r)
                                     = col_remote <$> columns s)) firsts in
    if same_count
    then
      if same_cols
      then
        let output := Named <$> concat (subset_rows <$> subsets) in
        modify (set_results (Plain output));;
        s ← get;
        modify (set_count (buffer_len (results s)));;
        s ← get;
        mret (results s)
      else raise (MarvinUserWarning msg_different_columns)
    else raise (MarvinUserWarning msg_column_number).

Definition msg_too_large : string :=
  "Cannot retrieve all results. The total number of requested rows or columns is too high. Please use the getSubset method retrieve pages.".

(** [Results.getAll()] *)
Definition getAll : M Results unit :=
  s ← get;
  if bool_decide (totalcount s > 500000)
     || bool_decide (Z.of_nat (length (columns s)) > 25)
  then raise (MarvinUserWarning msg_too_large)
  else
    match mode s with
    | local =>
        match query s with
        | QLive q =>
            modify (set_results (Plain (Raw <$> from_self_all env q)));;
            _makeNamedTuple None
        | _ => raise AttributeError
        end
    | remote =>
        match urlmap env with
        | None => raise TypeError
        | Some um =>
            _interaction (url_querycubes um)
              {| rq_searchfilter := searchfilter s;
                 rq_params := returnparams_field (returnparams s);
                 rq_start := None;
                 rq_end := None;
                 rq_limit := limit s;
                 rq_sort := sortcol s;
                 rq_order := order s;
                 rq_return_all := true |}
              "getAll" true None;;
            s ← get;
            modify (set_count (totalcount s))
        end
    | auto => mret tt
    end.

End Controller.

(** ** Persistence *)

(** An entry of the file system: a directory, or a file holding what
    [pickle.dump] wrote. *)
Inductive node (Archive : Type) :=
| Dir
| File (a : Archive).
Arguments Dir {Archive}.
Arguments File {Archive} a.

(** The library calls of [save] and [restore]: [pickle], [os.path] and
    [os.makedirs]. *)
Record Storage (Archive : Type) := {
  (** [pickle.dump(obj, file, protocol=-1)], [None] when it raises. *)
  pickle_dump : Results -> option Archive;
  (** [pickle.load(file)], [None] when it raises. *)
  pickle_load : Archive -> option Results;
  expanduser : string -> string;
  (** [os.path.splitext(path)[1]] *)
  splitext_ext : string -> string;
  realpath : string -> string;
  dirname : string -> string;
  (** [os.makedirs(name)]: the disk as the call leaves it, with the
      missing ancestors it made, and [false] when it raises [OSError]. *)
  makedirs : string -> gmap string (node Archive) -> gmap string (node Archive) * bool
}.
Arguments pickle_dump {Archive} _ _.
Arguments pickle_load {Archive} _ _.
Arguments expanduser {Archive} _ _.
Arguments splitext_ext {Archive} _ _.
Arguments realpath {Archive} _ _.
Arguments dirname {Archive} _ _.
Arguments makedirs {Archive} _ _ _.

(** [s.replace(' ', '')] *)
Fixpoint remove_spaces (s : string) : string :=
  match s with
  | EmptyString => EmptyString
  | String c rest =>
      if Ascii.eqb c " "%char then remove_spaces rest
      else String c (remove_spaces rest)
  end.

(** [not isinstance(self.query, six.string_types)] *)
Definition isnotstr (q : query_repr) : bool :=
  match q with
  | QLiteral _ => false
  | _ => true
  end.

Section Persistence.

Context {Archive : Type}.
Variable os : Storage Archive.

(** The files and directories by path. *)
Local Abbreviation disk := (gmap string (node Archive)).

Definition isdir (d : disk) (path : string) : bool :=
  match d !! path with
  | Some Dir => true
  | _ => false
  end.

Definition exists_path (d : disk) (path : string) : bool :=
  match d !! path with
  | Some _ => true
  | None => false
  end.

(** Run a step on the controller alone, the disk untouched. *)
Definition on_self {A} (m : M Results A) : M (Results * disk) A :=
  fun sd => let '(r, s', w) := m sd.1 in (r, (s', sd.2), w).

(** Run a step on the disk alone. *)
Definition on_disk (f : disk -> disk) : M (Results * disk) unit :=
  modify (fun sd => (sd.1, f sd.2)).

(** [if not os.path.exists(dirname): os.makedirs(dirname)]: the disk
    afterwards, and [false] when [os.makedirs] raises. *)
Definition ensure_dir (d : disk) (dir : string) : disk * bool :=
  if exists_path d dir then (d, true) else makedirs os dir d.

(** [Results.save(path=None, overwrite=False)]; the result [None] is the
    bare [return] taken when the file exists and is not overwritten.  An
    [OSError] of [os.makedirs] is not caught.  [open(path, 'wb')] needs the
    directory of the path to be a directory; its failure and the failure of
    [pickle.dump] are caught by the same handler, which removes the file if
    there is one. *)
Definition save (path : option string) (overwrite : bool)
    : M (Results * disk) (option string) :=
  on_self (modify (set_queryobj None));;
  sd ← get;
  (if isnotstr (query sd.1) then on_self (modify (set_query QNone)) else mret tt);;
  sd ← get;
  let s := sd.1 in
  let sf := if truthy (searchfilter s)
            then remove_spaces (default "" (searchfilter s))
            else "anon" in
  let path := if truthy path then default "" path
              else expanduser os ("~/marvin_results_" +:+ sf +:+ ".mpf") in
  let path := if String.eqb (splitext_ext os path) "" then path +:+ ".mpf"
              else path in
  let path := realpath os path in
  if isdir sd.2 path
  then raise (MarvinError "path must be a full route, including the filename.")
  else if exists_path sd.2 path && negb overwrite
  then warn FileExists;; mret None
  else
    let dir := dirname os path in
    let made := ensure_dir sd.2 dir in
    on_disk (fun _ => made.1);;
    if negb made.2 then raise OSError
    else
      sd ← get;
      match (if isdir sd.2 dir then pickle_dump os sd.1 else None) with
      | Some a => on_disk (insert path (File a));; mret (Some path)
      | None =>
          on_disk (delete path);;
          raise (MarvinError "Error found while pickling")
      end.

(** Modelled from the spec: [marvin_pickle.restore(path, delete=delete)],
    to which [Results.restore] hands over and whose module is not part of
    the code at hand.  It deserializes the archive at [path], and
    [delete = true] removes the archive file after a successful read. *)
Definition restore (path : string) (delete_arg : bool) : M disk Results :=
  d ← get;
  match d !! path with
  | Some (File a) =>
      match pickle_load os a with
      | Some obj =>
          (if delete_arg then modify (delete path) else mret tt);;
          mret obj
      | None => raise (MarvinError "Error found while unpickling")
      end
  | _ => raise (MarvinError "the path does not exist")
  end.

End Persistence.

(** ** A small installation to run the methods on *)

Module Demo.

Definition ident_char (c : ascii) : bool :=
  let n := nat_of_ascii c in
  ((48 <=? n) && (n <=? 57) || (65 <=? n) && (n <=? 90)
   || (97 <=? n) && (n <=? 122) || (n =? 95))%nat.

Fixpoint all_chars (p : ascii -> bool) (s : string) : bool :=
  match s with
  | EmptyString => true
  | String c rest => p c && all_chars p rest
  end.

(** An ASCII identifier that starts with a letter. *)
Definition identifier_like (s : string) : bool :=
  match s with
  | EmptyString => false
  | String c _ =>
      let n := nat_of_ascii c in
      ((65 <=? n) && (n <=? 90) || (97 <=? n) && (n <=? 122))%nat
      && all_chars ident_char s
  end.

Definition plain_column (p : string) : Column :=
  {| col_full := p; col_remote := p; col_display := p; col_short := p |}.

Definition cell_order (x y : value) : bool :=
  match x, y with
  | VInt a, VInt b => a <? b
  | VStr a, VStr b => match String.compare a b with Lt => true | _ => false end
  | _, _ => false
  end.

(** Seven galaxies, as the data source holds them. *)
Definition galaxy (plateifu : string) : list value :=
  [VStr "1-209232"; VInt 8485; VStr plateifu; VStr "1901"].

Definition galaxies : list (list value) :=
  galaxy <$> ["8485-1901"; "8485-1902"; "8485-3701"; "8485-3702";
              "8485-6101"; "8485-9101"; "8485-12701"].

(** The rows [start .. end) of the seven. *)
Definition window (start_arg end_arg : Z) : list (list value) :=
  take (Z.to_nat (end_arg - start_arg)) (drop (Z.to_nat start_arg) galaxies).

Definition routes : UrlMap :=
  {| url_querycubes := "/api/query/cubes/";
     url_getsubset := "/api/query/cubes/getsubset/";
     url_getcolumn := "/api/query/cubes/columns/" |}.

(** The service answers every request from the seven galaxies. *)
Definition answer (url : string) (rq : Request) : option Response :=
  Some {| rsp_data := if rq_return_all rq then galaxies
                      else window (default 0 (rq_start rq)) (default 7 (rq_end rq));
          rsp_response_time := 1;
          rsp_runtime := 1 |}.

Definition env_up : Env :=
  {| parameter_group := fun ps => Some (plain_column <$> ps);
     field_name_ok := identifier_like;
     cell_lt := cell_order;
     urlmap := Some routes;
     interaction := answer;
     slice_all := fun _ => window;
     from_self_all := fun _ => galaxies;
     literal_sql := fun _ => "SELECT cube.mangaid FROM cube" |}.

(** The same installation with the service unreachable. *)
Definition env_down : Env :=
  {| parameter_group := parameter_group env_up;
     field_name_ok := field_name_ok env_up;
     cell_lt := cell_lt env_up;
     urlmap := urlmap env_up;
     interaction := fun _ _ => None;
     slice_all := slice_all env_up;
     from_self_all := from_self_all env_up;
     literal_sql := literal_sql env_up |}.

(** A controller as [Results.__init__] leaves its attributes before it
    builds the rows: the first [n] galaxies of seven, in pages of [n]. *)
Definition fresh (m : Mode) (q : query_repr) (n total : Z) : Results :=
  {| results := Plain (Raw <$> window 0 n);
     _queryobj := match q with QLive h => Some (MarvinQuery h) | _ => None end;
     query := q;
     returntype := None;
     searchfilter := Some "nsa.z < 0.1";
     returnparams := None;
     limit := None;
     _params := Some default_fields;
     _release := Some "MPL-5";
     count := n;
     totalcount := total;
     _runtime := None;
     query_time := None;
     response_time := None;
     mode := m;
     chunk := n;
     start := 0;
     end_ := 0 + n;
     columns := [];
     sortcol := None;
     order := None |}.

(** The controller once [__init__] has called [_makeNamedTuple]. *)
Definition controller (m : Mode) (q : query_repr) (n total : Z) : Results :=
  final (_makeNamedTuple env_up None (fresh m q n total)).

Definition local_ctl : Results := controller local (QLive 0%nat) 5 7.
Definition remote_ctl : Results :=
  controller remote (QLiteral "SELECT cube.mangaid FROM cube") 5 7.

(** A remote controller over a query with 600,000 rows in total. *)
Definition huge_ctl : Results :=
  controller remote (QLiteral "SELECT cube.mangaid FROM cube") 5 600000.

(** The local controller one page further: rows 5 and 6, the last page. *)
Definition last_page_ctl : Results := final (getNext env_up None local_ctl).

(** Rows for the merge: [{id, a: 1}] and [{id, a: 2, b: 3}]. *)
Definition query_ref : ResultsRef :=
  {| ref_release := Some "MPL-5"; ref_searchfilter := Some "nsa.z < 0.1" |}.

Definition row_class_of (extra : list string) (r : option ResultsRef) : RowClass :=
  {| cls_name := "ResultRow"; cls_fields := default_fields ++ extra; cls_results := r |}.

Definition rowA : Row :=
  {| row_class := row_class_of ["a"] (Some query_ref);
     row_values := galaxy "8485-1901" ++ [VInt 1] |}.

Definition rowB : Row :=
  {| row_class := row_class_of ["a"; "b"] (Some query_ref);
     row_values := galaxy "8485-1901" ++ [VInt 2; VInt 3] |}.

Definition rowAB : Row :=
  {| row_class := row_class_of ["a"; "b"] (Some query_ref);
     row_values := galaxy "8485-1901" ++ [VInt 2; VInt 3] |}.

(** The same galaxy in a row of a controller built without a release, and
    in a row of another release. *)
Definition row_no_release : Row :=
  {| row_class := row_class_of ["a"]
       (Some {| ref_release := None; ref_searchfilter := Some "nsa.z < 0.1" |});
     row_values := galaxy "8485-1901" ++ [VInt 1] |}.

Definition row_other_release : Row :=
  {| row_class := row_class_of ["a"]
       (Some {| ref_release := Some "MPL-4"; ref_searchfilter := Some "nsa.z < 0.1" |});
     row_values := galaxy "8485-1901" ++ [VInt 7] |}.

(** The other galaxy of the same plate. *)
Definition rowC : Row :=
  {| row_class := row_class_of ["a"] (Some query_ref);
     row_values := galaxy "8485-1902" ++ [VInt 1] |}.

(** A three-letter extension, if the path ends in one. *)
Definition last_four (p : string) : string :=
  let tail := String.substring (String.length p - 4) 4 p in
  match tail with
  | String "."%char _ => if (4 <=? String.length p)%nat then tail else ""
  | _ => ""
  end.

(** Pickling by keeping the object itself; paths are absolute already and
    every file lives in [/data], which lies under the root, so that
    [os.makedirs] has one directory to make. *)
Definition keep_all : Storage Results :=
  {| pickle_dump := Some;
     pickle_load := Some;
     expanduser := fun p => p;
     splitext_ext := last_four;
     realpath := fun p => p;
     dirname := fun _ => "/data";
     makedirs := fun dir d => (<[dir := Dir]> d, true) |}.

End Demo.

(** ** Vocabulary of the statements *)

(** Prefix an outcome's warnings. *)
Definition also_warned {S A} (w : Warning) (o : res A * S * list Warning)
    : res A * S * list Warning :=
  (outcome o, final o, w :: warned o).

(** The chunk size a paging call steps with. *)
Definition stepping_chunk (s : Results) (chunk_arg : option Z) : Z :=
  match chunk_arg with
  | Some k => if bool_decide (0 < k) then k else chunk s
  | None => chunk s
  end.

(** The limit [getSubset] pages with. *)
Definition subset_limit (s : Results) (limit_arg : option Z) : Z :=
  match limit_arg with
  | Some l => if bool_decide (0 < l) then l else chunk s
  | None => chunk s
  end.

(** The attributes that fetching a page and rebuilding the rows never
    assign. *)
Definition beside_fetch (s : Results) :=
  (_queryobj s, query s, returntype s, searchfilter s, returnparams s, limit s,
   _params s, _release s, totalcount s, mode s, chunk s, start s, end_ s,
   sortcol s, order s).

(** A method body that leaves those attributes alone, however it ends. *)
Definition fetch_only {A} (m : M Results A) : Prop :=
  forall s, beside_fetch (final (m s)) = beside_fetch s.

(** The remote service cannot be reached: no route map, or every call to
    [Interaction] raises. *)
Definition unreachable (env : Env) : Prop :=
  urlmap env = None \/ forall url rq, interaction env url rq = None.

(** The buffer of [s'] is the buffer of [s]. *)
Definition buffer_kept (s s' : Results) : Prop :=
  results s' = results s /\ count s' = count s.

(** The window of [s'] is the window of [s]. *)
Definition window_kept (s s' : Results) : Prop :=
  start s' = start s /\ end_ s' = end_ s.

(** The call ended in an exception. *)
Definition raises {S A} (o : res A * S * list Warning) : Prop :=
  exists e, outcome o = Raise e.

(** The controller as [save] leaves it: no query object, and no query
    unless it was a literal string. *)
Definition saved_form (s : Results) : Results :=
  if isnotstr (query s) then set_query QNone (set_queryobj None s)
  else set_queryobj None s.

(** ** The rest of the row factory and of the result set *)

(** [c in s] for a character [c]. *)
Fixpoint has_char (c : ascii) (s : string) : bool :=
  match s with
  | EmptyString => false
  | String c' rest => Ascii.eqb c c' || has_char c rest
  end.

(** [s.split(sep)] for a one-character separator: the empty string splits
    into one empty piece. *)
Fixpoint split_on (sep : ascii) (s : string) : list string :=
  match s with
  | EmptyString => [EmptyString]
  | String c rest =>
      if Ascii.eqb c sep then EmptyString :: split_on sep rest
      else match split_on sep rest with
           | piece :: pieces => String c piece :: pieces
           | [] => [String c EmptyString]
           end
  end.

(** The whitespace [str.strip()] removes, in the ASCII range. *)
Definition is_space (c : ascii) : bool :=
  let n := nat_of_ascii c in
  ((9 <=? n) && (n <=? 13) || (28 <=? n) && (n <=? 32))%nat.

Fixpoint lstrip (s : string) : string :=
  match s with
  | EmptyString => EmptyString
  | String c rest => if is_space c then lstrip rest else s
  end.

Fixpoint rstrip (s : string) : string :=
  match s with
  | EmptyString => EmptyString
  | String c rest =>
      match rstrip rest with
      | EmptyString => if is_space c then EmptyString else String c EmptyString
      | kept => String c kept
      end
  end.

(** [s.strip()] *)
Definition strip (s : string) : string := rstrip (lstrip s).

(** The [params] argument of [marvintuple]: omitted, a string of names or
    a list of names. *)
Inductive params_arg :=
| NoParams
| ParamString (names : string)
| ParamNames (names : list string).

(** The opening of [marvintuple]: a non-empty string is split at its commas
    when it has one, and every piece is stripped. *)
Definition check_params (params : params_arg) : list string :=
  match params with
  | NoParams => []
  | ParamString s =>
      if String.eqb s "" then []
      else strip <$> (if has_char ","%char s then split_on ","%char s else [s])
  | ParamNames names => names
  end.

(** [marvintuple(name, params, results=results)] for every form of
    [params]. *)
Definition marvintuple_call (ok : string -> bool) (name : string)
    (params : params_arg) (results : option ResultsRef) : res RowClass :=
  marvintuple ok name (check_params params) results.

(** The argument of [ResultSet.__getitem__]: a string, an integer or a
    slice without a step. *)
Inductive subscript :=
| ByName (value : string)
| ByIndex (i : Z)
| BySlice (lower upper : option Z).

(** What [ResultSet.__getitem__] returns. *)
Inductive selection :=
| OneCell (v : value)
| Cells (vs : list value)
| OneRow (r : Row)
| Rows (rs : list Row).

(** [rows[0] if len(rows) == 1 else rows], and [ValueError] for no rows. *)
Definition one_or_all {A} (one : A -> selection) (all : list A -> selection)
    (rows : list A) : res selection :=
  match rows with
  | [] => Raise ValueError
  | [x] => Ok (one x)
  | _ => Ok (all rows)
  end.

(** A bound of a slice of a list of length [n], as [list] clamps it. *)
Definition slice_bound (n : Z) (fallback : Z) (bound : option Z) : Z :=
  match bound with
  | None => fallback
  | Some b => if decide (b < 0) then Z.max 0 (b + n) else Z.min b n
  end.

(** [list.__getitem__] on the rows. *)
Definition list_getitem (rows : list Row) (k : subscript) : res selection :=
  let n := Z.of_nat (length rows) in
  match k with
  | ByIndex i =>
      let j := if decide (i < 0) then i + n else i in
      match (if decide (0 <= j) then rows !! Z.to_nat j else None) with
      | Some r => Ok (OneRow r)
      | None => Raise IndexError
      end
  | BySlice lower upper =>
      let a := slice_bound n 0 lower in
      let b := slice_bound n n upper in
      Ok (Rows (take (Z.to_nat (b - a)) (drop (Z.to_nat a) rows)))
  | ByName _ => Raise TypeError
  end.

(** [ResultSet.__getitem__(value)] *)
Definition ResultSet_getitem (rs : ResultSet) (k : subscript) : res selection :=
  match k with
  | ByName value =>
      match resolve_column (rs_columns rs) value with
      | Some c =>
          res_bind (res_mapM (fun row => row_getattr row (col_remote c)) (rs_rows rs))
                   (one_or_all OneCell Cells)
      | None =>
          one_or_all OneRow Rows
            (filter (fun row => VStr value ∈ row_values row) (rs_rows rs))
      end
  | _ => list_getitem (rs_rows rs) k
  end.

(** [ResultSet.to_list] *)
Definition to_list (rs : ResultSet) : list Row := rs_rows rs.

(** The exceptions of [to_dict]: those of the module, and the [KeyError] of
    a dictionary subscript. *)
Inductive DictExn :=
| ModuleExn (e : Exn)
| KeyError (key : string).

(** A dictionary with values of any type, keys in insertion order. *)
Fixpoint kv_set {V} (k : string) (v : V) (d : list (string * V)) : list (string * V) :=
  match d with
  | [] => [(k, v)]
  | (k', v') :: d' =>
      if decide (k = k') then (k', v) :: d' else (k', v') :: kv_set k v d'
  end.

Fixpoint kv_get {V} (k : string) (d : list (string * V)) : option V :=
  match d with
  | [] => None
  | (k', v) :: d' => if decide (k = k') then Some v else kv_get k d'
  end.

(** A dictionary comprehension [{k: f(k) for k in keys}], stopping at the
    first key whose value raises. *)
Fixpoint comprehension {V} (f : string -> V + DictExn) (keys : list string)
    (acc : list (string * V)) : list (string * V) + DictExn :=
  match keys with
  | [] => inl acc
  | k :: keys' =>
      match f k with
      | inl v => comprehension f keys' (kv_set k v acc)
      | inr e => inr e
      end
  end.

(** A list comprehension [[f(x) for x in xs]], stopping at the first
    element that raises. *)
Fixpoint each {A B} (f : A -> B + DictExn) (xs : list A) : list B + DictExn :=
  match xs with
  | [] => inl []
  | x :: xs' =>
      match f x with
      | inl y => match each f xs' with
                 | inl ys => inl (y :: ys)
                 | inr e => inr e
                 end
      | inr e => inr e
      end
  end.

(** [res.__getattribute__(k)] *)
Definition cell_by_attribute (r : Row) (k : string) : value + DictExn :=
  match od_get k (_asdict r) with
  | Some v => inl v
  | None => inr (ModuleExn AttributeError)
  end.

(** [res._asdict()[k]] *)
Definition cell_by_key (r : Row) (k : string) : value + DictExn :=
  match od_get k (_asdict r) with
  | Some v => inl v
  | None => inr (KeyError k)
  end.

(** What [to_dict] returns: a list of dictionaries or a dictionary of
    lists. *)
Inductive table :=
| ListDict (rows : list (list (string * value)))
| DictList (cols : list (string * list value)).

(** [ResultSet.to_dict(name=None, format_type='listdict')] *)
Definition to_dict (rs : ResultSet) (name : option string) (format_type : string)
    : table + DictExn :=
  let keys := col_remote <$> rs_columns rs in
  let wanted := if truthy name then [default "" name] else keys in
  if String.eqb format_type "listdict" then
    match each (fun r => comprehension (cell_by_attribute r) wanted []) (rs_rows rs) with
    | inl output => inl (ListDict output)
    | inr e => inr e
    end
  else if String.eqb format_type "dictlist" then
    match comprehension (fun k => each (fun r => cell_by_key r k) (rs_rows rs)) wanted [] with
    | inl output => inl (DictList output)
    | inr e => inr e
    end
  else inr (ModuleExn (MarvinError
              "Cannot output dictionaries.  Check your input format_type.")).

(** ** More vocabulary *)

(** What identifies the query of a controller, with the total count, the
    mode and the stored query. *)
Definition fingerprint (s : Results) :=
  (searchfilter s, returnparams s, _params s, _release s, limit s,
   totalcount s, mode s, query s, _queryobj s, returntype s).

(** A method body that leaves [proj] of the controller alone, however it
    ends. *)
Definition keeps {P A} (proj : Results -> P) (m : M Results A) : Prop :=
  forall s, proj (final (m s)) = proj s.

(** The file [save] writes to. *)
Definition save_target {Archive} (os : Storage Archive) (path : option string)
    (s : Results) : string :=
  let sf := if truthy (searchfilter s)
            then remove_spaces (default "" (searchfilter s))
            else "anon" in
  let path := if truthy path then default "" path
              else expanduser os ("~/marvin_results_" +:+ sf +:+ ".mpf") in
  let path := if String.eqb (splitext_ext os path) "" then path +:+ ".mpf"
              else path in
  realpath os path.

(** ** More sample data *)

(** A third row of the same galaxy, with a column of its own. *)
Definition rowZ : Row :=
  {| row_class := Demo.row_class_of ["z"] (Some Demo.query_ref);
     row_values := Demo.galaxy "8485-1901" ++ [VInt 7] |}.

(** A row with the default columns only, as the sample controllers list
    them. *)
Definition rowPlain : Row :=
  {| row_class := Demo.row_class_of [] (Some Demo.query_ref);
     row_values := Demo.galaxy "8485-3701" |}.

(** A controller built with [returntype] set. *)
Definition with_returntype (t : string) (s : Results) : Results :=
  {| results := results s; _queryobj := _queryobj s; query := query s;
     returntype := Some t; searchfilter := searchfilter s;
     returnparams := returnparams s; limit := limit s; _params := _params s;
     _release := _release s; count := count s; totalcount := totalcount s;
     _runtime := _runtime s; query_time := query_time s;
     response_time := response_time s; mode := mode s; chunk := chunk s;
     start := start s; end_ := end_ s; columns := columns s; sortcol := sortcol s;
     order := order s |}.

(** An installation whose data source has no row for any query. *)
Definition env_empty : Env :=
  {| parameter_group := parameter_group Demo.env_up;
     field_name_ok := field_name_ok Demo.env_up;
     cell_lt := cell_lt Demo.env_up;
     urlmap := urlmap Demo.env_up;
     interaction := interaction Demo.env_up;
     slice_all := fun _ _ _ => [];
     from_self_all := fun _ => [];
     literal_sql := literal_sql Demo.env_up |}.

(** A result set of two galaxies over the default columns. *)
Definition sample_set : ResultSet :=
  {| rs_rows := [rowPlain;
                 {| row_class := Demo.row_class_of [] (Some Demo.query_ref);
                    row_values := Demo.galaxy "8485-3702" |}];
     rs_count := 2; rs_total := 7; rs_pages := 4; rs_index := 2;
     rs_columns := Demo.plain_column <$> default_fields |}.

(** The same storage with a pickler that always fails. *)
Definition failing_pickle : Storage Results :=
  {| pickle_dump := fun _ => None;
     pickle_load := pickle_load Demo.keep_all;
     expanduser := expanduser Demo.keep_all;
     splitext_ext := splitext_ext Demo.keep_all;
     realpath := realpath Demo.keep_all;
     dirname := dirname Demo.keep_all;
     makedirs := makedirs Demo.keep_all |}.

(** A disk that holds an earlier archive. *)
Definition old_disk : gmap string (node Results) :=
  {[ "/data/results.mpf" := File Demo.remote_ctl ]}.

(** A local controller whose first page holds three of the seven rows. *)
Definition narrow_ctl : Results := Demo.controller local (QLive 0%nat) 3 7.

(** * Properties *)

(** ** Ordered dictionaries *)

Lemma filter_ext_elem {A} (P Q : A -> Prop) `{!forall x, Decision (P x)}
    `{!forall x, Decision (Q x)} (l : list A) :
  (forall x, x ∈ l -> (P x <-> Q x)) -> filter P l = filter Q l.
Proof.
  induction l as [|a l IH]; intros Hext; [done|].
  rewrite !filter_cons.
  rewrite IH by (intros x Hx; apply Hext; by apply list_elem_of_further).
  pose proof (Hext a (list_elem_of_here _ _)) as Ha.
  destruct (decide (P a)), (decide (Q a)); tauto || done.
Qed.

Lemma od_keys_set k v d :
  od_keys (od_set k v d) = if decide (k ∈ od_keys d) then od_keys d else od_keys d ++ [k].
Proof.
  unfold od_keys. induction d as [|[k' v'] d IH]; cbn [od_set fmap list_fmap fst].
  - rewrite decide_False by apply not_elem_of_nil. done.
  - destruct (decide (k = k')) as [->|Hne]; cbn [fmap list_fmap fst].
    + rewrite decide_True by apply list_elem_of_here. done.
    + rewrite IH. destruct (decide (k ∈ d.*1)) as [Hin|Hnin].
      * rewrite decide_True by (by apply list_elem_of_further). done.
      * rewrite decide_False; [done|]. rewrite elem_of_cons. tauto.
Qed.

Lemma od_get_set k v d f :
  od_get f (od_set k v d) = if decide (f = k) then Some v else od_get f d.
Proof.
  induction d as [|[k' v'] d IH]; simpl.
  - done.
  - destruct (decide (k = k')) as [->|Hne]; simpl.
    + destruct (decide (f = k')); done.
    + rewrite IH. destruct (decide (f = k')) as [->|]; [|done].
      rewrite decide_False by done. done.
Qed.

Lemma od_get_None f d : od_get f d = None <-> f ∉ od_keys d.
Proof.
  unfold od_keys. induction d as [|[k v] d IH]; simpl.
  - split; [intros _; apply not_elem_of_nil | done].
  - destruct (decide (f = k)) as [->|Hne].
    + split; [done|]. intros Hf. exfalso. apply Hf, list_elem_of_here.
    + rewrite IH. rewrite not_elem_of_cons. tauto.
Qed.

(** [update] keeps the keys in place and appends the new ones in order. *)
Lemma od_keys_update d other :
  NoDup (od_keys other) ->
  od_keys (od_update d other)
  = od_keys d ++ filter (fun k => k ∉ od_keys d) (od_keys other).
Proof.
  unfold od_update. revert d.
  induction other as [|[k v] other IH]; intros d Hnd; simpl.
  - by rewrite app_nil_r.
  - unfold od_keys in Hnd; simpl in Hnd. apply NoDup_cons in Hnd as [Hk Hnd].
    rewrite IH by done. rewrite od_keys_set. unfold od_keys; simpl.
    rewrite filter_cons. destruct (decide (k ∈ d.*1)) as [Hin|Hnin].
    + rewrite decide_False by (intros ?; done). done.
    + rewrite decide_True by done. rewrite <- app_assoc. simpl. do 2 f_equal.
      apply filter_ext_elem. intros x Hx.
      rewrite not_elem_of_app, not_elem_of_cons.
      split; [tauto|]. intros ?. split_and!; [done| |apply not_elem_of_nil].
      intros ->. done.
Qed.

(** After [update] a key holds the other dictionary's value if it has one. *)
Lemma od_get_update d other f :
  NoDup (od_keys other) ->
  od_get f (od_update d other)
  = match od_get f other with Some v => Some v | None => od_get f d end.
Proof.
  unfold od_update. revert d.
  induction other as [|[k v] other IH]; intros d Hnd; simpl.
  - done.
  - unfold od_keys in Hnd; simpl in Hnd. apply NoDup_cons in Hnd as [Hk Hnd].
    rewrite IH by done. rewrite od_get_set.
    destruct (decide (f = k)) as [->|Hne].
    + apply od_get_None in Hk. rewrite Hk. done.
    + done.
Qed.

Lemma od_lookup_all (d : odict) :
  NoDup (od_keys d) ->
  res_mapM (fun f => match od_get f d with
                     | Some v => Ok v
                     | None => Raise TypeError
                     end) (od_keys d) = Ok (d.*2).
Proof.
  unfold od_keys.
  assert (Hgen : forall (pre post : odict), NoDup ((pre ++ post).*1) ->
     res_mapM (fun f => match od_get f (pre ++ post) with
                        | Some v => Ok v | None => Raise TypeError end) (post.*1)
     = Ok (post.*2)).
  { intros pre post. revert pre.
    induction post as [|[k v] post IH]; intros pre Hnd; [done|].
    rewrite !fmap_cons. cbn [res_mapM fst snd].
    assert (Hget : od_get k (pre ++ (k, v) :: post) = Some v).
    { clear IH. rewrite fmap_app in Hnd. apply NoDup_app in Hnd as (_ & Hdis & _).
      induction pre as [|[k' v'] pre IHp]; simpl.
      - by rewrite decide_True.
      - rewrite decide_False.
        + apply IHp. intros x Hx. apply Hdis. by apply list_elem_of_further.
        + intros ->. apply (Hdis k'); simpl; apply list_elem_of_here. }
    rewrite Hget. cbn [res_bind].
    specialize (IH (pre ++ [(k, v)])). rewrite <- app_assoc in IH. cbn [app] in IH.
    rewrite IH by done. done. }
  intros Hnd. apply (Hgen [] d). done.
Qed.

Lemma filter_keep_all {A} (P : A -> Prop) `{!forall x, Decision (P x)} (l : list A) :
  (forall x, x ∈ l -> P x) -> filter P l = l.
Proof.
  induction l as [|a l IH]; intros Hall; [done|].
  rewrite filter_cons_True by apply Hall, list_elem_of_here.
  f_equal. apply IH. intros x Hx. by apply Hall, list_elem_of_further.
Qed.

(** ** Rows *)

Section RowFacts.
Variable fok : string -> bool.

Lemma row_wf_inv r :
  row_wf fok r = true ->
  forallb fok (cls_fields (row_class r)) = true
  /\ NoDup (cls_fields (row_class r))
  /\ take 4 (cls_fields (row_class r)) = default_fields
  /\ length (row_values r) = length (cls_fields (row_class r)).
Proof.
  unfold row_wf. rewrite !andb_true_iff, !bool_decide_eq_true. tauto.
Qed.

Lemma asdict_keys r :
  length (row_values r) = length (cls_fields (row_class r)) ->
  od_keys (_asdict r) = cls_fields (row_class r).
Proof. intros Hlen. unfold od_keys, _asdict. apply fst_zip. lia. Qed.

(** [marvintuple] returns the fields it is given when they already start
    with the default ones. *)
Lemma marvintuple_fixed name fields results :
  forallb fok fields = true -> NoDup fields -> take 4 fields = default_fields ->
  marvintuple fok name fields results
  = Ok {| cls_name := name; cls_fields := fields; cls_results := results |}.
Proof.
  intros Hok Hnd Htake.
  pose proof (take_drop 4 fields) as Hsplit. rewrite Htake in Hsplit.
  set (rest := drop 4 fields) in *.
  assert (Hfilter : filter (fun col => col ∉ default_fields) fields = rest).
  { rewrite <- Hsplit at 1. rewrite filter_app.
    replace (filter (fun col => col ∉ default_fields) default_fields) with (@nil string)
      by (by vm_compute).
    rewrite app_nil_l. rewrite <- Hsplit in Hnd.
    apply NoDup_app in Hnd as (_ & Hdis & _).
    apply filter_keep_all. intros x Hx Hin. by apply (Hdis x Hin). }
  unfold marvintuple. rewrite Hfilter.
  assert (Hfinal : match rest with [] => default_fields | _ :: _ => default_fields ++ rest end
                   = fields).
  { rewrite <- Hsplit. destruct rest; [by rewrite app_nil_r | done]. }
  rewrite Hfinal. unfold namedtuple. rewrite Hok.
  rewrite bool_decide_eq_true_2 by done. done.
Qed.

Lemma wf_has_plateifu r :
  row_wf fok r = true -> exists v, od_get "plateifu" (_asdict r) = Some v.
Proof.
  intros (_ & _ & Htake & Hlen)%row_wf_inv.
  destruct (od_get "plateifu" (_asdict r)) as [v|] eqn:Hget; [by exists v|].
  apply od_get_None in Hget. rewrite asdict_keys in Hget by done.
  exfalso. apply Hget. rewrite <- (take_drop 4 (cls_fields (row_class r))), Htake.
  apply elem_of_app. left. unfold default_fields. set_solver.
Qed.

End RowFacts.


(** The sum of two rows of one query and one galaxy, cell by cell. *)
Lemma new_add_merged fok (a b : Row) :
  row_wf fok a = true -> row_wf fok b = true ->
  cls_results (row_class a) = cls_results (row_class b) ->
  od_get "plateifu" (_asdict a) = od_get "plateifu" (_asdict b) ->
  new_add fok a b
  = Ok {| row_class :=
            {| cls_name := cls_name (row_class a);
               cls_fields := od_keys (od_update (_asdict a) (_asdict b));
               cls_results := cls_results (row_class a) |};
          row_values := (od_update (_asdict a) (_asdict b)).*2 |}.
Proof.
  intros Ha Hb Hres Hid.
  destruct (wf_has_plateifu fok a Ha) as [pa Hpa].
  destruct (wf_has_plateifu fok b Hb) as [pb Hpb].
  apply row_wf_inv in Ha as (Hoka & Hnda & Htakea & Hlena).
  apply row_wf_inv in Hb as (Hokb & Hndb & Htakeb & Hlenb).
  unfold new_add, cls_release, cls_searchfilter, row_getattr.
  rewrite <- Hres. rewrite !bool_decide_eq_true_2 by done.
  rewrite !andb_false_r. rewrite Hpa, Hpb. cbn [res_bind].
  rewrite Hpa, Hpb in Hid. rewrite bool_decide_eq_true_2 by congruence.
  cbn [negb].
  set (d := od_update (_asdict a) (_asdict b)).
  assert (Hkeys : od_keys d = cls_fields (row_class a)
            ++ filter (fun k => k ∉ cls_fields (row_class a)) (cls_fields (row_class b))).
  { unfold d. rewrite od_keys_update by (by rewrite asdict_keys).
    by rewrite !asdict_keys. }
  assert (Hnd : NoDup (od_keys d)).
  { rewrite Hkeys. apply NoDup_app. split_and!; [done| |by apply NoDup_filter].
    intros x Hx [Hnx _]%list_elem_of_filter. done. }
  rewrite marvintuple_fixed; [|  |done| ].
  - cbn [res_bind]. unfold new_row_kw. cbn [cls_fields].
    replace (forallb (fun k => bool_decide (k ∈ od_keys d)) (od_keys d)) with true.
    2:{ symmetry. apply forallb_forall. intros x Hx%list_elem_of_In.
        by apply bool_decide_eq_true_2. }
    rewrite od_lookup_all by done. done.
  - rewrite Hkeys, forallb_app, Hoka. cbn [andb].
    apply forallb_forall. intros x [_ Hx]%list_elem_of_In%list_elem_of_filter.
    rewrite forallb_forall in Hokb. apply Hokb. by apply list_elem_of_In.
  - rewrite Hkeys. rewrite take_app_le; [done|].
    rewrite <- (take_drop 4 (cls_fields (row_class a))), Htakea. 
    rewrite length_app. simpl. lia.
Qed.

(** C1.  Two well-formed rows built for the same query: when their
    [plateifu] cells differ the addition raises the assertion on plateifus;
    when they agree it returns a row whose fields are the first row's
    fields followed by the second row's new fields, in order, which holds
    the second row's cell for every field of the second row and the first
    row's cell for every other field. *)
Theorem new_add_same_query fok (a b : Row) :
  row_wf fok a = true -> row_wf fok b = true ->
  cls_results (row_class a) = cls_results (row_class b) ->
  (od_get "plateifu" (_asdict a) <> od_get "plateifu" (_asdict b) ->
   new_add fok a b
   = Raise (AssertionError "The plateifus must be the same to add these rows"))
  /\ (od_get "plateifu" (_asdict a) = od_get "plateifu" (_asdict b) ->
      exists r, new_add fok a b = Ok r
        /\ cls_fields (row_class r)
           = cls_fields (row_class a)
             ++ filter (fun f => f ∉ cls_fields (row_class a)) (cls_fields (row_class b))
        /\ length (row_values r) = length (cls_fields (row_class r))
        /\ (forall f v, od_get f (_asdict b) = Some v -> od_get f (_asdict r) = Some v)
        /\ (forall f, f ∉ cls_fields (row_class b) ->
                      od_get f (_asdict r) = od_get f (_asdict a))).
Proof.
  intros Ha Hb Hres. split.
  - intros Hne.
    destruct (wf_has_plateifu fok a Ha) as [pa Hpa].
    destruct (wf_has_plateifu fok b Hb) as [pb Hpb].
    unfold new_add, cls_release, cls_searchfilter, row_getattr.
    rewrite <- Hres. rewrite !bool_decide_eq_true_2 by done.
    rewrite !andb_false_r. rewrite Hpa, Hpb. cbn [res_bind].
    rewrite bool_decide_eq_false_2 by congruence. done.
  - intros Hid. eexists. split; [by apply new_add_merged|].
    apply row_wf_inv in Ha as (_ & _ & _ & Hlena).
    apply row_wf_inv in Hb as (_ & Hndb & _ & Hlenb).
    assert (Hndk : NoDup (od_keys (_asdict b))) by (by rewrite asdict_keys).
    assert (Hdict : forall n res (d : odict),
              _asdict {| row_class := {| cls_name := n; cls_fields := od_keys d;
                                         cls_results := res |};
                         row_values := d.*2 |} = d)
      by (intros; apply zip_fst_snd).
    rewrite !Hdict. cbn [row_class row_values cls_fields].
    split_and!.
    + rewrite od_keys_update by done. by rewrite !asdict_keys.
    + unfold od_keys. by rewrite !length_fmap.
    + intros f v Hf. rewrite od_get_update by done. by rewrite Hf.
    + intros f Hf. rewrite od_get_update by done.
      replace (od_get f (_asdict b)) with (@None value); [done|].
      symmetry. apply od_get_None. by rewrite asdict_keys.
Qed.

(** The rows [{id, a: 1}] and [{id, a: 2, b: 3}] add up to
    [{id, a: 2, b: 3}]. *)
Example new_add_rowA_rowB :
  new_add Demo.identifier_like Demo.rowA Demo.rowB = Ok Demo.rowAB.
Proof. vm_compute. reflexivity. Qed.

(** The same pair through the general statement. *)
Lemma new_add_same_query_witness :
  exists r, new_add Demo.identifier_like Demo.rowA Demo.rowB = Ok r
    /\ cls_fields (row_class r) = default_fields ++ ["a"; "b"]
    /\ od_get "a" (_asdict r) = Some (VInt 2).
Proof.
  destruct (new_add_same_query Demo.identifier_like Demo.rowA Demo.rowB
              eq_refl eq_refl eq_refl) as [_ Hsame].
  destruct (Hsame eq_refl) as (r & Hr & Hfields & _ & Hsecond & _).
  exists r. split; [exact Hr|]. split.
  - rewrite Hfields. reflexivity.
  - apply Hsecond. reflexivity.
Defined.

(** The first row comes from a controller without a release, the second
    from release MPL-4, both for the same search filter and galaxy: the
    addition returns a row, no assertion fails. *)
Lemma new_add_unset_release_combines :
  cls_release (row_class Demo.row_no_release) = None
  /\ cls_release (row_class Demo.row_other_release) = Some "MPL-4"
  /\ exists r, new_add Demo.identifier_like Demo.row_no_release Demo.row_other_release
               = Ok r.
Proof. split; [done|]. split; [done|]. eexists. vm_compute. reflexivity. Qed.

(** The guard of one fingerprint field: the first row's value is
    compared only when it is set. *)
Lemma guard_passes (x y : option string) :
  truthy x = false \/ x = y -> truthy x && negb (bool_decide (x = y)) = false.
Proof.
  intros [Hx | Hxy]; [by rewrite Hx|]. rewrite bool_decide_eq_true_2 by done. apply andb_false_r.
Qed.

(** The sum of two rows whose fingerprints pass the guards. *)
Lemma new_add_merged_guarded fok (a b : Row) :
  row_wf fok a = true -> row_wf fok b = true ->
  truthy (cls_release (row_class a)) = false
  \/ cls_release (row_class a) = cls_release (row_class b) ->
  truthy (cls_searchfilter (row_class a)) = false
  \/ cls_searchfilter (row_class a) = cls_searchfilter (row_class b) ->
  od_get "plateifu" (_asdict a) = od_get "plateifu" (_asdict b) ->
  new_add fok a b
  = Ok {| row_class :=
            {| cls_name := cls_name (row_class a);
               cls_fields := od_keys (od_update (_asdict a) (_asdict b));
               cls_results := cls_results (row_class a) |};
          row_values := (od_update (_asdict a) (_asdict b)).*2 |}.
Proof.
  intros Ha Hb Hrel Hsf Hid.
  destruct (wf_has_plateifu fok a Ha) as [pa Hpa].
  destruct (wf_has_plateifu fok b Hb) as [pb Hpb].
  apply row_wf_inv in Ha as (Hoka & Hnda & Htakea & Hlena).
  apply row_wf_inv in Hb as (Hokb & Hndb & Htakeb & Hlenb).
  unfold new_add, row_getattr.
  rewrite (guard_passes _ _ Hrel), (guard_passes _ _ Hsf).
  rewrite Hpa, Hpb. cbn [res_bind].
  rewrite Hpa, Hpb in Hid. rewrite bool_decide_eq_true_2 by congruence.
  cbn [negb].
  set (d := od_update (_asdict a) (_asdict b)).
  assert (Hkeys : od_keys d = cls_fields (row_class a)
            ++ filter (fun k => k ∉ cls_fields (row_class a)) (cls_fields (row_class b))).
  { unfold d. rewrite od_keys_update by (by rewrite asdict_keys).
    by rewrite !asdict_keys. }
  assert (Hnd : NoDup (od_keys d)).
  { rewrite Hkeys. apply NoDup_app. split_and!; [done| |by apply NoDup_filter].
    intros x Hx [Hnx _]%list_elem_of_filter. done. }
  rewrite marvintuple_fixed; [|  |done| ].
  - cbn [res_bind]. unfold new_row_kw. cbn [cls_fields].
    replace (forallb (fun k => bool_decide (k ∈ od_keys d)) (od_keys d)) with true.
    2:{ symmetry. apply forallb_forall. intros x Hx%list_elem_of_In.
        by apply bool_decide_eq_true_2. }
    rewrite od_lookup_all by done. done.
  - rewrite Hkeys, forallb_app, Hoka. cbn [andb].
    apply forallb_forall. intros x [_ Hx]%list_elem_of_In%list_elem_of_filter.
    rewrite forallb_forall in Hokb. apply Hokb. by apply list_elem_of_In.
  - rewrite Hkeys. rewrite take_app_le; [done|].
    rewrite <- (take_drop 4 (cls_fields (row_class a))), Htakea.
    rewrite length_app. simpl. lia.
Qed.

(** C6, as the code has it.  The addition raises an assertion error when
    the first row's release is set (neither [None] nor empty) and differs
    from the second row's, and when the first row's search filter is set
    and differs from the second row's.  A release or a search filter that
    the first row lacks is not compared: two rows built by the factory
    whose [plateifu] agrees combine whenever each of the two fields is
    unset on the first row or equal on both, whatever the second row
    holds for an unset field; the sum has the first row's query, the
    fields of both rows in order, and the second row's cell for every
    field of the second row. *)
Theorem new_add_checks_set_fingerprint fok (a b : Row) :
  ((truthy (cls_release (row_class a)) = true
    /\ cls_release (row_class a) <> cls_release (row_class b))
   \/ (truthy (cls_searchfilter (row_class a)) = true
       /\ cls_searchfilter (row_class a) <> cls_searchfilter (row_class b)) ->
   exists msg, new_add fok a b = Raise (AssertionError msg))
  /\ (row_wf fok a = true -> row_wf fok b = true ->
      od_get "plateifu" (_asdict a) = od_get "plateifu" (_asdict b) ->
      truthy (cls_release (row_class a)) = false
      \/ cls_release (row_class a) = cls_release (row_class b) ->
      truthy (cls_searchfilter (row_class a)) = false
      \/ cls_searchfilter (row_class a) = cls_searchfilter (row_class b) ->
      exists r, new_add fok a b = Ok r
        /\ cls_results (row_class r) = cls_results (row_class a)
        /\ cls_fields (row_class r)
           = cls_fields (row_class a)
             ++ filter (fun f => f ∉ cls_fields (row_class a)) (cls_fields (row_class b))
        /\ (forall f v, od_get f (_asdict b) = Some v -> od_get f (_asdict r) = Some v)).
Proof.
  split.
  - intros [[Hset Hne]|[Hset Hne]]; unfold new_add.
    + rewrite Hset, bool_decide_eq_false_2 by done. cbn [andb negb]. eauto.
    + destruct (truthy (cls_release (row_class a))
                && negb (bool_decide (cls_release (row_class a)
                                      = cls_release (row_class b)))); [eauto|].
      rewrite Hset, bool_decide_eq_false_2 by done. cbn [andb negb]. eauto.
  - intros Ha Hb Hid Hrel Hsf.
    eexists. split; [by apply new_add_merged_guarded|].
    apply row_wf_inv in Ha as (_ & _ & _ & Hlena).
    apply row_wf_inv in Hb as (_ & Hndb & _ & Hlenb).
    assert (Hndk : NoDup (od_keys (_asdict b))) by (by rewrite asdict_keys).
    cbn [row_class cls_results cls_fields]. split; [done|]. split.
    + rewrite od_keys_update by done. by rewrite !asdict_keys.
    + intros f v Hf.
      match goal with |- od_get f (_asdict ?r) = _ =>
        replace (_asdict r) with (od_update (_asdict a) (_asdict b))
          by (symmetry; apply zip_fst_snd)
      end.
      rewrite od_get_update by done. by rewrite Hf.
Qed.

(** A row of release MPL-5 does not add to a row of release MPL-4; a row
    without a release does. *)
Lemma new_add_checks_set_fingerprint_witness :
  (exists msg, new_add Demo.identifier_like Demo.rowA Demo.row_other_release
               = Raise (AssertionError msg))
  /\ (exists r, new_add Demo.identifier_like Demo.row_no_release Demo.row_other_release
                = Ok r
       /\ cls_results (row_class r) = cls_results (row_class Demo.row_no_release)).
Proof.
  split.
  - destruct (new_add_checks_set_fingerprint Demo.identifier_like Demo.rowA
                Demo.row_other_release) as [Hraise _].
    apply Hraise. left. split; [reflexivity|discriminate].
  - destruct (new_add_checks_set_fingerprint Demo.identifier_like Demo.row_no_release
                Demo.row_other_release) as [_ Hsum].
    destruct Hsum as (r & Hr & Hres & _);
      [reflexivity|reflexivity|reflexivity|left; reflexivity|right; reflexivity|].
    exists r. split; [exact Hr|exact Hres].
Defined.

(** C3.  With more than 500,000 rows in total, or more than 25 columns,
    [getAll] raises [MarvinUserWarning] before it assigns anything: the
    controller, its buffer included, is left as it was. *)
Theorem getAll_refuses_oversized env (s : Results) :
  totalcount s > 500000 \/ Z.of_nat (length (columns s)) > 25 ->
  getAll env s = (Raise (MarvinUserWarning msg_too_large), s, []).
Proof.
  intros Hbig. unfold getAll, mbind, M_bind, get.
  replace (bool_decide (totalcount s > 500000)
           || bool_decide (Z.of_nat (length (columns s)) > 25)) with true; [done|].
  symmetry. apply orb_true_iff. destruct Hbig; [left|right]; by apply bool_decide_eq_true_2.
Qed.

(** The controller with 600,000 rows in total. *)
Lemma getAll_refuses_oversized_witness :
  getAll Demo.env_up Demo.huge_ctl
  = (Raise (MarvinUserWarning msg_too_large), Demo.huge_ctl, []).
Proof. apply getAll_refuses_oversized. left. vm_compute. reflexivity. Defined.


(** ** Running method bodies *)

Lemma run_bind {S A B} (m : M S A) (k : A -> M S B) (s : S) :
  (m ≫= k) s
  = match m s with
    | (Ok a, s', w) => let '(r, s'', w') := k a s' in (r, s'', w ++ w')
    | (Raise e, s', w) => (Raise e, s', w)
    end.
Proof. reflexivity. Qed.

Lemma check_chunk_negative (s : Results) k :
  k < 0 -> check_chunk (Some k) s = (Ok (Some (chunk s)), s, [ChunkNegative (chunk s)]).
Proof.
  intros Hk. unfold check_chunk. rewrite run_bind. cbn [get ztruthy default].
  rewrite bool_decide_eq_true_2 by done.
  destruct (Z.eqb_spec k 0); [lia|]. reflexivity.
Qed.

Lemma check_chunk_kept (s : Results) c :
  ztruthy c && bool_decide (default 0 c < 0) = false -> check_chunk c s = (Ok c, s, []).
Proof. intros Hc. unfold check_chunk. rewrite run_bind. cbn [get]. by rewrite Hc. Qed.

Lemma store_chunk_run (s : Results) c :
  store_chunk c s
  = (Ok tt, set_chunk (if ztruthy c then default 0 c else chunk s) s, []).
Proof. reflexivity. Qed.

Lemma store_chunk_fallback (s : Results) :
  store_chunk (Some (chunk s)) s = store_chunk None s.
Proof. rewrite !store_chunk_run. by destruct (ztruthy (Some (chunk s))). Qed.


(** ** What a fetch leaves alone *)

Lemma fetch_only_ret {A} (a : A) : fetch_only (mret a).
Proof. intros s. reflexivity. Qed.

Lemma fetch_only_raise {A} e : fetch_only (@raise Results A e).
Proof. intros s. reflexivity. Qed.

Lemma fetch_only_lift {A} (r : res A) : fetch_only (lift r).
Proof. intros s. reflexivity. Qed.

Lemma fetch_only_get : fetch_only get.
Proof. intros s. reflexivity. Qed.

Lemma fetch_only_modify (f : Results -> Results) :
  (forall s, beside_fetch (f s) = beside_fetch s) -> fetch_only (modify f).
Proof. intros Hf s. apply Hf. Qed.

Lemma fetch_only_bind {A B} (m : M Results A) (k : A -> M Results B) :
  fetch_only m -> (forall a, fetch_only (k a)) -> fetch_only (m ≫= k).
Proof.
  intros Hm Hk s. rewrite run_bind. specialize (Hm s).
  destruct (m s) as [[[a|e] s1] w1]; cbn [final fst snd] in *; [|done].
  specialize (Hk a s1). destruct (k a s1) as [[r2 s2] w2]; cbn [final fst snd] in *.
  congruence.
Qed.

Ltac fetch_only_step :=
  first [ apply fetch_only_ret | apply fetch_only_raise | apply fetch_only_lift
        | apply fetch_only_get
        | apply fetch_only_modify; intros ?; reflexivity
        | apply fetch_only_bind; [|intros ?] ].

Lemma fetch_only_getColumns env : fetch_only (getColumns env).
Proof.
  unfold getColumns. fetch_only_step; [fetch_only_step|].
  destruct (_params a); [|fetch_only_step].
  destruct (parameter_group env l); repeat fetch_only_step.
Qed.

Lemma fetch_only_makeNamedTuple env index : fetch_only (_makeNamedTuple env index).
Proof.
  unfold _makeNamedTuple.
  apply fetch_only_bind; [apply fetch_only_getColumns|intros ?].
  repeat fetch_only_step.
Qed.

Lemma fetch_only_interaction env url params calltype nt index :
  fetch_only (_interaction env url params calltype nt index).
Proof.
  unfold _interaction.
  match goal with |- context [interaction env url ?p] => destruct (interaction env url p) end;
    [|fetch_only_step].
  do 3 (apply fetch_only_bind; [fetch_only_step|intros ?]).
  destruct nt; [|fetch_only_step].
  apply fetch_only_bind; [fetch_only_step|intros ?].
  apply fetch_only_bind; [apply fetch_only_makeNamedTuple|intros ?].
  fetch_only_step.
Qed.

(** Fetching a chunk assigns the buffer, the columns, the count and the
    timings, nothing else. *)
Lemma fetch_only_grab_chunk env calltype a b : fetch_only (grab_chunk env calltype a b).
Proof.
  unfold grab_chunk. apply fetch_only_bind; [fetch_only_step|intros s].
  destruct (mode s).
  - destruct (query s); [fetch_only_step|fetch_only_step|].
    apply fetch_only_bind; [fetch_only_step|intros ?].
    apply fetch_only_bind; [fetch_only_step|intros s1].
    destruct (buffer_nonempty (results s1)); [apply fetch_only_makeNamedTuple|fetch_only_step].
  - destruct (urlmap env); [|fetch_only_step].
    apply fetch_only_bind; [apply fetch_only_interaction|intros ?]. fetch_only_step.
  - fetch_only_step.
Qed.


(** ** Paging forward and back *)

Lemma beside_fetch_inv s s' :
  beside_fetch s' = beside_fetch s ->
  totalcount s' = totalcount s /\ chunk s' = chunk s /\ start s' = start s
  /\ end_ s' = end_ s /\ returntype s' = returntype s /\ mode s' = mode s.
Proof. unfold beside_fetch. intros [= ]. done. Qed.

Lemma check_chunk_run (s : Results) c :
  exists c' w, check_chunk c s = (Ok c', s, w)
    /\ (if ztruthy c' then default 0 c' else chunk s) = stepping_chunk s c.
Proof.
  destruct c as [k|].
  - destruct (decide (k < 0)) as [Hk|Hk].
    + eexists _, _. split; [by apply check_chunk_negative|].
      cbn [stepping_chunk]. rewrite bool_decide_eq_false_2 by lia.
      by destruct (ztruthy (Some (chunk s))).
    + eexists _, _. split.
      * apply check_chunk_kept. cbn [default].
        rewrite (bool_decide_eq_false_2 (k < 0)) by done. apply andb_false_r.
      * cbn [ztruthy default stepping_chunk].
        destruct (Z.eqb_spec k 0) as [->|Hz]; cbn [negb].
        -- by rewrite bool_decide_eq_false_2 by lia.
        -- by rewrite bool_decide_eq_true_2 by lia.
  - eexists _, _. split; [by apply check_chunk_kept|]. done.
Qed.

(** Where a returning [getNext] leaves the window. *)
Lemma getNext_ok env c s r s' w :
  getNext env c s = (Ok r, s', w) ->
  chunk s' = stepping_chunk s c /\ totalcount s' = totalcount s
  /\ ((totalcount s = count s /\ start s' = start s /\ end_ s' = end_ s
       /\ count s' = count s)
      \/ (totalcount s <> count s /\ start s' = end_ s
          /\ end_ s' = Z.min (end_ s + stepping_chunk s c) (totalcount s))).
Proof.
  unfold getNext. rewrite run_bind.
  destruct (check_chunk_run s c) as (c' & w0 & -> & Hstep).
  rewrite run_bind. cbn [get]. rewrite run_bind, store_chunk_run, Hstep.
  set (s1 := set_chunk (stepping_chunk s c) s).
  rewrite run_bind. cbn [get].
  destruct (decide (totalcount s1 = count s1)) as [Hall|Hmore].
  - cbn. intros [= <- <- <-]. cbn. split_and!; try done. left. done.
  - change (totalcount s1) with (totalcount s) in *.
    change (count s1) with (count s) in *.
    change (chunk s1) with (stepping_chunk s c).
    change (end_ s1) with (end_ s).
    rewrite run_bind.
    set (bounds := if decide (end_ s + stepping_chunk s c > totalcount s)
                   then (end_ s, totalcount s)
                   else (end_ s, end_ s + stepping_chunk s c)).
    assert (Hb : exists wb,
      (if decide (end_ s + stepping_chunk s c > totalcount s)
       then warn ReachedEnd ≫= (fun _ => mret (end_ s, totalcount s))
       else mret (end_ s, end_ s + stepping_chunk s c)) s1 = (Ok bounds, s1, wb)).
    { unfold bounds. destruct (decide _); eexists; reflexivity. }
    destruct Hb as [wb ->].
    assert (Hbounds : bounds = (end_ s, Z.min (end_ s + stepping_chunk s c) (totalcount s))).
    { unfold bounds. destruct (decide _); f_equal; lia. }
    rewrite Hbounds. clear bounds Hbounds.
    rewrite run_bind.
    pose proof (fetch_only_grab_chunk env "getNext" (end_ s)
                  (Z.min (end_ s + stepping_chunk s c) (totalcount s)) s1) as Hframe.
    destruct (grab_chunk env "getNext" _ _ s1) as [[[[]|e] sg] wg];
      cbn [final fst snd] in Hframe; [|cbn; discriminate].
    apply beside_fetch_inv in Hframe as (Htot & Hchunk & _ & _ & Hrt & _).
    unfold reconvert, mbind, M_bind, mret, M_ret, modify, get, raise. cbn.
    destruct (truthy (returntype sg)); cbn; [discriminate|].
    intros [= <- <- <-]. cbn. split_and!; [done|done|]. right. done.
Qed.

(** Where a returning [getPrevious] leaves the window. *)
Lemma getPrevious_ok env c s r s' w :
  getPrevious env c s = (Ok r, s', w) ->
  chunk s' = stepping_chunk s c /\ totalcount s' = totalcount s
  /\ ((totalcount s = count s /\ start s' = start s /\ end_ s' = end_ s
       /\ count s' = count s)
      \/ (totalcount s <> count s /\ end_ s' = start s
          /\ start s' = Z.max 0 (start s - stepping_chunk s c))).
Proof.
  unfold getPrevious. rewrite run_bind.
  destruct (check_chunk_run s c) as (c' & w0 & -> & Hstep).
  rewrite run_bind. cbn [get]. rewrite run_bind, store_chunk_run, Hstep.
  set (s1 := set_chunk (stepping_chunk s c) s).
  rewrite run_bind. cbn [get].
  destruct (decide (totalcount s1 = count s1)) as [Hall|Hmore].
  - cbn. intros [= <- <- <-]. cbn. split_and!; try done. left. done.
  - change (totalcount s1) with (totalcount s) in *.
    change (count s1) with (count s) in *.
    change (chunk s1) with (stepping_chunk s c).
    change (start s1) with (start s).
    rewrite run_bind.
    set (bounds := if decide (start s - stepping_chunk s c < 0)
                   then (0, start s)
                   else (start s - stepping_chunk s c, start s)).
    assert (Hb : exists wb,
      (if decide (start s - stepping_chunk s c < 0)
       then warn ReachedBeginning ≫= (fun _ => mret (0, start s))
       else mret (start s - stepping_chunk s c, start s)) s1 = (Ok bounds, s1, wb)).
    { unfold bounds. destruct (decide _); eexists; reflexivity. }
    destruct Hb as [wb ->].
    assert (Hbounds : bounds = (Z.max 0 (start s - stepping_chunk s c), start s)).
    { unfold bounds. destruct (decide _); f_equal; lia. }
    rewrite Hbounds. clear bounds Hbounds.
    rewrite run_bind.
    pose proof (fetch_only_grab_chunk env "getPrevious"
                  (Z.max 0 (start s - stepping_chunk s c)) (start s) s1) as Hframe.
    destruct (grab_chunk env "getPrevious" _ _ s1) as [[[[]|e] sg] wg];
      cbn [final fst snd] in Hframe; [|cbn; discriminate].
    apply beside_fetch_inv in Hframe as (Htot & Hchunk & _ & _ & Hrt & _).
    unfold reconvert, mbind, M_bind, mret, M_ret, modify, get, raise. cbn.
    destruct (truthy (returntype sg)); cbn; [discriminate|].
    intros [= <- <- <-]. cbn. split_and!; [done|done|]. right. done.
Qed.

Lemma stepping_chunk_again s s1 c :
  chunk s1 = stepping_chunk s c -> stepping_chunk s1 c = stepping_chunk s c.
Proof.
  intros Hc. destruct c as [k|]; cbn [stepping_chunk] in *; [|done].
  destruct (bool_decide (0 < k)); done.
Qed.

(** C4, as the code has it.  When [getNext] and then [getPrevious], called
    with the same chunk argument, both return, and the second call is not
    stopped by "You have all the results" unless the first was, then [end]
    is back at its value before the pair, and [start] is back at its value
    exactly when the first call was stopped that way or the window started
    one chunk before its end, at 0 at least. *)
Theorem next_then_previous_restores_window env c s r1 s1 w1 r2 s2 w2 :
  getNext env c s = (Ok r1, s1, w1) ->
  getPrevious env c s1 = (Ok r2, s2, w2) ->
  totalcount s = count s \/ totalcount s1 <> count s1 ->
  end_ s2 = end_ s
  /\ (start s2 = start s
      <-> totalcount s = count s
          \/ start s = Z.max 0 (end_ s - stepping_chunk s c)).
Proof.
  intros Hnext Hprev Hmoves.
  apply getNext_ok in Hnext as (Hchunk1 & Htot1 & Hn).
  apply getPrevious_ok in Hprev as (_ & _ & Hp).
  rewrite (stepping_chunk_again s s1 c Hchunk1) in Hp.
  destruct Hn as [(Hall & Hs1 & He1 & Hc1)|(Hmore & Hs1 & He1)].
  - destruct Hp as [(_ & Hs2 & He2 & _)|(Hne & _)].
    + split; [congruence|]. split; [by left|congruence].
    + exfalso. apply Hne. congruence.
  - destruct Hmoves as [Hall|Hmore1]; [done|].
    destruct Hp as [(Hall1 & _)|(_ & He2 & Hs2)]; [done|].
    split; [congruence|]. rewrite Hs2, Hs1. split.
    + intros Hback. right. lia.
    + intros [Hall|Hstart]; [done|]. lia.
Qed.

(** From the narrow first page 0..3 with chunk size 5: forward to rows
    3..7, back to rows 0..3. *)
Lemma next_then_previous_restores_window_witness :
  let s1 := final (getNext Demo.env_up (Some 5) narrow_ctl) in
  let s2 := final (getPrevious Demo.env_up (Some 5) s1) in
  (start narrow_ctl, end_ narrow_ctl) = (0, 3)
  /\ (start s1, end_ s1) = (3, 7)
  /\ start s2 = start narrow_ctl /\ end_ s2 = end_ narrow_ctl.
Proof.
  intros s1 s2.
  destruct (next_then_previous_restores_window Demo.env_up (Some 5) narrow_ctl
              (results s1) s1 [ReachedEnd] (results s2) s2 [ReachedBeginning])
    as [Hend Hstart].
  - vm_compute. reflexivity.
  - vm_compute. reflexivity.
  - right. vm_compute. discriminate.
  - split; [vm_compute; reflexivity|]. split; [vm_compute; reflexivity|].
    split; [|exact Hend]. apply Hstart. right. vm_compute. reflexivity.
Defined.

(** From the last page, rows 5..7 with chunk size 5: [getNext] moves to the
    empty window 7..7 and [getPrevious] then to 2..7, not back to 5..7. *)
Lemma next_then_previous_from_short_page :
  exists r1 s1 w1 r2 s2 w2,
    getNext Demo.env_up None Demo.last_page_ctl = (Ok r1, s1, w1)
    /\ getPrevious Demo.env_up None s1 = (Ok r2, s2, w2)
    /\ (start Demo.last_page_ctl, end_ Demo.last_page_ctl) = (5, 7)
    /\ (start s2, end_ s2) = (2, 7).
Proof.
  do 6 eexists. split; [vm_compute; reflexivity|].
  split; [vm_compute; reflexivity|]. split; vm_compute; reflexivity.
Qed.


(** However it ends, a paging call leaves the chunk size it stepped with. *)
Lemma getNext_chunk env c s :
  chunk (final (getNext env c s)) = stepping_chunk s c.
Proof.
  unfold getNext. rewrite run_bind.
  destruct (check_chunk_run s c) as (c' & w0 & -> & Hstep).
  rewrite run_bind. cbn [get]. rewrite run_bind, store_chunk_run, Hstep.
  set (s1 := set_chunk (stepping_chunk s c) s).
  rewrite run_bind. cbn [get].
  destruct (decide (totalcount s1 = count s1)) as [Hall|Hmore]; [done|].
  rewrite run_bind.
  match goal with
  | |- context [(if ?d then ?x else ?y) s1] =>
      assert (Hb : exists p wb, (if d then x else y) s1 = (Ok p, s1, wb))
        by (destruct d; eexists _, _; reflexivity)
  end.
  destruct Hb as ([ns ne] & wb & ->).
  rewrite run_bind.
  pose proof (fetch_only_grab_chunk env "getNext" ns ne s1) as Hframe.
  destruct (grab_chunk env "getNext" ns ne s1) as [[[[]|e] sg] wg];
    cbn [final fst snd] in Hframe;
    apply beside_fetch_inv in Hframe as (_ & Hchunk & _);
    [|cbn; done].
  unfold reconvert, mbind, M_bind, mret, M_ret, modify, get, raise. cbn.
  destruct (truthy (returntype sg)); cbn; done.
Qed.

Lemma getPrevious_chunk env c s :
  chunk (final (getPrevious env c s)) = stepping_chunk s c.
Proof.
  unfold getPrevious. rewrite run_bind.
  destruct (check_chunk_run s c) as (c' & w0 & -> & Hstep).
  rewrite run_bind. cbn [get]. rewrite run_bind, store_chunk_run, Hstep.
  set (s1 := set_chunk (stepping_chunk s c) s).
  rewrite run_bind. cbn [get].
  destruct (decide (totalcount s1 = count s1)) as [Hall|Hmore]; [done|].
  rewrite run_bind.
  match goal with
  | |- context [(if ?d then ?x else ?y) s1] =>
      assert (Hb : exists p wb, (if d then x else y) s1 = (Ok p, s1, wb))
        by (destruct d; eexists _, _; reflexivity)
  end.
  destruct Hb as ([ns ne] & wb & ->).
  rewrite run_bind.
  pose proof (fetch_only_grab_chunk env "getPrevious" ns ne s1) as Hframe.
  destruct (grab_chunk env "getPrevious" ns ne s1) as [[[[]|e] sg] wg];
    cbn [final fst snd] in Hframe;
    apply beside_fetch_inv in Hframe as (_ & Hchunk & _);
    [|cbn; done].
  unfold reconvert, mbind, M_bind, mret, M_ret, modify, get, raise. cbn.
  destruct (truthy (returntype sg)); cbn; done.
Qed.

Lemma stepping_chunk_negative s k : k < 0 -> stepping_chunk s (Some k) = chunk s.
Proof. intros Hk. cbn [stepping_chunk]. by rewrite bool_decide_eq_false_2 by lia. Qed.

(** A refused merge leaves the controller as it was. *)
Lemma merge_subsets_raise_keeps subsets s e s' w :
  merge_subsets subsets s = (Raise e, s', w) -> s' = s.
Proof.
  unfold merge_subsets.
  destruct (negb (forallb is_list subsets)); [by intros [= _ <- _]|].
  rewrite run_bind.
  destruct (res_mapM first_row subsets) as [firsts|e0]; cbn [lift]; [|by intros [= _ <- _]].
  rewrite run_bind. cbn [lift]. rewrite run_bind. cbn [get].
  destruct (forallb _ firsts); [|by intros [= _ <- _]].
  destruct (forallb _ firsts); [|by intros [= _ <- _]].
  cbn. discriminate.
Qed.

(** An accepted merge replaces the buffer by the subsets in input order. *)
Lemma merge_subsets_ok subsets s b s' w :
  merge_subsets subsets s = (Ok b, s', w) ->
  b = Plain (Named <$> concat (subset_rows <$> subsets))
  /\ results s' = b
  /\ count s' = Z.of_nat (length (concat (subset_rows <$> subsets))).
Proof.
  unfold merge_subsets.
  destruct (negb (forallb is_list subsets)); [discriminate|].
  rewrite run_bind.
  destruct (res_mapM first_row subsets) as [firsts|e0]; cbn [lift]; [|discriminate].
  rewrite run_bind. cbn [lift]. rewrite run_bind. cbn [get].
  destruct (forallb _ firsts); [|discriminate].
  destruct (forallb _ firsts); [|discriminate].
  cbn. intros [= <- <- _]. cbn. split_and!; [done|done|].
  unfold buffer_len. cbn. by rewrite length_fmap.
Qed.

Lemma first_rows_raise subsets e :
  res_mapM first_row subsets = Raise e -> e = IndexError.
Proof.
  induction subsets as [|a subsets IH]; cbn [res_mapM]; [discriminate|].
  unfold first_row at 1. destruct (subset_rows a); cbn [res_bind]; [by intros [= <-]|].
  destruct (res_mapM first_row subsets); cbn [res_bind]; [discriminate|].
  intros [= <-]. by apply IH.
Qed.

(** For rows with at least one column the "Column number mismatch" error is
    never raised. *)
Lemma merge_subsets_never_counts subsets s :
  Forall (fun a => Forall (fun r => row_values r <> []) (subset_rows a)) subsets ->
  outcome (merge_subsets subsets s) <> Raise (MarvinUserWarning msg_column_number).
Proof.
  intros Hrows. unfold merge_subsets.
  destruct (negb (forallb is_list subsets)); [discriminate|].
  rewrite run_bind.
  destruct (res_mapM first_row subsets) as [firsts|e0] eqn:Hfirsts; cbn [lift].
  2:{ apply first_rows_raise in Hfirsts as ->. cbn. discriminate. }
  assert (Hnonempty : forallb (fun r => negb (Z.of_nat (length (row_values r)) =? 0)) firsts
                      = true).
  { clear s. revert firsts Hfirsts.
    induction Hrows as [|a subsets Ha Hrows IH]; intros firsts; cbn [res_mapM].
    - by intros [= <-].
    - unfold first_row at 1.
      destruct (subset_rows a) as [|r rows]; cbn [res_bind]; [discriminate|].
      destruct (res_mapM first_row subsets) as [rest|]; cbn [res_bind]; [|discriminate].
      intros [= <-]. cbn [forallb]. rewrite (IH rest eq_refl), andb_true_r.
      apply Forall_cons in Ha as [Hr _]. destruct (row_values r); [done|]. done. }
  rewrite run_bind. cbn [lift]. rewrite run_bind. cbn [get]. rewrite Hnonempty. clear Hnonempty.
  unfold mbind, M_bind, mret, M_ret, modify, get.
  destruct (forallb _ firsts); unfold outcome, raise; cbn [fst snd]; [discriminate|].
  unfold msg_different_columns, msg_column_number. discriminate.
Qed.


(** C8.  A negative [chunk] does not fail [getNext] or [getPrevious]: the
    call issues the warning "Chunk cannot be negative" and then behaves, in
    result and in final state, exactly as the call without a chunk; the
    chunk size is unchanged afterwards; and it steps with the chunk size
    the controller had: unless the buffer holds every row, a returning
    [getNext] leaves the window that starts at the old end and ends one
    old chunk further, at the total count at most, and a returning
    [getPrevious] the window that ends at the old start and starts one old
    chunk before, at 0 at least. *)
Theorem negative_chunk_falls_back env (s : Results) (k : Z) :
  k < 0 ->
  getNext env (Some k) s = also_warned (ChunkNegative (chunk s)) (getNext env None s)
  /\ getPrevious env (Some k) s
     = also_warned (ChunkNegative (chunk s)) (getPrevious env None s)
  /\ chunk (final (getNext env (Some k) s)) = chunk s
  /\ chunk (final (getPrevious env (Some k) s)) = chunk s
  /\ (forall b s' w, totalcount s <> count s ->
        getNext env (Some k) s = (Ok b, s', w) ->
        start s' = end_ s
        /\ end_ s' = Z.min (end_ s + chunk s) (totalcount s)
        /\ ChunkNegative (chunk s) ∈ w)
  /\ (forall b s' w, totalcount s <> count s ->
        getPrevious env (Some k) s = (Ok b, s', w) ->
        end_ s' = start s
        /\ start s' = Z.max 0 (start s - chunk s)
        /\ ChunkNegative (chunk s) ∈ w).
Proof.
  intros Hk.
  assert (Hnext : getNext env (Some k) s
                  = also_warned (ChunkNegative (chunk s)) (getNext env None s)).
  { unfold getNext. rewrite !(run_bind (check_chunk _)).
    rewrite check_chunk_negative, check_chunk_kept by done.
    rewrite !(run_bind get). cbn [get].
    rewrite !(run_bind (store_chunk _)). rewrite store_chunk_fallback.
    rewrite store_chunk_run. cbn [ztruthy].
    match goal with
    | |- context [(get ≫= ?K) ?s1] => destruct ((get ≫= K) s1) as [[r2 s2] w2]
    end.
    reflexivity. }
  assert (Hprev : getPrevious env (Some k) s
                  = also_warned (ChunkNegative (chunk s)) (getPrevious env None s)).
  { unfold getPrevious. rewrite !(run_bind (check_chunk _)).
    rewrite check_chunk_negative, check_chunk_kept by done.
    rewrite !(run_bind get). cbn [get].
    rewrite !(run_bind (store_chunk _)). rewrite store_chunk_fallback.
    rewrite store_chunk_run. cbn [ztruthy].
    match goal with
    | |- context [(get ≫= ?K) ?s1] => destruct ((get ≫= K) s1) as [[r2 s2] w2]
    end.
    reflexivity. }
  split_and!; [exact Hnext|exact Hprev| | | |].
  - rewrite getNext_chunk. by apply stepping_chunk_negative.
  - rewrite getPrevious_chunk. by apply stepping_chunk_negative.
  - intros b s' w Hmore Hrun.
    assert (Hw : ChunkNegative (chunk s) ∈ w).
    { rewrite Hnext in Hrun. unfold also_warned in Hrun. injection Hrun as _ _ <-.
      apply list_elem_of_here. }
    apply getNext_ok in Hrun as (_ & _ & [[Hall _]|(_ & Hs & He)]); [done|].
    rewrite stepping_chunk_negative in He by done. done.
  - intros b s' w Hmore Hrun.
    assert (Hw : ChunkNegative (chunk s) ∈ w).
    { rewrite Hprev in Hrun. unfold also_warned in Hrun. injection Hrun as _ _ <-.
      apply list_elem_of_here. }
    apply getPrevious_ok in Hrun as (_ & _ & [[Hall _]|(_ & He & Hs)]); [done|].
    rewrite stepping_chunk_negative in Hs by done. done.
Qed.

(** [getNext(chunk=-5)] on the first page of five out of seven rows warns
    and steps with chunk size 5, to the rows 5..7. *)
Lemma negative_chunk_falls_back_witness :
  let o := getNext Demo.env_up (Some (-5)) Demo.local_ctl in
  o = also_warned (ChunkNegative 5) (getNext Demo.env_up None Demo.local_ctl)
  /\ chunk (final o) = 5
  /\ start (final o) = end_ Demo.local_ctl
  /\ end_ (final o) = Z.min (end_ Demo.local_ctl + chunk Demo.local_ctl)
                             (totalcount Demo.local_ctl).
Proof.
  intros o.
  destruct (negative_chunk_falls_back Demo.env_up Demo.local_ctl (-5))
    as (Hnext & _ & Hchunk & _ & Hstep & _); [lia|].
  split; [exact Hnext|]. split; [exact Hchunk|].
  destruct (Hstep (results (final o)) (final o) (warned o)) as (Hstart & Hend & _).
  - vm_compute. discriminate.
  - vm_compute. reflexivity.
  - split; [exact Hstart|exact Hend].
Defined.

(** ** The service out of reach *)

Lemma interaction_down env url params calltype nt index s :
  (forall url rq, interaction env url rq = None) ->
  exists msg, _interaction env url params calltype nt index s
              = (Raise (MarvinError msg), s, []).
Proof.
  intros Hdown. unfold _interaction. rewrite Hdown. eexists. reflexivity.
Qed.

Lemma grab_chunk_unreachable env calltype a b s :
  mode s = remote -> unreachable env ->
  exists msg, grab_chunk env calltype a b s = (Raise (MarvinError msg), s, []).
Proof.
  intros Hmode Hun. unfold grab_chunk. rewrite run_bind. cbn [get]. rewrite Hmode.
  destruct (urlmap env) as [um|] eqn:Hum.
  - destruct Hun as [Hno|Hdown]; [congruence|].
    destruct (interaction_down env (url_getsubset um) (subset_request s a b)
                calltype true (Some a) s Hdown) as [msg Hi].
    rewrite run_bind, Hi. eexists. reflexivity.
  - eexists. reflexivity.
Qed.

Lemma getNext_unreachable env c s :
  mode s = remote -> unreachable env -> totalcount s <> count s ->
  (exists msg, outcome (getNext env c s) = Raise (MarvinError msg))
  /\ final (getNext env c s) = set_chunk (stepping_chunk s c) s.
Proof.
  intros Hmode Hun Hmore. unfold getNext. rewrite run_bind.
  destruct (check_chunk_run s c) as (c' & w0 & -> & Hstep).
  rewrite run_bind. cbn [get]. rewrite run_bind, store_chunk_run, Hstep.
  set (s1 := set_chunk (stepping_chunk s c) s).
  rewrite run_bind. cbn [get].
  destruct (decide (totalcount s1 = count s1)) as [Hall|_]; [done|].
  rewrite run_bind.
  match goal with
  | |- context [(if ?d then ?x else ?y) s1] =>
      assert (Hb : exists p wb, (if d then x else y) s1 = (Ok p, s1, wb))
        by (destruct d; eexists _, _; reflexivity)
  end.
  destruct Hb as ([ns ne] & wb & ->).
  rewrite run_bind.
  destruct (grab_chunk_unreachable env "getNext" ns ne s1 Hmode Hun) as [msg ->].
  cbn. eauto.
Qed.

Lemma getPrevious_unreachable env c s :
  mode s = remote -> unreachable env -> totalcount s <> count s ->
  (exists msg, outcome (getPrevious env c s) = Raise (MarvinError msg))
  /\ final (getPrevious env c s) = set_chunk (stepping_chunk s c) s.
Proof.
  intros Hmode Hun Hmore. unfold getPrevious. rewrite run_bind.
  destruct (check_chunk_run s c) as (c' & w0 & -> & Hstep).
  rewrite run_bind. cbn [get]. rewrite run_bind, store_chunk_run, Hstep.
  set (s1 := set_chunk (stepping_chunk s c) s).
  rewrite run_bind. cbn [get].
  destruct (decide (totalcount s1 = count s1)) as [Hall|_]; [done|].
  rewrite run_bind.
  match goal with
  | |- context [(if ?d then ?x else ?y) s1] =>
      assert (Hb : exists p wb, (if d then x else y) s1 = (Ok p, s1, wb))
        by (destruct d; eexists _, _; reflexivity)
  end.
  destruct Hb as ([ns ne] & wb & ->).
  rewrite run_bind.
  destruct (grab_chunk_unreachable env "getPrevious" ns ne s1 Hmode Hun) as [msg ->].
  cbn. eauto.
Qed.

Lemma subset_limit_run (s : Results) limit_arg :
  exists wl,
    (if decide ((if ztruthy limit_arg then default 0 limit_arg else chunk s) < 0)
     then warn (LimitNegative (chunk s)) ≫= (fun _ => mret (chunk s))
     else mret (if ztruthy limit_arg then default 0 limit_arg else chunk s)) s
    = (Ok (subset_limit s limit_arg), s, wl).
Proof.
  destruct limit_arg as [l|]; cbn [ztruthy subset_limit]; cbn.
  - destruct (Z.eqb_spec l 0) as [->|Hl]; cbn [negb].
    + rewrite bool_decide_eq_false_2 by lia. destruct (decide _); eexists; reflexivity.
    + destruct (decide (l < 0)).
      * rewrite bool_decide_eq_false_2 by lia. eexists; reflexivity.
      * rewrite bool_decide_eq_true_2 by lia. eexists; reflexivity.
  - destruct (decide _); eexists; reflexivity.
Qed.

(** However it ends, [getSubset] leaves the window at the requested start,
    clamped at zero, with the end one limit further and not clamped to the
    total count; the limit is the argument when positive and the previous
    chunk size otherwise. *)
Lemma getSubset_cursor env start_arg limit_arg s :
  let s' := final (getSubset env start_arg limit_arg s) in
  start s' = Z.max 0 start_arg
  /\ end_ s' = Z.max 0 start_arg + subset_limit s limit_arg
  /\ chunk s' = subset_limit s limit_arg.
Proof.
  unfold getSubset. rewrite run_bind. cbn [get]. rewrite run_bind.
  destruct (subset_limit_run s limit_arg) as [wl ->].
  replace (if decide (start_arg < 0) then 0 else start_arg) with (Z.max 0 start_arg)
    by (destruct (decide _); lia).
  set (L := subset_limit s limit_arg). set (S0 := Z.max 0 start_arg).
  do 4 (rewrite run_bind; cbn [modify get]).
  set (s1 := set_chunk L (set_end_ (S0 + L) (set_start S0 s))).
  pose proof (fetch_only_grab_chunk env "getSubset" S0 (S0 + L) s1) as Hframe.
  destruct (grab_chunk env "getSubset" _ _ s1) as [[[[]|e] sg] wg];
    cbn [final fst snd] in Hframe;
    apply beside_fetch_inv in Hframe as (_ & Hchunk & Hstart & Hend & _ & _);
    subst s1; cbn in Hchunk, Hstart, Hend; [|cbn; done].
  unfold reconvert, mbind, M_bind, mret, M_ret, modify, get, raise. cbn.
  destruct (truthy (returntype sg)); cbn; done.
Qed.

Lemma getSubset_unreachable env start_arg limit_arg s :
  mode s = remote -> unreachable env ->
  (exists msg, outcome (getSubset env start_arg limit_arg s) = Raise (MarvinError msg))
  /\ final (getSubset env start_arg limit_arg s)
     = set_chunk (subset_limit s limit_arg)
         (set_end_ (Z.max 0 start_arg + subset_limit s limit_arg)
            (set_start (Z.max 0 start_arg) s)).
Proof.
  intros Hmode Hun.
  unfold getSubset. rewrite run_bind. cbn [get]. rewrite run_bind.
  destruct (subset_limit_run s limit_arg) as [wl ->].
  replace (if decide (start_arg < 0) then 0 else start_arg) with (Z.max 0 start_arg)
    by (destruct (decide _); lia).
  set (L := subset_limit s limit_arg). set (S0 := Z.max 0 start_arg).
  do 4 (rewrite run_bind; cbn [modify get]).
  set (s1 := set_chunk L (set_end_ (S0 + L) (set_start S0 s))).
  destruct (grab_chunk_unreachable env "getSubset" S0 (S0 + L) s1 Hmode Hun) as [msg ->].
  cbn. eauto.
Qed.

Lemma sort_unreachable env name order_arg s :
  mode s = remote -> unreachable env ->
  let s' := final (sort env name order_arg s) in
  (exists msg, outcome (sort env name order_arg s) = Raise (MarvinError msg))
  /\ results s' = results s /\ count s' = count s
  /\ start s' = start s /\ end_ s' = end_ s /\ chunk s' = chunk s.
Proof.
  intros Hmode Hun. unfold sort, _check_column. rewrite !run_bind. cbn [get].
  destruct (resolve_column (columns s) name) as [c|]; [|cbn; eauto 10].
  cbn [mret M_ret]. repeat (rewrite run_bind; cbn [modify get]).
  cbn [mode set_order set_sortcol]. rewrite Hmode.
  destruct (urlmap env) as [um|] eqn:Hum.
  - destruct Hun as [Hno|Hdown]; [congruence|].
    rewrite !run_bind.
    match goal with
    | |- context [_interaction env ?u ?p ?ct ?nt ?ix ?s1] =>
        destruct (interaction_down env u p ct nt ix s1 Hdown) as [msg ->]
    end.
    cbn. eauto 10.
  - cbn. eauto 10.
Qed.

Lemma getAll_unreachable env s :
  mode s = remote -> unreachable env ->
  (exists e, outcome (getAll env s) = Raise e) /\ final (getAll env s) = s.
Proof.
  intros Hmode Hun. unfold getAll. rewrite run_bind. cbn [get].
  destruct (_ || _); [cbn; eauto|]. rewrite Hmode.
  destruct (urlmap env) as [um|] eqn:Hum.
  - destruct Hun as [Hno|Hdown]; [congruence|].
    rewrite !run_bind.
    match goal with
    | |- context [_interaction env ?u ?p ?ct ?nt ?ix ?s1] =>
        destruct (interaction_down env u p ct nt ix s1 Hdown) as [msg ->]
    end.
    cbn. eauto.
  - cbn. eauto.
Qed.


(** C7, as the code has it.  In remote mode with the service unreachable,
    every paging call that gets as far as the remote request raises and
    leaves the buffer ([results] and [count]) as it was.  [getNext],
    [getPrevious] and [sort] also leave [start] and [end] as they were,
    and [getAll] leaves the whole controller; but [getNext] and
    [getPrevious] have already stored the chunk size they step with, and
    [getSubset] has already moved [start], [end] and [chunk] to the
    requested window. *)
Theorem unreachable_service_keeps_buffer env (s : Results) :
  mode s = remote -> unreachable env ->
  (forall c, totalcount s <> count s ->
     let o := getNext env c s in
     raises o /\ buffer_kept s (final o) /\ window_kept s (final o)
     /\ chunk (final o) = stepping_chunk s c)
  /\ (forall c, totalcount s <> count s ->
     let o := getPrevious env c s in
     raises o /\ buffer_kept s (final o) /\ window_kept s (final o)
     /\ chunk (final o) = stepping_chunk s c)
  /\ (forall start_arg limit_arg,
     let o := getSubset env start_arg limit_arg s in
     raises o /\ buffer_kept s (final o)
     /\ start (final o) = Z.max 0 start_arg
     /\ end_ (final o) = Z.max 0 start_arg + subset_limit s limit_arg
     /\ chunk (final o) = subset_limit s limit_arg)
  /\ (forall name order_arg,
     let o := sort env name order_arg s in
     raises o /\ buffer_kept s (final o) /\ window_kept s (final o)
     /\ chunk (final o) = chunk s)
  /\ (totalcount s <= 500000 -> Z.of_nat (length (columns s)) <= 25 ->
     let o := getAll env s in
     raises o /\ final o = s).
Proof.
  intros Hmode Hun. unfold raises, buffer_kept, window_kept. split_and!.
  - intros c Hmore.
    destruct (getNext_unreachable env c s Hmode Hun Hmore) as [[msg Ho] ->].
    cbn. eauto 10.
  - intros c Hmore.
    destruct (getPrevious_unreachable env c s Hmode Hun Hmore) as [[msg Ho] ->].
    cbn. eauto 10.
  - intros start_arg limit_arg.
    destruct (getSubset_unreachable env start_arg limit_arg s Hmode Hun) as [[msg Ho] ->].
    cbn. eauto 10.
  - intros name order_arg.
    destruct (sort_unreachable env name order_arg s Hmode Hun)
      as ([msg Ho] & ? & ? & ? & ? & ?).
    eauto 10.
  - intros _ _. destruct (getAll_unreachable env s Hmode Hun) as [[e Ho] ?]. eauto.
Qed.

(** [getSubset(20, 3)] against the unreachable service. *)
Lemma unreachable_service_keeps_buffer_witness :
  let o := getSubset Demo.env_down 20 (Some 3) Demo.remote_ctl in
  raises o /\ buffer_kept Demo.remote_ctl (final o)
  /\ start (final o) = 20 /\ end_ (final o) = 23 /\ chunk (final o) = 3.
Proof.
  destruct (unreachable_service_keeps_buffer Demo.env_down Demo.remote_ctl
              eq_refl (or_intror (fun _ _ => eq_refl)))
    as (_ & _ & Hsubset & _).
  exact (Hsubset 20 (Some 3)).
Defined.

(** [getSubset(20, 3)] fails on the transport, and the controller that had
    the window 0..5 with chunk size 5 is left with 20..23 and chunk size
    3. *)
Lemma getSubset_failure_moves_window :
  let o := getSubset Demo.env_down 20 (Some 3) Demo.remote_ctl in
  outcome o = Raise (MarvinError "API Query getSubset call failed")
  /\ (start Demo.remote_ctl, end_ Demo.remote_ctl, chunk Demo.remote_ctl) = (0, 5, 5)
  /\ (start (final o), end_ (final o), chunk (final o)) = (20, 23, 3).
Proof. vm_compute. done. Qed.

(** C5, at a request past the end.  With seven rows in total,
    [getSubset(10, 5)] in remote mode receives no rows and raises
    [ZeroDivisionError] from [ResultSet]'s page count; the same request in
    local mode, where the rebuilding of rows is guarded by
    [if self.results], returns the empty list. *)
Theorem getSubset_past_end_remote_raises :
  let o := getSubset Demo.env_up 10 (Some 5) Demo.remote_ctl in
  totalcount Demo.remote_ctl = 7
  /\ outcome o = Raise ZeroDivisionError
  /\ outcome (getSubset Demo.env_up 10 (Some 5) Demo.local_ctl) = Ok (Plain []).
Proof. vm_compute. done. Qed.

(** C2, at two subsets of different widths.  The controller has four
    columns; the first subset's rows have four cells and its fields are the
    controller's columns, so that it merges on its own; the second subset's
    rows have five cells.  The test on the number of columns passes all the
    same, and the merge is refused with the "Different named columns"
    error, not with the "Column number mismatch among subsets" one; the
    controller is left as it was. *)
Theorem merge_subsets_widths_not_compared :
  length (row_values rowPlain) = 4%nat
  /\ length (row_values Demo.rowA) = 5%nat
  /\ length (columns Demo.local_ctl) = 4%nat
  /\ outcome (merge_subsets [SubList [rowPlain]] Demo.local_ctl)
     = Ok (Plain [Named rowPlain])
  /\ merge_subsets [SubList [rowPlain]; SubList [Demo.rowA]] Demo.local_ctl
     = (Raise (MarvinUserWarning msg_different_columns), Demo.local_ctl, [])
  /\ msg_different_columns <> msg_column_number.
Proof. vm_compute. split_and!; done. Qed.

(** ** Rows of a local subset *)

Lemma res_mapM_length {A B} (f : A -> res B) l l' :
  res_mapM f l = Ok l' -> length l' = length l.
Proof.
  revert l'. induction l as [|x l IH]; intros l'; cbn [res_mapM].
  - by intros [= <-].
  - destruct (f x); cbn [res_bind]; [|discriminate].
    destruct (res_mapM f l) as [ys|]; cbn [res_bind]; [|discriminate].
    intros [= <-]. cbn. f_equal. by apply IH.
Qed.

Lemma makeNamedTuple_rows env index s u s' w :
  _makeNamedTuple env index s = (Ok u, s', w) ->
  buffer_len (results s') = buffer_len (results s).
Proof.
  unfold _makeNamedTuple, getColumns. rewrite !run_bind. cbn [get].
  destruct (_params s) as [ps|]; [|discriminate].
  destruct (parameter_group env ps) as [cols|]; [|discriminate].
  rewrite run_bind. cbn [modify mret M_ret].
  repeat (rewrite run_bind; cbn [get lift]).
  destruct (marvintuple _ _ _ _) as [nt|]; [|discriminate].
  repeat (rewrite run_bind; cbn [get lift]).
  change (results (set_columns cols s)) with (results s).
  destruct (match results s with
            | Plain l => res_mapM (fun r => new_row nt (item_values r)) l
            | Paged rs => Ok (rs_rows rs)
            end) as [rows|] eqn:Hrows; [|discriminate].
  repeat (rewrite run_bind; cbn [get lift modify]).
  destruct (new_ResultSet _ _ _ _ _) as [rs|] eqn:Hrs; [|discriminate].
  cbn. intros [= _ <- _]. cbn.
  unfold new_ResultSet in Hrs. destruct (decide _); [discriminate|].
  injection Hrs as <-. unfold buffer_len, buffer_items. cbn [rs_rows].
  rewrite length_fmap. f_equal.
  destruct (results s) as [l|rs0].
  - by apply res_mapM_length in Hrows.
  - injection Hrows as <-. by rewrite length_fmap.
Qed.

Lemma grab_chunk_local_rows env calltype a b s q u s' w :
  mode s = local -> query s = QLive q ->
  grab_chunk env calltype a b s = (Ok u, s', w) ->
  buffer_len (results s') = Z.of_nat (length (slice_all env q a b)).
Proof.
  intros Hmode Hq. unfold grab_chunk. rewrite run_bind. cbn [get].
  rewrite Hmode, Hq. repeat (rewrite run_bind; cbn [get modify]).
  set (s1 := set_results _ s).
  assert (Hlen : buffer_len (results s1) = Z.of_nat (length (slice_all env q a b))).
  { unfold buffer_len. cbn. by rewrite length_fmap. }
  destruct (buffer_nonempty (results s1)).
  - destruct (_makeNamedTuple env (Some a) s1) as [[[v|e] s2] w2] eqn:Hnt; [|discriminate].
    apply makeNamedTuple_rows in Hnt. cbn. intros [= _ <- _]. congruence.
  - cbn. intros [= _ <- _]. done.
Qed.

(** A returning local [getSubset] holds exactly the rows the query gives
    for the window. *)
Lemma getSubset_local_rows env start_arg limit_arg s q b s' w :
  mode s = local -> query s = QLive q ->
  getSubset env start_arg limit_arg s = (Ok b, s', w) ->
  b = results s'
  /\ buffer_len b
     = Z.of_nat (length (slice_all env q (Z.max 0 start_arg)
                           (Z.max 0 start_arg + subset_limit s limit_arg))).
Proof.
  intros Hmode Hq.
  unfold getSubset. rewrite run_bind. cbn [get]. rewrite run_bind.
  destruct (subset_limit_run s limit_arg) as [wl ->].
  replace (if decide (start_arg < 0) then 0 else start_arg) with (Z.max 0 start_arg)
    by (destruct (decide _); lia).
  set (L := subset_limit s limit_arg). set (S0 := Z.max 0 start_arg).
  do 4 (rewrite run_bind; cbn [modify get]).
  set (s1 := set_chunk L (set_end_ (S0 + L) (set_start S0 s))).
  destruct (grab_chunk env "getSubset" S0 (S0 + L) s1) as [[[u|e] sg] wg] eqn:Hg;
    [|discriminate].
  apply (grab_chunk_local_rows _ _ _ _ _ q) in Hg; [|done|done].
  unfold reconvert, mbind, M_bind, mret, M_ret, modify, get, raise. cbn.
  destruct (truthy (returntype sg)); cbn; [discriminate|].
  intros [= <- <- _]. cbn. done.
Qed.


(** ** Saving and restoring *)

Section SaveFacts.
Context {Archive : Type}.
Variable os : Storage Archive.
Implicit Types d : gmap string (node Archive).

Lemma save_target_saved_form path s :
  save_target os path (saved_form s) = save_target os path s.
Proof. unfold save_target, saved_form. by destruct (isnotstr (query s)). Qed.

(** [save], case by case. *)
Lemma save_cases path overwrite s d :
  let p := save_target os path s in
  let made := ensure_dir os d (dirname os p) in
  save os path overwrite (s, d)
  = if isdir d p
    then (Raise (MarvinError "path must be a full route, including the filename."),
          (saved_form s, d), [])
    else if exists_path d p && negb overwrite
    then (Ok None, (saved_form s, d), [FileExists])
    else if negb made.2
    then (Raise OSError, (saved_form s, made.1), [])
    else match (if isdir made.1 (dirname os p) then pickle_dump os (saved_form s)
                else None) with
         | Some a => (Ok (Some p), (saved_form s, <[p := File a]> made.1), [])
         | None => (Raise (MarvinError "Error found while pickling"),
                    (saved_form s, delete p made.1), [])
         end.
Proof.
  intros p made. unfold save. rewrite run_bind. cbn [on_self modify fst snd].
  rewrite run_bind. cbn [get fst snd].
  assert (Hq :
    (if isnotstr (query (set_queryobj None s))
     then on_self (modify (set_query QNone)) else mret ()) (set_queryobj None s, d)
    = (Ok tt, (saved_form s, d), [])).
  { unfold saved_form. change (query (set_queryobj None s)) with (query s).
    destruct (isnotstr (query s)); reflexivity. }
  rewrite run_bind, Hq. rewrite run_bind. cbn [get fst snd].
  change (realpath os _) with (save_target os path (saved_form s)).
  rewrite save_target_saved_form. fold p.
  destruct (isdir d p); [reflexivity|].
  destruct (exists_path d p && negb overwrite); [reflexivity|].
  fold made. rewrite run_bind. cbn [on_disk modify fst snd].
  destruct (negb made.2); [reflexivity|].
  rewrite run_bind. cbn [get fst snd].
  destruct (if isdir made.1 (dirname os p) then pickle_dump os (saved_form s) else None)
    as [a|]; reflexivity.
Qed.

(** What [save] does to the controller and, when it returns a path, to
    the disk. *)
Lemma save_run path overwrite s d :
  let o := save os path overwrite (s, d) in
  (final o).1 = saved_form s
  /\ forall p, outcome o = Ok (Some p) ->
       exists a d1, pickle_dump os (saved_form s) = Some a
                    /\ (final o).2 = <[p := File a]> d1.
Proof.
  cbn zeta. rewrite save_cases.
  destruct (isdir d _); [split; [done|discriminate]|].
  destruct (_ && _); [split; [done|discriminate]|].
  destruct (negb _); [split; [done|discriminate]|].
  destruct (isdir _ _); [|split; [done|discriminate]].
  destruct (pickle_dump os (saved_form s)) as [a|]; [|split; [done|discriminate]].
  split; [done|]. intros p [= <-]. by eexists _, _.
Qed.

(** C9, as the code has it.  However [save] ends, it has cleared
    [_queryobj], and a query that was not a literal string has been
    replaced by [None] (a literal string is kept); when [save] returns a
    path, the file at that path holds the pickle of the controller in
    that state. *)
Theorem save_clears_query path overwrite s d :
  let o := save os path overwrite (s, d) in
  _queryobj (final o).1 = None
  /\ query (final o).1 = (if isnotstr (query s) then QNone else query s)
  /\ forall p, outcome o = Ok (Some p) ->
       exists a, pickle_dump os (final o).1 = Some a
                 /\ (final o).2 !! p = Some (File a).
Proof.
  destruct (save_run path overwrite s d) as [Hself Hdisk]. cbn zeta.
  rewrite Hself. split_and!.
  - unfold saved_form. by destruct (isnotstr (query s)).
  - unfold saved_form. by destruct (isnotstr (query s)).
  - intros p Hp. destruct (Hdisk p Hp) as (a & d1 & Hdump & ->).
    exists a. split; [done|]. apply lookup_insert_eq.
Qed.

(** C10.  Provided unpickling undoes pickling: after a [save] that returned
    a path, [restore] of that path returns the controller as saved, whose
    search filter, requested parameters, release, limit, rows and columns
    are the original's and whose [_queryobj] is [None]. *)
Theorem restore_after_save path overwrite s d p s' d' w delete_arg :
  (forall x a, pickle_dump os x = Some a -> pickle_load os a = Some x) ->
  save os path overwrite (s, d) = (Ok (Some p), (s', d'), w) ->
  exists d'',
    restore os p delete_arg d' = (Ok s', d'', [])
    /\ searchfilter s' = searchfilter s
    /\ returnparams s' = returnparams s
    /\ _params s' = _params s
    /\ _release s' = _release s
    /\ limit s' = limit s
    /\ results s' = results s
    /\ columns s' = columns s
    /\ _queryobj s' = None.
Proof.
  intros Hround Hsave.
  destruct (save_run path overwrite s d) as [Hself Hdisk].
  rewrite Hsave in Hself, Hdisk. cbn [final outcome fst snd] in Hself, Hdisk.
  destruct (Hdisk p eq_refl) as (a & d1 & Hdump & ->). subst s'.
  assert (Hfields : searchfilter (saved_form s) = searchfilter s
    /\ returnparams (saved_form s) = returnparams s
    /\ _params (saved_form s) = _params s
    /\ _release (saved_form s) = _release s
    /\ limit (saved_form s) = limit s
    /\ results (saved_form s) = results s
    /\ columns (saved_form s) = columns s
    /\ _queryobj (saved_form s) = None).
  { unfold saved_form. destruct (isnotstr (query s)); done. }
  unfold restore. rewrite run_bind. cbn [get]. rewrite lookup_insert_eq.
  rewrite (Hround _ _ Hdump). rewrite run_bind.
  destruct delete_arg; cbn; eexists; (split; [reflexivity|exact Hfields]).
Qed.

End SaveFacts.

(** Saving the local controller to [/data/results] and restoring it. *)
Lemma restore_after_save_witness :
  let o := save Demo.keep_all (Some "/data/results") false (Demo.local_ctl, ∅) in
  exists d'',
    restore Demo.keep_all "/data/results.mpf" false (final o).2
    = (Ok (final o).1, d'', [])
    /\ results (final o).1 = results Demo.local_ctl
    /\ _queryobj (final o).1 = None.
Proof.
  intros o.
  destruct (restore_after_save Demo.keep_all (Some "/data/results") false
              Demo.local_ctl ∅ "/data/results.mpf" (final o).1 (final o).2
              (warned o) false)
    as (d'' & Hrestore & _ & _ & _ & _ & _ & Hrows & _ & Hobj).
  - intros x a [= ->]. reflexivity.
  - vm_compute. reflexivity.
  - exists d''. split; [exact Hrestore|]. split; [exact Hrows|exact Hobj].
Defined.

(** The local controller holds a live query whose literal form is the SQL
    string; after [save] both the controller and the archived copy hold
    [None] for the query. *)
Lemma save_discards_live_query :
  let o := save Demo.keep_all (Some "/data/results") false (Demo.local_ctl, ∅) in
  query Demo.local_ctl = QLive 0%nat
  /\ showQuery Demo.env_up Demo.local_ctl
     = (Ok "SELECT cube.mangaid FROM cube", Demo.local_ctl, [])
  /\ outcome o = Ok (Some "/data/results.mpf")
  /\ query (final o).1 = QNone
  /\ exists a, (final o).2 !! "/data/results.mpf" = Some (File a) /\ query a = QNone.
Proof.
  split_and!; try (vm_compute; reflexivity).
  eexists. split; vm_compute; reflexivity.
Qed.

(** Saving the local controller, whose query is live. *)
Lemma save_clears_query_witness :
  let o := save Demo.keep_all (Some "/data/results") false (Demo.local_ctl, ∅) in
  query (final o).1 = QNone
  /\ exists a, (final o).2 !! "/data/results.mpf" = Some (File a).
Proof.
  destruct (save_clears_query Demo.keep_all (Some "/data/results") false
              Demo.local_ctl ∅) as (_ & Hquery & Hdisk).
  split; [exact Hquery|].
  destruct (Hdisk "/data/results.mpf") as (a & _ & Ha); [vm_compute; reflexivity|].
  exists a. exact Ha.
Defined.

(** * Further properties *)

(** ** The row factory *)

(** X1.  Every row the factory builds is well formed: when
    [marvintuple] returns a class and the class is called with one cell per
    field, the row's fields are the four default fields followed by the
    requested names that are not default fields, in the order requested,
    no field occurs twice, and the cells are the ones given. *)
Theorem factory_rows_well_formed ok name params results c values r :
  marvintuple ok name params results = Ok c ->
  new_row c values = Ok r ->
  row_wf ok r = true
  /\ cls_fields (row_class r)
     = default_fields ++ filter (fun col => col ∉ default_fields) params
  /\ cls_results (row_class r) = results
  /\ row_values r = values.
Proof.
  unfold marvintuple, namedtuple, new_row. cbv zeta. intros Hc Hr.
  set (extra := filter (fun col => col ∉ default_fields) params) in *.
  assert (Hfinal : match extra with [] => default_fields | _ :: _ => default_fields ++ extra end
                   = default_fields ++ extra)
    by (destruct extra; [by rewrite app_nil_r|done]).
  rewrite Hfinal in Hc.
  destruct (forallb ok (default_fields ++ extra)) eqn:Hok; [|discriminate].
  destruct (bool_decide (NoDup (default_fields ++ extra))) eqn:Hnd; [|discriminate].
  cbn [andb] in Hc. injection Hc as <-.
  destruct (decide _) as [Hlen|]; [|discriminate]. injection Hr as <-.
  cbn [row_class row_values cls_fields cls_results] in *.
  split_and!; try done.
  unfold row_wf. cbn [row_class row_values cls_fields].
  rewrite !andb_true_iff. split_and!;
    [exact Hok|exact Hnd|by apply bool_decide_eq_true_2|by apply bool_decide_eq_true_2].
Qed.

(** The galaxy row of the first page, built by the factory. *)
Lemma factory_rows_well_formed_witness :
  row_wf Demo.identifier_like Demo.rowA = true
  /\ cls_fields (row_class Demo.rowA) = default_fields ++ ["a"].
Proof.
  destruct (factory_rows_well_formed Demo.identifier_like "ResultRow"
              ["plateifu"; "a"] (Some Demo.query_ref)
              (row_class Demo.rowA) (row_values Demo.rowA) Demo.rowA
              eq_refl eq_refl) as (Hwf & Hfields & _).
  split; [exact Hwf|exact Hfields].
Defined.

(** Splitting a joined list gives the list back. *)
Lemma has_char_app c s t : has_char c (s +:+ t) = has_char c s || has_char c t.
Proof.
  induction s as [|c' s IH]; simpl; [done|]. rewrite IH. by rewrite orb_assoc.
Qed.

Lemma split_on_plain sep s : has_char sep s = false -> split_on sep s = [s].
Proof.
  induction s as [|c s IH]; simpl; [done|].
  intros [Hc Hs]%orb_false_iff. rewrite Ascii.eqb_sym, Hc. rewrite IH by done. done.
Qed.

Lemma split_on_app sep s t :
  has_char sep s = false ->
  split_on sep (s +:+ String sep t) = s :: split_on sep t.
Proof.
  induction s as [|c s IH]; simpl.
  - intros _. by rewrite Ascii.eqb_refl.
  - intros [Hc Hs]%orb_false_iff. rewrite Ascii.eqb_sym, Hc. rewrite IH by done. done.
Qed.

Lemma join_csv_cons n m rest :
  join_csv (n :: m :: rest) = n +:+ String ","%char (join_csv (m :: rest)).
Proof. reflexivity. Qed.

Lemma split_join_csv names :
  names <> [] -> Forall (fun n => has_char ","%char n = false) names ->
  split_on ","%char (join_csv names) = names.
Proof.
  intros Hne Hall. induction Hall as [|n rest Hn Hrest IH]; [done|].
  destruct rest as [|m rest].
  - by apply split_on_plain.
  - rewrite join_csv_cons, split_on_app by done. f_equal. by apply IH.
Qed.

Lemma join_csv_has_comma n m rest :
  has_char ","%char (join_csv (n :: m :: rest)) = true.
Proof.
  rewrite join_csv_cons, has_char_app. apply orb_true_iff. right. reflexivity.
Qed.

(** X2.  A comma-separated string of names stands for the list of its
    names: when the pieces hold no comma and their join is not the empty
    string, [marvintuple] called with the pieces joined by commas builds
    what it builds for the list of the stripped pieces. *)
Theorem marvintuple_string_as_list ok name pieces results :
  join_csv pieces <> "" ->
  Forall (fun p => has_char ","%char p = false) pieces ->
  marvintuple_call ok name (ParamString (join_csv pieces)) results
  = marvintuple_call ok name (ParamNames (strip <$> pieces)) results.
Proof.
  intros Hnonempty Hcommas. unfold marvintuple_call. f_equal. cbn [check_params].
  destruct (String.eqb_spec (join_csv pieces) ""); [done|].
  destruct pieces as [|p [|q rest]]; [done| |].
  - cbn [join_csv]. apply Forall_inv in Hcommas. by rewrite Hcommas.
  - rewrite join_csv_has_comma. by rewrite split_join_csv.
Qed.

(** The string of the docstring, with a blank after each comma. *)
Lemma marvintuple_string_as_list_witness :
  marvintuple_call Demo.identifier_like "Row" (ParamString "mangaid, plateifu, z") None
  = marvintuple_call Demo.identifier_like "Row" (ParamNames ["mangaid"; "plateifu"; "z"])
      None.
Proof.
  apply (marvintuple_string_as_list Demo.identifier_like "Row"
           ["mangaid"; " plateifu"; " z"] None).
  - discriminate.
  - repeat constructor.
Defined.

(** ** Adding rows *)

(** Two dictionaries without repeated keys that list the same keys and
    hold the same cells are the same dictionary. *)
Lemma odict_ext (d1 d2 : odict) :
  NoDup (od_keys d1) -> od_keys d1 = od_keys d2 ->
  (forall k, od_get k d1 = od_get k d2) -> d1 = d2.
Proof.
  unfold od_keys. revert d2.
  induction d1 as [|[k1 v1] d1 IH]; intros [|[k2 v2] d2] Hnd Hkeys Hget;
    try done.
  rewrite !fmap_cons in Hkeys. cbn [fst] in Hkeys. injection Hkeys as -> Hkeys.
  rewrite fmap_cons in Hnd. cbn [fst] in Hnd. apply NoDup_cons in Hnd as [Hk Hnd].
  pose proof (Hget k2) as Hhead. cbn [od_get] in Hhead.
  rewrite !decide_True in Hhead by done. injection Hhead as ->.
  f_equal. apply IH; [done|done|]. intros k.
  destruct (decide (k = k2)) as [->|Hne].
  - transitivity (@None value); [|symmetry]; apply od_get_None; unfold od_keys;
      [done|by rewrite <- Hkeys].
  - specialize (Hget k). cbn [od_get] in Hget. by rewrite !decide_False in Hget by done.
Qed.

Lemma od_update_NoDup (d e : odict) :
  NoDup (od_keys d) -> NoDup (od_keys e) -> NoDup (od_keys (od_update d e)).
Proof.
  intros Hd He. rewrite od_keys_update by done. apply NoDup_app.
  split_and!; [done| |by apply NoDup_filter].
  intros x Hx [Hnx _]%list_elem_of_filter. done.
Qed.

(** Updating in two steps or with the two updates merged first gives the
    same dictionary, keys in the same order. *)
Lemma od_update_assoc (d e f : odict) :
  NoDup (od_keys d) -> NoDup (od_keys e) -> NoDup (od_keys f) ->
  od_update (od_update d e) f = od_update d (od_update e f).
Proof.
  intros Hd He Hf.
  pose proof (od_update_NoDup d e Hd He) as Hde.
  pose proof (od_update_NoDup e f He Hf) as Hef.
  apply odict_ext.
  - by apply od_update_NoDup.
  - rewrite !od_keys_update by done. rewrite filter_app, <- app_assoc.
    do 2 f_equal. rewrite list_filter_filter.
    apply filter_ext_elem. intros x _.
    rewrite not_elem_of_app, list_elem_of_filter. 
    destruct (decide (x ∈ od_keys e)); tauto.
  - intros k. rewrite !od_get_update by done.
    destruct (od_get k f); done.
Qed.

Lemma filter_drop_all {A} (P : A -> Prop) `{!forall x, Decision (P x)} (l : list A) :
  (forall x, x ∈ l -> ~ P x) -> filter P l = [].
Proof.
  induction l as [|a l IH]; intros Hall; [done|].
  rewrite filter_cons_False by apply Hall, list_elem_of_here.
  apply IH. intros x Hx. by apply Hall, list_elem_of_further.
Qed.

(** Updating a dictionary with itself changes nothing. *)
Lemma od_update_self (d : odict) : NoDup (od_keys d) -> od_update d d = d.
Proof.
  intros Hd. apply odict_ext.
  - by apply od_update_NoDup.
  - rewrite od_keys_update by done.
    rewrite filter_drop_all; [by rewrite app_nil_r|]. intros x Hx Hn. done.
  - intros k. rewrite od_get_update by done. destruct (od_get k d); done.
Qed.

Section AddFacts.
Variable fok : string -> bool.

(** The dictionary of a row rebuilt from a dictionary. *)
Lemma asdict_of_dict n res (d : odict) :
  _asdict {| row_class := {| cls_name := n; cls_fields := od_keys d; cls_results := res |};
             row_values := d.*2 |} = d.
Proof. apply zip_fst_snd. Qed.

Lemma asdict_NoDup r : row_wf fok r = true -> NoDup (od_keys (_asdict r)).
Proof. intros (_ & Hnd & _ & Hlen)%row_wf_inv. by rewrite asdict_keys. Qed.

(** The merged row of two well-formed rows is well formed. *)
Lemma merged_row_wf n res (a b : Row) :
  row_wf fok a = true -> row_wf fok b = true ->
  row_wf fok {| row_class :=
                  {| cls_name := n;
                     cls_fields := od_keys (od_update (_asdict a) (_asdict b));
                     cls_results := res |};
                row_values := (od_update (_asdict a) (_asdict b)).*2 |} = true.
Proof.
  intros Ha Hb.
  pose proof (asdict_NoDup a Ha) as Hnda. pose proof (asdict_NoDup b Hb) as Hndb.
  apply row_wf_inv in Ha as (Hoka & _ & Htakea & Hlena).
  apply row_wf_inv in Hb as (Hokb & _ & _ & Hlenb).
  unfold row_wf. cbn [row_class row_values cls_fields].
  assert (Hkeys : od_keys (od_update (_asdict a) (_asdict b)) = cls_fields (row_class a)
            ++ filter (fun k => k ∉ cls_fields (row_class a)) (cls_fields (row_class b))).
  { rewrite od_keys_update by done. by rewrite !asdict_keys. }
  rewrite !andb_true_iff, !bool_decide_eq_true. split_and!.
  - rewrite Hkeys, forallb_app, Hoka. cbn [andb].
    apply forallb_forall. intros x [_ Hx]%list_elem_of_In%list_elem_of_filter.
    rewrite forallb_forall in Hokb. apply Hokb. by apply list_elem_of_In.
  - by apply od_update_NoDup.
  - rewrite Hkeys. rewrite take_app_le; [done|].
    rewrite <- (take_drop 4 (cls_fields (row_class a))), Htakea.
    rewrite length_app. simpl. lia.
  - unfold od_keys. by rewrite !length_fmap.
Qed.

End AddFacts.

(** X3.  The sum of two rows of one query and one galaxy is again a row
    of that query and galaxy: it is well formed, its class has the first
    row's name and query, and its [plateifu] is the common one, so it can
    be added to further rows. *)
Theorem new_add_closed fok (a b : Row) :
  row_wf fok a = true -> row_wf fok b = true ->
  cls_results (row_class a) = cls_results (row_class b) ->
  od_get "plateifu" (_asdict a) = od_get "plateifu" (_asdict b) ->
  exists r, new_add fok a b = Ok r
    /\ row_wf fok r = true
    /\ cls_name (row_class r) = cls_name (row_class a)
    /\ cls_results (row_class r) = cls_results (row_class a)
    /\ od_get "plateifu" (_asdict r) = od_get "plateifu" (_asdict a).
Proof.
  intros Ha Hb Hres Hid. eexists. split; [by apply new_add_merged|].
  split; [by apply merged_row_wf|]. split; [done|]. split; [done|].
  rewrite asdict_of_dict. rewrite od_get_update by (by eapply asdict_NoDup).
  rewrite <- Hid. destruct (od_get "plateifu" (_asdict a)); done.
Qed.

Lemma new_add_closed_witness :
  exists r, new_add Demo.identifier_like Demo.rowA Demo.rowB = Ok r
    /\ row_wf Demo.identifier_like r = true.
Proof.
  destruct (new_add_closed Demo.identifier_like Demo.rowA Demo.rowB
              eq_refl eq_refl eq_refl eq_refl) as (r & Hr & Hwf & _).
  exists r. split; [exact Hr|exact Hwf].
Defined.

(** X4.  Adding rows is associative: for three rows of one query and one
    galaxy, adding the third to the sum of the first two gives the same
    row as adding the sum of the last two to the first. *)
Theorem new_add_assoc fok (a b c : Row) :
  row_wf fok a = true -> row_wf fok b = true -> row_wf fok c = true ->
  cls_results (row_class a) = cls_results (row_class b) ->
  cls_results (row_class b) = cls_results (row_class c) ->
  od_get "plateifu" (_asdict a) = od_get "plateifu" (_asdict b) ->
  od_get "plateifu" (_asdict b) = od_get "plateifu" (_asdict c) ->
  exists ab bc r,
    new_add fok a b = Ok ab /\ new_add fok b c = Ok bc
    /\ new_add fok ab c = Ok r /\ new_add fok a bc = Ok r.
Proof.
  intros Ha Hb Hc Hab Hbc Hpab Hpbc.
  pose proof (asdict_NoDup fok a Ha) as Hnda.
  pose proof (asdict_NoDup fok b Hb) as Hndb.
  pose proof (asdict_NoDup fok c Hc) as Hndc.
  eexists _, _, _. split; [by apply new_add_merged|]. split; [by apply new_add_merged|].
  split.
  - rewrite new_add_merged; [ |by apply merged_row_wf|done| |].
    + rewrite asdict_of_dict. cbn [row_class cls_name cls_results]. reflexivity.
    + cbn [row_class cls_results]. congruence.
    + rewrite asdict_of_dict, od_get_update by done.
      rewrite <- Hpbc. destruct (od_get "plateifu" (_asdict b)) eqn:Hp; [done|].
      by rewrite Hpab.
  - rewrite new_add_merged; [ |done|by apply merged_row_wf| |].
    + rewrite asdict_of_dict. cbn [row_class cls_name cls_results].
      by rewrite od_update_assoc.
    + cbn [row_class cls_results]. done.
    + rewrite asdict_of_dict, od_get_update by done.
      rewrite <- Hpbc, Hpab. destruct (od_get "plateifu" (_asdict b)); done.
Qed.

Lemma new_add_assoc_witness :
  exists ab bc r,
    new_add Demo.identifier_like Demo.rowA Demo.rowB = Ok ab
    /\ new_add Demo.identifier_like Demo.rowB rowZ = Ok bc
    /\ new_add Demo.identifier_like ab rowZ = Ok r
    /\ new_add Demo.identifier_like Demo.rowA bc = Ok r.
Proof.
  exact (new_add_assoc Demo.identifier_like Demo.rowA Demo.rowB rowZ
           eq_refl eq_refl eq_refl eq_refl eq_refl eq_refl eq_refl).
Defined.

(** X5.  Adding a well-formed row to itself returns the row. *)
Theorem new_add_idempotent fok (a : Row) :
  row_wf fok a = true -> new_add fok a a = Ok a.
Proof.
  intros Ha. rewrite new_add_merged by done.
  rewrite od_update_self by (by eapply asdict_NoDup).
  apply row_wf_inv in Ha as (_ & _ & _ & Hlen).
  rewrite asdict_keys by done. f_equal.
  destruct a as [[n fields res] values]. cbn [row_class row_values cls_fields] in *.
  f_equal. unfold _asdict. cbn [row_class row_values cls_fields].
  apply snd_zip. lia.
Qed.

Lemma new_add_idempotent_witness :
  new_add Demo.identifier_like Demo.rowB Demo.rowB = Ok Demo.rowB.
Proof. exact (new_add_idempotent Demo.identifier_like Demo.rowB eq_refl). Defined.

(** ** Merging subsets *)

(** The first rows of subsets that all have one. *)
Lemma first_rows_ok subsets :
  Forall (fun a => subset_rows a <> []) subsets ->
  exists firsts, res_mapM first_row subsets = Ok firsts
    /\ Forall2 (fun a r => exists rest, subset_rows a = r :: rest) subsets firsts.
Proof.
  induction 1 as [|a subsets Ha _ (firsts & Hfirsts & Hall)]; cbn [res_mapM].
  - exists []. by split.
  - unfold first_row at 1. destruct (subset_rows a) as [|r rest] eqn:Hrows; [done|].
    cbn [res_bind]. rewrite Hfirsts. cbn [res_bind].
    exists (r :: firsts). split; [done|]. constructor; [by exists rest|done].
Qed.

Lemma first_rows_empty subsets :
  Exists (fun a => subset_rows a = []) subsets ->
  res_mapM first_row subsets = Raise IndexError.
Proof.
  induction 1 as [a subsets Ha|a subsets _ IH]; cbn [res_mapM]; unfold first_row at 1.
  - by rewrite Ha.
  - destruct (subset_rows a); [done|]. cbn [res_bind]. by rewrite IH.
Qed.

(** X6.  A merge is all or nothing.  Either it raises, one of the four
    errors of the method ("Input must be a list of result subsets", an
    [IndexError] for an empty subset, "Different named columns", "Column
    number mismatch"), and leaves the controller as it was; or it returns
    the buffer, which is the rows of the subsets in input order, with
    [count] their number and every other attribute as before.  It issues no
    warning either way. *)
Theorem merge_subsets_all_or_nothing subsets s :
  let rows := concat (subset_rows <$> subsets) in
  (exists e, merge_subsets subsets s = (Raise e, s, [])
     /\ (e = MarvinError msg_not_nested \/ e = IndexError
         \/ e = MarvinUserWarning msg_different_columns
         \/ e = MarvinUserWarning msg_column_number))
  \/ merge_subsets subsets s
     = (Ok (Plain (Named <$> rows)),
        set_count (Z.of_nat (length rows)) (set_results (Plain (Named <$> rows)) s),
        []).
Proof.
  intros rows. unfold merge_subsets.
  destruct (negb (forallb is_list subsets)); [left; eexists; split; [done|tauto]|].
  rewrite run_bind.
  destruct (res_mapM first_row subsets) as [firsts|e0] eqn:Hfirsts; cbn [lift].
  2:{ apply first_rows_raise in Hfirsts as ->. left. eexists. split; [done|tauto]. }
  rewrite run_bind. cbn [lift]. rewrite run_bind. cbn [get].
  destruct (forallb _ firsts); [|left; eexists; split; [done|tauto]].
  destruct (forallb _ firsts); [|left; eexists; split; [done|tauto]].
  right. unfold mbind, M_bind, mret, M_ret, modify, get. cbn.
  unfold buffer_len. cbn. by rewrite length_fmap.
Qed.

(** X7.  Only the first row of each subset is examined.  When every
    subset is a list whose first row has at least one cell and the fields
    of the controller's columns, the merge is accepted, whatever the other
    rows of the subsets are. *)
Theorem merge_subsets_checks_first_rows subsets s :
  Forall (fun a => exists r rest, a = SubList (r :: rest)
            /\ row_values r <> []
            /\ cls_fields (row_class r) = col_remote <$> columns s) subsets ->
  let rows := concat (subset_rows <$> subsets) in
  merge_subsets subsets s
  = (Ok (Plain (Named <$> rows)),
     set_count (Z.of_nat (length rows)) (set_results (Plain (Named <$> rows)) s),
     []).
Proof.
  intros Hall rows. unfold merge_subsets.
  assert (Hlists : forallb is_list subsets = true).
  { apply forallb_forall. intros a Ha%list_elem_of_In.
    rewrite Forall_forall in Hall. by destruct (Hall a Ha) as (r & rest & -> & _). }
  rewrite Hlists. cbn [negb].
  destruct (first_rows_ok subsets) as (firsts & Hfirsts & Hmatch).
  { eapply Forall_impl; [exact Hall|]. by intros a (r & rest & -> & _). }
  rewrite run_bind, Hfirsts. cbn [lift].
  rewrite run_bind. cbn [lift]. rewrite run_bind. cbn [get].
  assert (Hwidth : forallb (fun r => negb (Z.of_nat (length (row_values r)) =? 0)) firsts
                   = true
                   /\ forallb (fun r => bool_decide (cls_fields (row_class r)
                                                     = col_remote <$> columns s)) firsts
                      = true).
  { clear Hfirsts Hlists. induction Hmatch as [|a r subsets firsts [rest Ha] _ IH];
      [done|].
    apply Forall_cons in Hall as [(r' & rest' & -> & Hcells & Hfields) Hall].
    cbn [subset_rows] in Ha. injection Ha as <- <-.
    destruct (IH Hall) as [IH1 IH2]. cbn [forallb]. rewrite IH1, IH2.
    rewrite bool_decide_eq_true_2 by done. split; [|done].
    destruct (row_values r'); [done|]. done. }
  destruct Hwidth as [-> ->].
  unfold mbind, M_bind, mret, M_ret, modify, get. cbn.
  unfold buffer_len. cbn. by rewrite length_fmap.
Qed.

(** A subset whose second row has a fifth column is merged as it is. *)
Lemma merge_subsets_checks_first_rows_witness :
  outcome (merge_subsets [SubList [rowPlain; Demo.rowA]] Demo.local_ctl)
  = Ok (Plain [Named rowPlain; Named Demo.rowA]).
Proof.
  rewrite (merge_subsets_checks_first_rows [SubList [rowPlain; Demo.rowA]] Demo.local_ctl).
  - reflexivity.
  - repeat constructor. exists rowPlain, [Demo.rowA].
    split; [reflexivity|]. split; [discriminate|]. vm_compute. reflexivity.
Defined.

(** X8.  When every element is a list and one of them is empty, the merge
    raises [IndexError] and leaves the controller as it was. *)
Theorem merge_subsets_empty_subset subsets s :
  forallb is_list subsets = true ->
  Exists (fun a => subset_rows a = []) subsets ->
  merge_subsets subsets s = (Raise IndexError, s, []).
Proof.
  intros Hlists Hempty. unfold merge_subsets. rewrite Hlists. cbn [negb].
  rewrite run_bind, first_rows_empty by done. reflexivity.
Qed.

Lemma merge_subsets_empty_subset_witness :
  merge_subsets [SubList [rowPlain]; SubList []] Demo.local_ctl
  = (Raise IndexError, Demo.local_ctl, []).
Proof.
  apply merge_subsets_empty_subset; [reflexivity|].
  apply Exists_cons_tl, Exists_cons_hd. reflexivity.
Defined.

(** X9.  For rows built by the factory the error "Column number mismatch
    among subsets" is never raised, however different the widths of the
    subsets' rows are. *)
Theorem merge_subsets_no_column_number_error fok subsets s :
  Forall (fun a => Forall (fun r => row_wf fok r = true) (subset_rows a)) subsets ->
  outcome (merge_subsets subsets s) <> Raise (MarvinUserWarning msg_column_number).
Proof.
  intros Hwf. apply merge_subsets_never_counts.
  eapply Forall_impl; [exact Hwf|]. intros a Ha.
  eapply Forall_impl; [exact Ha|]. intros r (_ & _ & Htake & Hlen)%row_wf_inv Hnil.
  rewrite Hnil in Hlen. cbn in Hlen. symmetry in Hlen. apply nil_length_inv in Hlen.
  by rewrite Hlen in Htake.
Qed.

(** Subsets of widths five and six. *)
Lemma merge_subsets_no_column_number_error_witness :
  outcome (merge_subsets [SubList [Demo.rowA]; SubList [Demo.rowB]] Demo.local_ctl)
  <> Raise (MarvinUserWarning msg_column_number).
Proof.
  apply (merge_subsets_no_column_number_error Demo.identifier_like).
  repeat constructor.
Defined.

(** ** What the methods never assign *)

Section Keeps.
Context {P : Type} (proj : Results -> P).

Lemma keeps_ret {A} (a : A) : keeps proj (mret a).
Proof. intros s. reflexivity. Qed.

Lemma keeps_raise {A} e : keeps proj (@raise Results A e).
Proof. intros s. reflexivity. Qed.

Lemma keeps_lift {A} (r : res A) : keeps proj (lift r).
Proof. intros s. reflexivity. Qed.

Lemma keeps_get : keeps proj get.
Proof. intros s. reflexivity. Qed.

Lemma keeps_warn w : keeps proj (warn w).
Proof. intros s. reflexivity. Qed.

Lemma keeps_modify (f : Results -> Results) :
  (forall s, proj (f s) = proj s) -> keeps proj (modify f).
Proof. intros Hf s. apply Hf. Qed.

Lemma keeps_bind {A B} (m : M Results A) (k : A -> M Results B) :
  keeps proj m -> (forall a, keeps proj (k a)) -> keeps proj (m ≫= k).
Proof.
  intros Hm Hk s. rewrite run_bind. specialize (Hm s).
  destruct (m s) as [[[a|e] s1] w1]; cbn [final fst snd] in *; [|done].
  specialize (Hk a s1). destruct (k a s1) as [[r2 s2] w2]; cbn [final fst snd] in *.
  congruence.
Qed.

End Keeps.

(** A fetch keeps the identity of the query. *)
Lemma keeps_fetch {A} (m : M Results A) : fetch_only m -> keeps fingerprint m.
Proof.
  intros Hm s. specialize (Hm s). unfold beside_fetch in Hm. unfold fingerprint.
  injection Hm as -> -> -> -> -> -> -> -> -> ->. reflexivity.
Qed.

Ltac keeps_step :=
  first [ apply keeps_ret | apply keeps_raise | apply keeps_lift
        | apply keeps_get | apply keeps_warn
        | apply keeps_modify; intros ?; reflexivity
        | apply keeps_fetch;
          first [ apply fetch_only_grab_chunk | apply fetch_only_interaction
                | apply fetch_only_makeNamedTuple ]
        | apply keeps_bind; [|intros ?]
        | match goal with
          | |- keeps _ (if ?b then _ else _) => destruct b
          | |- keeps _ (let '(_, _) := ?p in _) => destruct p
          | |- keeps _ (match ?x with _ => _ end) => destruct x
          end ].

Lemma keeps_getNext env c : keeps fingerprint (getNext env c).
Proof. unfold getNext, check_chunk, store_chunk, reconvert. repeat keeps_step. Qed.

Lemma keeps_getPrevious env c : keeps fingerprint (getPrevious env c).
Proof. unfold getPrevious, check_chunk, store_chunk, reconvert. repeat keeps_step. Qed.

Lemma keeps_getSubset env a l : keeps fingerprint (getSubset env a l).
Proof. unfold getSubset, reconvert. repeat keeps_step. Qed.

Lemma keeps_sort env n o : keeps fingerprint (sort env n o).
Proof. unfold sort, _check_column. repeat keeps_step. Qed.

Lemma keeps_getAll env : keeps fingerprint (getAll env).
Proof. unfold getAll. repeat keeps_step. Qed.

Lemma keeps_merge_subsets subsets : keeps fingerprint (merge_subsets subsets).
Proof. unfold merge_subsets. repeat keeps_step. Qed.

(** X10.  Paging, sorting, fetching everything and merging never assign
    the identity of the query: however the call ends, the search filter,
    the return parameters, the parameter list, the release, the limit, the
    total count, the mode, the query, the query object and the return type
    are what they were. *)
Theorem methods_keep_query_identity env :
  (forall c, keeps fingerprint (getNext env c))
  /\ (forall c, keeps fingerprint (getPrevious env c))
  /\ (forall start_arg limit_arg, keeps fingerprint (getSubset env start_arg limit_arg))
  /\ (forall name order_arg, keeps fingerprint (sort env name order_arg))
  /\ keeps fingerprint (getAll env)
  /\ (forall subsets, keeps fingerprint (merge_subsets subsets)).
Proof.
  split_and!; intros.
  - apply keeps_getNext.
  - apply keeps_getPrevious.
  - apply keeps_getSubset.
  - apply keeps_sort.
  - apply keeps_getAll.
  - apply keeps_merge_subsets.
Qed.

(** ** Stepping when everything is loaded *)

(** X11.  When the buffer already holds every row of the query
    ([totalcount = count]), [getNext] and [getPrevious] fetch nothing: they
    return the buffer as it is, warn that one cannot go forward (back), and
    change nothing but the chunk size, which becomes the one asked for. *)
Theorem stepping_with_all_results env c s :
  totalcount s = count s ->
  (exists w, getNext env c s
     = (Ok (results s), set_chunk (stepping_chunk s c) s, w ++ [AllResultsForward]))
  /\ (exists w, getPrevious env c s
     = (Ok (results s), set_chunk (stepping_chunk s c) s, w ++ [AllResultsBack])).
Proof.
  intros Hall. split.
  - unfold getNext. rewrite run_bind.
    destruct (check_chunk_run s c) as (c' & w0 & -> & Hstep).
    rewrite run_bind. cbn [get]. rewrite run_bind, store_chunk_run, Hstep.
    set (s1 := set_chunk (stepping_chunk s c) s).
    rewrite run_bind. cbn [get].
    destruct (decide (totalcount s1 = count s1)) as [_|Hmore]; [|done].
    exists w0. unfold mbind, M_bind, mret, M_ret, warn. cbn. reflexivity.
  - unfold getPrevious. rewrite run_bind.
    destruct (check_chunk_run s c) as (c' & w0 & -> & Hstep).
    rewrite run_bind. cbn [get]. rewrite run_bind, store_chunk_run, Hstep.
    set (s1 := set_chunk (stepping_chunk s c) s).
    rewrite run_bind. cbn [get].
    destruct (decide (totalcount s1 = count s1)) as [_|Hmore]; [|done].
    exists w0. unfold mbind, M_bind, mret, M_ret, warn. cbn. reflexivity.
Qed.

Lemma stepping_with_all_results_witness :
  exists w, getNext Demo.env_up (Some 3) (Demo.controller local (QLive 0%nat) 7 7)
    = (Ok (results (Demo.controller local (QLive 0%nat) 7 7)),
       set_chunk 3 (Demo.controller local (QLive 0%nat) 7 7),
       w ++ [AllResultsForward]).
Proof.
  destruct (stepping_with_all_results Demo.env_up (Some 3)
              (Demo.controller local (QLive 0%nat) 7 7) eq_refl) as [Hnext _].
  exact Hnext.
Defined.

(** ** What a returning paging call leaves *)

(** X12.  When [getSubset] returns, what it returns is the buffer, [count]
    is the number of rows in it, the window starts at the start asked for
    (at 0 for a negative one) and spans the limit, which is also the new
    chunk size; the end of the window is not cut at the total count. *)
Theorem getSubset_returns env start_arg limit_arg s b s' w :
  getSubset env start_arg limit_arg s = (Ok b, s', w) ->
  b = results s'
  /\ count s' = buffer_len b
  /\ start s' = Z.max 0 start_arg
  /\ end_ s' = Z.max 0 start_arg + subset_limit s limit_arg
  /\ chunk s' = subset_limit s limit_arg.
Proof.
  unfold getSubset. rewrite run_bind. cbn [get]. rewrite run_bind.
  destruct (subset_limit_run s limit_arg) as [wl ->].
  replace (if decide (start_arg < 0) then 0 else start_arg) with (Z.max 0 start_arg)
    by (destruct (decide _); lia).
  set (L := subset_limit s limit_arg). set (S0 := Z.max 0 start_arg).
  do 4 (rewrite run_bind; cbn [modify get]).
  set (s1 := set_chunk L (set_end_ (S0 + L) (set_start S0 s))).
  pose proof (fetch_only_grab_chunk env "getSubset" S0 (S0 + L) s1) as Hframe.
  destruct (grab_chunk env "getSubset" _ _ s1) as [[[[]|e] sg] wg];
    cbn [final fst snd] in Hframe;
    apply beside_fetch_inv in Hframe as (_ & Hchunk & Hstart & Hend & Hrt & _);
    subst s1; cbn in Hchunk, Hstart, Hend, Hrt; [|cbn; discriminate].
  unfold reconvert, mbind, M_bind, mret, M_ret, modify, get, raise. cbn.
  destruct (truthy (returntype sg)) eqn:Htruthy; cbn; [discriminate|].
  intros [= <- <- _]. cbn. done.
Qed.

(** The local controller asked for three rows from row 2. *)
Lemma getSubset_returns_witness :
  let o := getSubset Demo.env_up 2 (Some 3) Demo.local_ctl in
  count (final o) = 3 /\ start (final o) = 2 /\ end_ (final o) = 5.
Proof.
  intros o.
  destruct (getSubset_returns Demo.env_up 2 (Some 3) Demo.local_ctl
              (results (final o)) (final o) (warned o))
    as (_ & Hcount & Hstart & Hend & _).
  - vm_compute. reflexivity.
  - split; [|split].
    + rewrite Hcount. vm_compute. reflexivity.
    + rewrite Hstart. reflexivity.
    + rewrite Hend. vm_compute. reflexivity.
Defined.

(** X13.  When [getNext] or [getPrevious] returns and the buffer did not
    hold every row, what it returns is the buffer and [count] is the
    number of rows in it.  After [getNext] the window starts where the old
    one ended and ends one chunk further, at the total count at most;
    after [getPrevious] it ends where the old one started and starts one
    chunk before, at 0 at least. *)
Theorem stepping_returns env c s b s' w :
  totalcount s <> count s ->
  (getNext env c s = (Ok b, s', w) ->
     b = results s' /\ count s' = buffer_len b
     /\ start s' = end_ s
     /\ end_ s' = Z.min (end_ s + stepping_chunk s c) (totalcount s))
  /\ (getPrevious env c s = (Ok b, s', w) ->
     b = results s' /\ count s' = buffer_len b
     /\ end_ s' = start s
     /\ start s' = Z.max 0 (start s - stepping_chunk s c)).
Proof.
  intros Hmore. split.
  - intros Hrun. pose proof (getNext_ok _ _ _ _ _ _ Hrun) as (_ & _ & [[? _]|(_ & Hs & He)]);
      [done|].
    split_and!; [| |done|done].
    all: revert Hrun; unfold getNext; rewrite run_bind;
      destruct (check_chunk_run s c) as (c' & w0 & -> & Hstep);
      rewrite run_bind; cbn [get]; rewrite run_bind, store_chunk_run, Hstep;
      rewrite run_bind; cbn [get];
      (destruct (decide _) as [Hall|_]; [by cbn in Hall|]);
      rewrite run_bind;
      match goal with
      | |- context [(if ?d then ?x else ?y) ?s1] =>
          assert (Hb : exists p wb, (if d then x else y) s1 = (Ok p, s1, wb))
            by (destruct d; eexists _, _; reflexivity)
      end;
      destruct Hb as ([ns ne] & wb & ->);
      rewrite run_bind;
      (destruct (grab_chunk env "getNext" ns ne _) as [[[[]|e] sg] wg]; [|discriminate]);
      unfold reconvert, mbind, M_bind, mret, M_ret, modify, get, raise; cbn;
      (destruct (truthy (returntype sg)); cbn; [discriminate|]);
      intros [= <- <- _]; reflexivity.
  - intros Hrun.
    pose proof (getPrevious_ok _ _ _ _ _ _ Hrun) as (_ & _ & [[? _]|(_ & He & Hs)]);
      [done|].
    split_and!; [| |done|done].
    all: revert Hrun; unfold getPrevious; rewrite run_bind;
      destruct (check_chunk_run s c) as (c' & w0 & -> & Hstep);
      rewrite run_bind; cbn [get]; rewrite run_bind, store_chunk_run, Hstep;
      rewrite run_bind; cbn [get];
      (destruct (decide _) as [Hall|_]; [by cbn in Hall|]);
      rewrite run_bind;
      match goal with
      | |- context [(if ?d then ?x else ?y) ?s1] =>
          assert (Hb : exists p wb, (if d then x else y) s1 = (Ok p, s1, wb))
            by (destruct d; eexists _, _; reflexivity)
      end;
      destruct Hb as ([ns ne] & wb & ->);
      rewrite run_bind;
      (destruct (grab_chunk env "getPrevious" ns ne _) as [[[[]|e] sg] wg]; [|discriminate]);
      unfold reconvert, mbind, M_bind, mret, M_ret, modify, get, raise; cbn;
      (destruct (truthy (returntype sg)); cbn; [discriminate|]);
      intros [= <- <- _]; reflexivity.
Qed.

(** From the first page of five, the next page holds the last two of the
    seven rows. *)
Lemma stepping_returns_witness :
  let o := getNext Demo.env_up None Demo.local_ctl in
  count (final o) = 2 /\ start (final o) = 5 /\ end_ (final o) = 7.
Proof.
  intros o.
  destruct (stepping_returns Demo.env_up None Demo.local_ctl
              (results (final o)) (final o) (warned o)) as [Hnext _].
  - vm_compute. discriminate.
  - destruct Hnext as (_ & Hcount & Hstart & Hend).
    + vm_compute. reflexivity.
    + split; [|split].
      * rewrite Hcount. vm_compute. reflexivity.
      * rewrite Hstart. reflexivity.
      * rewrite Hend. vm_compute. reflexivity.
Defined.

(** ** Paging with a return type *)

Lemma getSubset_ok_returntype env start_arg limit_arg s b s' w :
  getSubset env start_arg limit_arg s = (Ok b, s', w) -> truthy (returntype s) = false.
Proof.
  unfold getSubset. rewrite run_bind. cbn [get]. rewrite run_bind.
  destruct (subset_limit_run s limit_arg) as [wl ->].
  do 4 (rewrite run_bind; cbn [modify get]).
  match goal with |- context [grab_chunk env ?n ?a ?b ?s1] =>
    pose proof (fetch_only_grab_chunk env n a b s1) as Hframe;
    destruct (grab_chunk env n a b s1) as [[[[]|e] sg] wg]
  end; cbn [final fst snd] in Hframe;
    apply beside_fetch_inv in Hframe as (_ & _ & _ & _ & Hrt & _);
    cbn in Hrt; [|cbn; discriminate].
  unfold reconvert, mbind, M_bind, mret, M_ret, modify, get, raise. cbn.
  rewrite Hrt. destruct (truthy (returntype s)); cbn; [discriminate|done].
Qed.

Lemma getNext_ok_returntype env c s b s' w :
  totalcount s <> count s ->
  getNext env c s = (Ok b, s', w) -> truthy (returntype s) = false.
Proof.
  intros Hmore. unfold getNext. rewrite run_bind.
  destruct (check_chunk_run s c) as (c' & w0 & -> & Hstep).
  rewrite run_bind. cbn [get]. rewrite run_bind, store_chunk_run, Hstep.
  rewrite run_bind. cbn [get].
  destruct (decide _) as [Hall|_]; [by cbn in Hall|].
  rewrite run_bind.
  match goal with
  | |- context [(if ?d then ?x else ?y) ?s1] =>
      assert (Hb : exists p wb, (if d then x else y) s1 = (Ok p, s1, wb))
        by (destruct d; eexists _, _; reflexivity)
  end.
  destruct Hb as ([ns ne] & wb & ->).
  rewrite run_bind.
  match goal with |- context [grab_chunk env ?n ?a ?b ?s1] =>
    pose proof (fetch_only_grab_chunk env n a b s1) as Hframe;
    destruct (grab_chunk env n a b s1) as [[[[]|e] sg] wg]
  end; cbn [final fst snd] in Hframe;
    apply beside_fetch_inv in Hframe as (_ & _ & _ & _ & Hrt & _);
    cbn in Hrt; [|cbn; discriminate].
  unfold reconvert, mbind, M_bind, mret, M_ret, modify, get, raise. cbn.
  rewrite Hrt. destruct (truthy (returntype s)); cbn; [discriminate|done].
Qed.

Lemma getPrevious_ok_returntype env c s b s' w :
  totalcount s <> count s ->
  getPrevious env c s = (Ok b, s', w) -> truthy (returntype s) = false.
Proof.
  intros Hmore. unfold getPrevious. rewrite run_bind.
  destruct (check_chunk_run s c) as (c' & w0 & -> & Hstep).
  rewrite run_bind. cbn [get]. rewrite run_bind, store_chunk_run, Hstep.
  rewrite run_bind. cbn [get].
  destruct (decide _) as [Hall|_]; [by cbn in Hall|].
  rewrite run_bind.
  match goal with
  | |- context [(if ?d then ?x else ?y) ?s1] =>
      assert (Hb : exists p wb, (if d then x else y) s1 = (Ok p, s1, wb))
        by (destruct d; eexists _, _; reflexivity)
  end.
  destruct Hb as ([ns ne] & wb & ->).
  rewrite run_bind.
  match goal with |- context [grab_chunk env ?n ?a ?b ?s1] =>
    pose proof (fetch_only_grab_chunk env n a b s1) as Hframe;
    destruct (grab_chunk env n a b s1) as [[[[]|e] sg] wg]
  end; cbn [final fst snd] in Hframe;
    apply beside_fetch_inv in Hframe as (_ & _ & _ & _ & Hrt & _);
    cbn in Hrt; [|cbn; discriminate].
  unfold reconvert, mbind, M_bind, mret, M_ret, modify, get, raise. cbn.
  rewrite Hrt. destruct (truthy (returntype s)); cbn; [discriminate|done].
Qed.

Lemma not_ok_raises {S A} (o : res A * S * list Warning) :
  (forall a s w, o <> (Ok a, s, w)) -> raises o.
Proof.
  destruct o as [[[a|e] s] w]; intros Hno; [by destruct (Hno a s w)|by exists e].
Qed.

(** X14.  A controller with a return type set cannot page: [getSubset]
    always ends in an exception, and so do [getNext] and [getPrevious]
    unless the buffer holds every row, because the conversion that closes
    them is called without its required argument. *)
Theorem paging_with_returntype_raises env s :
  truthy (returntype s) = true ->
  (forall start_arg limit_arg, raises (getSubset env start_arg limit_arg s))
  /\ (totalcount s <> count s ->
      forall c, raises (getNext env c s) /\ raises (getPrevious env c s)).
Proof.
  intros Hrt. split.
  - intros start_arg limit_arg. apply not_ok_raises. intros b s' w Hrun.
    apply getSubset_ok_returntype in Hrun. congruence.
  - intros Hmore c. split; apply not_ok_raises; intros b s' w Hrun.
    + apply getNext_ok_returntype in Hrun; [congruence|done].
    + apply getPrevious_ok_returntype in Hrun; [congruence|done].
Qed.

(** The local controller, asked for cubes. *)
Lemma paging_with_returntype_raises_witness :
  raises (getSubset Demo.env_up 0 (Some 3) (with_returntype "cube" Demo.local_ctl))
  /\ raises (getNext Demo.env_up None (with_returntype "cube" Demo.local_ctl)).
Proof.
  destruct (paging_with_returntype_raises Demo.env_up
              (with_returntype "cube" Demo.local_ctl) eq_refl) as [Hsubset Hstep].
  split; [exact (Hsubset 0 (Some 3))|].
  assert (Hmore : totalcount (with_returntype "cube" Demo.local_ctl)
                  <> count (with_returntype "cube" Demo.local_ctl))
    by (vm_compute; discriminate).
  destruct (Hstep Hmore None) as [Hnext _]. exact Hnext.
Defined.

(** ** Building the result set *)

Lemma new_rows_cells nt (l : list item) rows :
  res_mapM (fun r => new_row nt (item_values r)) l = Ok rows ->
  row_values <$> rows = item_values <$> l
  /\ Forall (fun r => row_class r = nt) rows.
Proof.
  revert rows. induction l as [|x l IH]; intros rows; cbn [res_mapM].
  - intros [= <-]. by split.
  - unfold new_row at 1. destruct (decide _); cbn [res_bind]; [|discriminate].
    destruct (res_mapM _ l) as [ys|]; cbn [res_bind]; [|discriminate].
    intros [= <-]. destruct (IH ys eq_refl) as [Hcells Hclass].
    rewrite !fmap_cons. cbn [row_values]. rewrite Hcells. split; [done|].
    constructor; [done|done].
Qed.

Lemma buffer_cells_paged rs :
  item_values <$> buffer_items (Paged rs) = row_values <$> rs_rows rs.
Proof.
  cbn [buffer_items]. rewrite <- list_fmap_compose. done.
Qed.

(** What a returning [_makeNamedTuple] leaves, attribute by attribute. *)
Lemma makeNamedTuple_ok env index s u s' w :
  _makeNamedTuple env index s = (Ok u, s', w) ->
  exists ps cols nt rows,
    _params s = Some ps /\ parameter_group env ps = Some cols
    /\ marvintuple (field_name_ok env) "ResultRow" (col_remote <$> cols)
         (Some (ref_of (set_columns cols s))) = Ok nt
    /\ match results s with
       | Paged rs => Ok (rs_rows rs)
       | Plain l => res_mapM (fun r => new_row nt (item_values r)) l
       end = Ok rows
    /\ rows <> []
    /\ s' = set_results
              (Paged {| rs_rows := rows;
                        rs_count := Z.of_nat (length rows);
                        rs_total := totalcount s;
                        rs_pages := - ((- totalcount s) / Z.of_nat (length rows));
                        rs_index := default 0 index;
                        rs_columns := cols |})
              (set_count (Z.of_nat (length rows)) (set_columns cols s))
    /\ w = [].
Proof.
  unfold _makeNamedTuple, getColumns. rewrite !run_bind. cbn [get].
  destruct (_params s) as [ps|]; [|discriminate].
  destruct (parameter_group env ps) as [cols|] eqn:Hcols; [|discriminate].
  rewrite run_bind. cbn [modify mret M_ret].
  repeat (rewrite run_bind; cbn [get lift]).
  destruct (marvintuple _ _ _ _) as [nt|] eqn:Hnt; [|discriminate].
  repeat (rewrite run_bind; cbn [get lift]).
  change (results (set_columns cols s)) with (results s).
  destruct (match results s with
            | Plain l => res_mapM (fun r => new_row nt (item_values r)) l
            | Paged rs => Ok (rs_rows rs)
            end) as [rows|] eqn:Hrows; [|discriminate].
  repeat (rewrite run_bind; cbn [get lift modify]).
  destruct (new_ResultSet _ _ _ _ _) as [rs|] eqn:Hrs; [|discriminate].
  cbn. intros [= _ <- <-].
  unfold new_ResultSet in Hrs. cbn in Hrs. destruct (decide _) as [|Hne]; [discriminate|].
  injection Hrs as <-.
  exists ps, cols, nt, rows. split_and!; try done.
  intros ->. done.
Qed.

(** X15.  When [_makeNamedTuple] returns, the buffer is a result set
    that holds the cells the buffer held, row by row in the same order; it
    is not empty, [count] and the set's count are its number of rows, the
    set's total is the controller's total count, its index is the index
    given (0 for none), and its columns are the controller's new columns,
    built from the parameter list. *)
Theorem makeNamedTuple_returns env index s u s' w :
  _makeNamedTuple env index s = (Ok u, s', w) ->
  exists rs ps,
    results s' = Paged rs
    /\ row_values <$> rs_rows rs = item_values <$> buffer_items (results s)
    /\ rs_rows rs <> []
    /\ count s' = Z.of_nat (length (rs_rows rs))
    /\ rs_count rs = count s'
    /\ rs_total rs = totalcount s
    /\ rs_index rs = default 0 index
    /\ rs_columns rs = columns s'
    /\ _params s = Some ps
    /\ parameter_group env ps = Some (columns s').
Proof.
  intros (ps & cols & nt & rows & Hps & Hcols & _ & Hrows & Hne & -> & _)%makeNamedTuple_ok.
  eexists _, ps. split_and!; try reflexivity; try done.
  cbn [rs_rows results set_results set_count set_columns].
  destruct (results s) as [l|rs0].
  - by apply new_rows_cells in Hrows as [-> _].
  - injection Hrows as <-. by rewrite buffer_cells_paged.
Qed.

Lemma makeNamedTuple_returns_witness :
  exists rs (ps : list string),
    results Demo.local_ctl = Paged rs
    /\ row_values <$> rs_rows rs = Demo.window 0 5
    /\ rs_total rs = 7.
Proof.
  destruct (makeNamedTuple_returns Demo.env_up None (Demo.fresh local (QLive 0%nat) 5 7)
              tt Demo.local_ctl [] eq_refl)
    as (rs & ps & Hrs & Hcells & _ & _ & _ & Htotal & _).
  exists rs, ps. split; [exact Hrs|]. split; [|exact Htotal].
  rewrite Hcells. vm_compute. reflexivity.
Defined.

(** X16.  [_makeNamedTuple] cannot build an empty result set: with no
    row in the buffer it ends in an exception, the division by zero of the
    page count when the columns and the row class could be built, and by
    then [count] is 0. *)
Theorem makeNamedTuple_empty_buffer env index s :
  buffer_items (results s) = [] ->
  raises (_makeNamedTuple env index s)
  /\ (forall ps cols nt,
        _params s = Some ps -> parameter_group env ps = Some cols ->
        marvintuple (field_name_ok env) "ResultRow" (col_remote <$> cols)
          (Some (ref_of (set_columns cols s))) = Ok nt ->
        _makeNamedTuple env index s
        = (Raise ZeroDivisionError, set_count 0 (set_columns cols s), [])).
Proof.
  intros Hempty. split.
  - destruct (_makeNamedTuple env index s) as [[[u|e] s'] w] eqn:Hrun; [|by exists e].
    apply makeNamedTuple_ok in Hrun
      as (ps & cols & nt & rows & _ & _ & _ & Hrows & Hne & _).
    destruct (results s) as [l|rs0]; cbn [buffer_items] in Hempty.
    + subst l. cbn in Hrows. by injection Hrows as <-.
    + injection Hrows as <-. by apply fmap_nil_inv in Hempty.
  - intros ps cols nt Hps Hcols Hnt.
    unfold _makeNamedTuple, getColumns. rewrite !run_bind. cbn [get].
    rewrite Hps, Hcols.
    rewrite run_bind. cbn [modify mret M_ret].
    repeat (rewrite run_bind; cbn [get lift]).
    rewrite Hnt.
    repeat (rewrite run_bind; cbn [get lift]).
    change (results (set_columns cols s)) with (results s).
    assert (Hrows : match results s with
            | Plain l => res_mapM (fun r => new_row nt (item_values r)) l
            | Paged rs => Ok (rs_rows rs)
            end = Ok []).
    { destruct (results s) as [l|rs0]; cbn [buffer_items] in Hempty.
      - by subst l.
      - by apply fmap_nil_inv in Hempty as ->. }
    rewrite Hrows.
    repeat (rewrite run_bind; cbn [get lift modify]).
    reflexivity.
Qed.

(** A controller whose first page came back empty. *)
Lemma makeNamedTuple_empty_buffer_witness :
  raises (_makeNamedTuple Demo.env_up None (Demo.fresh local (QLive 0%nat) 0 7)).
Proof.
  apply (makeNamedTuple_empty_buffer Demo.env_up None (Demo.fresh local (QLive 0%nat) 0 7)).
  reflexivity.
Defined.

(** ** The rows of a page *)

Lemma makeNamedTuple_cells env index s u s' w :
  _makeNamedTuple env index s = (Ok u, s', w) ->
  item_values <$> buffer_items (results s') = item_values <$> buffer_items (results s)
  /\ count s' = buffer_len (results s').
Proof.
  intros (ps & cols & nt & rows & _ & _ & _ & Hrows & _ & -> & _)%makeNamedTuple_ok.
  cbn [results set_results count set_count set_columns]. rewrite buffer_cells_paged.
  cbn [rs_rows]. split.
  - destruct (results s) as [l|rs0].
    + by apply new_rows_cells in Hrows as [-> _].
    + injection Hrows as <-. by rewrite buffer_cells_paged.
  - unfold buffer_len. cbn. by rewrite length_fmap.
Qed.

Lemma raw_cells (l : list (list value)) : item_values <$> (Raw <$> l) = l.
Proof. rewrite <- list_fmap_compose. apply list_fmap_id. Qed.

Lemma grab_chunk_local_cells env calltype a b s q u s' w :
  mode s = local -> query s = QLive q ->
  grab_chunk env calltype a b s = (Ok u, s', w) ->
  item_values <$> buffer_items (results s') = slice_all env q a b.
Proof.
  intros Hmode Hq. unfold grab_chunk. rewrite run_bind. cbn [get].
  rewrite Hmode, Hq. repeat (rewrite run_bind; cbn [get modify]).
  set (s1 := set_results _ s).
  assert (Hcells : item_values <$> buffer_items (results s1) = slice_all env q a b)
    by apply raw_cells.
  destruct (buffer_nonempty (results s1)).
  - destruct (_makeNamedTuple env (Some a) s1) as [[[v|e] s2] w2] eqn:Hnt; [|discriminate].
    apply makeNamedTuple_cells in Hnt as [Hnt _]. cbn. intros [= _ <- _]. congruence.
  - cbn. intros [= _ <- _]. done.
Qed.

(** X17.  In local mode a returning paging call leaves in the buffer
    exactly the rows the query gives for the new window, cell by cell and
    in the query's order: for [getSubset] the window from the start asked
    for, for [getNext] the window after the old one, cut at the total
    count, for [getPrevious] the window before the old one, cut at 0. *)
Theorem local_page_holds_query_rows env s q b s' w :
  mode s = local -> query s = QLive q ->
  (forall start_arg limit_arg,
     getSubset env start_arg limit_arg s = (Ok b, s', w) ->
     item_values <$> buffer_items b
     = slice_all env q (Z.max 0 start_arg) (Z.max 0 start_arg + subset_limit s limit_arg))
  /\ (forall c, totalcount s <> count s ->
     getNext env c s = (Ok b, s', w) ->
     item_values <$> buffer_items b
     = slice_all env q (end_ s) (Z.min (end_ s + stepping_chunk s c) (totalcount s)))
  /\ (forall c, totalcount s <> count s ->
     getPrevious env c s = (Ok b, s', w) ->
     item_values <$> buffer_items b
     = slice_all env q (Z.max 0 (start s - stepping_chunk s c)) (start s)).
Proof.
  intros Hmode Hq. split_and!.
  - intros start_arg limit_arg.
    unfold getSubset. rewrite run_bind. cbn [get]. rewrite run_bind.
    destruct (subset_limit_run s limit_arg) as [wl ->].
    replace (if decide (start_arg < 0) then 0 else start_arg) with (Z.max 0 start_arg)
      by (destruct (decide _); lia).
    set (L := subset_limit s limit_arg). set (S0 := Z.max 0 start_arg).
    do 4 (rewrite run_bind; cbn [modify get]).
    set (s1 := set_chunk L (set_end_ (S0 + L) (set_start S0 s))).
    destruct (grab_chunk env "getSubset" S0 (S0 + L) s1) as [[[u|e] sg] wg] eqn:Hg;
      [|discriminate].
    apply (grab_chunk_local_cells _ _ _ _ _ q) in Hg; [|done|done].
    unfold reconvert, mbind, M_bind, mret, M_ret, modify, get, raise. cbn.
    destruct (truthy (returntype sg)); cbn; [discriminate|].
    intros [= <- _ _]. done.
  - intros c Hmore. unfold getNext. rewrite run_bind.
    destruct (check_chunk_run s c) as (c' & w0 & -> & Hstep).
    rewrite run_bind. cbn [get]. rewrite run_bind, store_chunk_run, Hstep.
    set (s1 := set_chunk (stepping_chunk s c) s).
    rewrite run_bind. cbn [get].
    destruct (decide (totalcount s1 = count s1)) as [Hall|_]; [by cbn in Hall|].
    change (totalcount s1) with (totalcount s) in *.
    change (chunk s1) with (stepping_chunk s c).
    change (end_ s1) with (end_ s).
    rewrite run_bind.
    set (bounds := if decide (end_ s + stepping_chunk s c > totalcount s)
                   then (end_ s, totalcount s)
                   else (end_ s, end_ s + stepping_chunk s c)).
    assert (Hb : exists wb,
      (if decide (end_ s + stepping_chunk s c > totalcount s)
       then warn ReachedEnd ≫= (fun _ => mret (end_ s, totalcount s))
       else mret (end_ s, end_ s + stepping_chunk s c)) s1 = (Ok bounds, s1, wb)).
    { unfold bounds. destruct (decide _); eexists; reflexivity. }
    destruct Hb as [wb ->].
    assert (Hbounds : bounds = (end_ s, Z.min (end_ s + stepping_chunk s c) (totalcount s))).
    { unfold bounds. destruct (decide _); f_equal; lia. }
    rewrite Hbounds. clear bounds Hbounds.
    rewrite run_bind.
    destruct (grab_chunk env "getNext" _ _ s1) as [[[u|e] sg] wg] eqn:Hg; [|discriminate].
    apply (grab_chunk_local_cells _ _ _ _ _ q) in Hg; [|done|done].
    unfold reconvert, mbind, M_bind, mret, M_ret, modify, get, raise. cbn.
    destruct (truthy (returntype sg)); cbn; [discriminate|].
    intros [= <- _ _]. done.
  - intros c Hmore. unfold getPrevious. rewrite run_bind.
    destruct (check_chunk_run s c) as (c' & w0 & -> & Hstep).
    rewrite run_bind. cbn [get]. rewrite run_bind, store_chunk_run, Hstep.
    set (s1 := set_chunk (stepping_chunk s c) s).
    rewrite run_bind. cbn [get].
    destruct (decide (totalcount s1 = count s1)) as [Hall|_]; [by cbn in Hall|].
    change (chunk s1) with (stepping_chunk s c).
    change (start s1) with (start s).
    rewrite run_bind.
    set (bounds := if decide (start s - stepping_chunk s c < 0)
                   then (0, start s)
                   else (start s - stepping_chunk s c, start s)).
    assert (Hb : exists wb,
      (if decide (start s - stepping_chunk s c < 0)
       then warn ReachedBeginning ≫= (fun _ => mret (0, start s))
       else mret (start s - stepping_chunk s c, start s)) s1 = (Ok bounds, s1, wb)).
    { unfold bounds. destruct (decide _); eexists; reflexivity. }
    destruct Hb as [wb ->].
    assert (Hbounds : bounds = (Z.max 0 (start s - stepping_chunk s c), start s)).
    { unfold bounds. destruct (decide _); f_equal; lia. }
    rewrite Hbounds. clear bounds Hbounds.
    rewrite run_bind.
    destruct (grab_chunk env "getPrevious" _ _ s1) as [[[u|e] sg] wg] eqn:Hg; [|discriminate].
    apply (grab_chunk_local_cells _ _ _ _ _ q) in Hg; [|done|done].
    unfold reconvert, mbind, M_bind, mret, M_ret, modify, get, raise. cbn.
    destruct (truthy (returntype sg)); cbn; [discriminate|].
    intros [= <- _ _]. done.
Qed.

(** Rows 2, 3 and 4 of the seven galaxies. *)
Lemma local_page_holds_query_rows_witness :
  let o := getSubset Demo.env_up 2 (Some 3) Demo.local_ctl in
  item_values <$> buffer_items (results (final o)) = Demo.window 2 5.
Proof.
  intros o.
  destruct (local_page_holds_query_rows Demo.env_up Demo.local_ctl 0%nat
              (results (final o)) (final o) (warned o) eq_refl eq_refl) as [Hsubset _].
  rewrite (Hsubset 2 (Some 3)); [reflexivity|]. vm_compute. reflexivity.
Defined.

(** ** Fetching everything *)

(** What a returning [_interaction] that builds rows leaves in the
    buffer. *)
Lemma interaction_named_cells env url rq calltype index s r s' w :
  _interaction env url rq calltype true index s = (Ok r, s', w) ->
  exists rq' ii,
    interaction env url rq' = Some ii
    /\ rq_return_all rq' = rq_return_all rq
    /\ item_values <$> buffer_items (results s') = rsp_data ii
    /\ count s' = buffer_len (results s').
Proof.
  unfold _interaction.
  match goal with |- context [interaction env url ?p] =>
    set (rq' := p); destruct (interaction env url rq') as [ii|] eqn:Hii
  end; [|discriminate].
  do 4 (rewrite run_bind; cbn [modify]).
  rewrite run_bind.
  match goal with |- context [_makeNamedTuple env index ?s1] =>
    destruct (_makeNamedTuple env index s1) as [[[v|e] s2] w2] eqn:Hnt
  end; [|discriminate].
  apply makeNamedTuple_cells in Hnt as [Hcells Hcount].
  cbn [results set_results buffer_items] in Hcells. rewrite raw_cells in Hcells.
  cbn. intros [= _ <- _]. exists rq', ii. split_and!; [done| |done|done].
  unfold rq'. by destruct (rq_params rq).
Qed.

(** X18.  When [getAll] returns, the controller is not oversized.  In
    local mode the buffer holds every row of the query, cell by cell, and
    [count] is their number.  In remote mode the buffer holds the rows of
    the response to a request for all rows, and [count] is set to the total
    count, whatever the number of rows in the response. *)
Theorem getAll_returns env s u s' w :
  getAll env s = (Ok u, s', w) ->
  totalcount s <= 500000 /\ Z.of_nat (length (columns s)) <= 25
  /\ (mode s = local -> exists q,
        query s = QLive q
        /\ item_values <$> buffer_items (results s') = from_self_all env q
        /\ count s' = Z.of_nat (length (from_self_all env q)))
  /\ (mode s = remote -> exists um rq ii,
        urlmap env = Some um
        /\ interaction env (url_querycubes um) rq = Some ii
        /\ rq_return_all rq = true
        /\ item_values <$> buffer_items (results s') = rsp_data ii
        /\ count s' = totalcount s).
Proof.
  unfold getAll. rewrite run_bind. cbn [get].
  destruct (bool_decide (totalcount s > 500000)) eqn:Hrows; [discriminate|].
  destruct (bool_decide (Z.of_nat (length (columns s)) > 25)) eqn:Hcols; [discriminate|].
  cbn [orb]. apply bool_decide_eq_false in Hrows, Hcols.
  intros Hrun. split; [lia|]. split; [lia|]. revert Hrun.
  destruct (mode s) eqn:Hmode.
  - destruct (query s) as [|sql|q]; [discriminate|discriminate|].
    rewrite run_bind. cbn [modify].
    destruct (_makeNamedTuple env None _) as [[[v|e] s2] w2] eqn:Hnt; [|discriminate].
    apply makeNamedTuple_cells in Hnt as [Hcells Hcount].
    cbn. intros [= _ <- _]. split; [|done]. intros _. exists q.
    cbn [results set_results buffer_items] in Hcells. rewrite raw_cells in Hcells.
    split_and!; [done|done|].
    rewrite Hcount. unfold buffer_len. rewrite <- Hcells. by rewrite !length_fmap.
  - destruct (urlmap env) as [um|]; [|discriminate].
    rewrite run_bind.
    match goal with |- context [_interaction env ?url ?rq ?ct true None s] =>
      pose proof (fetch_only_interaction env url rq ct true None s) as Hframe;
      destruct (_interaction env url rq ct true None s) as [[[r|e] s1] w1] eqn:Hint
    end; [|discriminate].
    cbn [final fst snd] in Hframe.
    apply beside_fetch_inv in Hframe as (Htot & _).
    apply interaction_named_cells in Hint as (rq' & ii & Hii & Hall & Hcells & _).
    unfold mbind, M_bind, mret, M_ret, modify, get. cbn.
    intros [= _ <- _]. split; [done|]. intros _.
    exists um, rq', ii. cbn. split_and!; done.
  - cbn. intros _. split; discriminate.
Qed.

Lemma getAll_returns_witness :
  let o := getAll Demo.env_up Demo.remote_ctl in
  count (final o) = 7.
Proof.
  intros o.
  destruct (getAll_returns Demo.env_up Demo.remote_ctl tt (final o) (warned o))
    as (_ & _ & _ & Hremote).
  - vm_compute. reflexivity.
  - destruct (Hremote eq_refl) as (um & rq & ii & _ & _ & _ & _ & Hcount).
    rewrite Hcount. reflexivity.
Defined.

Lemma makeNamedTuple_raise_keeps_buffer env index s e s' w :
  _makeNamedTuple env index s = (Raise e, s', w) -> results s' = results s.
Proof.
  unfold _makeNamedTuple, getColumns. rewrite !run_bind. cbn [get].
  destruct (_params s) as [ps|]; [|by intros [= _ <- _]].
  destruct (parameter_group env ps) as [cols|]; [|by intros [= _ <- _]].
  rewrite run_bind. cbn [modify mret M_ret].
  repeat (rewrite run_bind; cbn [get lift]).
  destruct (marvintuple _ _ _ _) as [nt|]; [|by intros [= _ <- _]].
  repeat (rewrite run_bind; cbn [get lift]).
  destruct (match results (set_columns cols s) with
            | Plain l => res_mapM (fun r => new_row nt (item_values r)) l
            | Paged rs => Ok (rs_rows rs)
            end) as [rows|]; [|by intros [= _ <- _]].
  repeat (rewrite run_bind; cbn [get lift modify]).
  destruct (new_ResultSet _ _ _ _ _) as [rs|]; [discriminate|].
  by intros [= _ <- _].
Qed.

(** X19.  [getAll] has no guard for a query without rows: in local mode,
    for a controller that is not oversized, it ends in an exception and
    leaves the empty list in the buffer. *)
Theorem getAll_local_empty_query env s q :
  mode s = local -> query s = QLive q ->
  totalcount s <= 500000 -> Z.of_nat (length (columns s)) <= 25 ->
  from_self_all env q = [] ->
  raises (getAll env s) /\ results (final (getAll env s)) = Plain [].
Proof.
  intros Hmode Hq Hrows Hcols Hempty.
  unfold getAll. rewrite run_bind. cbn [get].
  rewrite !bool_decide_eq_false_2 by lia. cbn [orb]. rewrite Hmode, Hq, Hempty.
  rewrite run_bind. cbn [modify fmap list_fmap].
  destruct (_makeNamedTuple env None _) as [[[v|e] s2] w2] eqn:Hnt.
  - apply makeNamedTuple_ok in Hnt as (ps & cols & nt & rows & _ & _ & _ & Hnone & Hne & _).
    cbn in Hnone. by injection Hnone as <-.
  - apply makeNamedTuple_raise_keeps_buffer in Hnt. cbn. split; [by exists e|done].
Qed.

(** A local controller over a data source without rows. *)
Lemma getAll_local_empty_query_witness :
  outcome (getAll env_empty Demo.local_ctl) = Raise ZeroDivisionError
  /\ results (final (getAll env_empty Demo.local_ctl)) = Plain [].
Proof.
  destruct (getAll_local_empty_query env_empty Demo.local_ctl 0%nat
              eq_refl eq_refl) as [_ Hbuffer].
  - vm_compute. discriminate.
  - vm_compute. discriminate.
  - reflexivity.
  - split; [vm_compute; reflexivity|exact Hbuffer].
Defined.

(** ** Dictionaries of a result set *)

Lemma kv_get_set {V} k (v : V) d f :
  kv_get f (kv_set k v d) = if decide (f = k) then Some v else kv_get f d.
Proof.
  induction d as [|[k' v'] d IH]; simpl.
  - done.
  - destruct (decide (k = k')) as [->|Hne]; simpl.
    + destruct (decide (f = k')); done.
    + rewrite IH. destruct (decide (f = k')) as [->|]; [|done].
      rewrite decide_False by done. done.
Qed.

(** A key of a comprehension holds the value computed for it; the other
    keys are those of the dictionary it started from. *)
Lemma comprehension_get {V} (f : string -> V + DictExn) keys acc d k :
  comprehension f keys acc = inl d ->
  kv_get k d = if decide (k ∈ keys)
               then match f k with inl v => Some v | inr _ => None end
               else kv_get k acc.
Proof.
  revert acc. induction keys as [|k0 keys IH]; intros acc; cbn [comprehension].
  - intros [= <-]. rewrite decide_False by apply not_elem_of_nil. done.
  - destruct (f k0) as [v|err] eqn:Hk0; [|discriminate].
    intros Hrun. rewrite (IH _ Hrun). rewrite kv_get_set.
    destruct (decide (k ∈ keys)) as [Hin|Hnin].
    + rewrite decide_True by (by apply list_elem_of_further). done.
    + destruct (decide (k = k0)) as [->|Hne].
      * rewrite decide_True by apply list_elem_of_here. by rewrite Hk0.
      * rewrite decide_False; [done|]. rewrite elem_of_cons. tauto.
Qed.

Lemma comprehension_defined {V} (f : string -> V + DictExn) keys acc d k :
  comprehension f keys acc = inl d -> k ∈ keys -> exists v, f k = inl v.
Proof.
  revert acc. induction keys as [|k0 keys IH]; intros acc; cbn [comprehension].
  - intros _ Hin. by apply elem_of_nil in Hin.
  - destruct (f k0) as [v|err] eqn:Hk0; [|discriminate].
    intros Hrun [->|Hin]%elem_of_cons; [by exists v|]. by eapply IH.
Qed.

Lemma each_lookup {A B} (f : A -> B + DictExn) xs ys :
  each f xs = inl ys ->
  length ys = length xs
  /\ forall i, match xs !! i, ys !! i with
               | Some x, Some y => f x = inl y
               | None, None => True
               | _, _ => False
               end.
Proof.
  revert ys. induction xs as [|x xs IH]; intros ys; cbn [each].
  - intros [= <-]. split; [done|]. by intros [|i].
  - destruct (f x) as [y|err] eqn:Hx; [|discriminate].
    destruct (each f xs) as [ys'|err]; [|discriminate].
    intros [= <-]. destruct (IH ys' eq_refl) as [Hlen Hall].
    split; [cbn; by rewrite Hlen|]. intros [|i]; [done|]. apply Hall.
Qed.

(** X20.  The two formats of [to_dict] hold the same cells: when both
    the list of dictionaries and the dictionary of lists can be built for
    a result set, there is one dictionary per row, and the dictionary of
    row [i] holds under a key what the list under that key holds at [i]. *)
Theorem to_dict_formats_agree rs name L D :
  to_dict rs name "listdict" = inl (ListDict L) ->
  to_dict rs name "dictlist" = inl (DictList D) ->
  length L = length (rs_rows rs)
  /\ forall i d k, L !! i = Some d ->
       kv_get k d = kv_get k D ≫= (fun cells => cells !! i).
Proof.
  unfold to_dict. cbn [String.eqb Ascii.eqb Bool.eqb].
  set (wanted := if truthy name then [default "" name] else col_remote <$> rs_columns rs).
  destruct (each _ (rs_rows rs)) as [out|] eqn:Hrows; [|discriminate].
  intros [= <-].
  destruct (comprehension _ wanted []) as [cols|] eqn:Hcols; [|discriminate].
  intros [= <-].
  apply each_lookup in Hrows as [Hlen Hrows]. split; [done|].
  intros i d k Hd. specialize (Hrows i). rewrite Hd in Hrows.
  destruct (rs_rows rs !! i) as [r|] eqn:Hr; [|done].
  rewrite (comprehension_get _ _ _ _ k Hrows), (comprehension_get _ _ _ _ k Hcols).
  destruct (decide (k ∈ wanted)) as [Hin|]; [|done].
  destruct (comprehension_defined _ _ _ _ k Hcols Hin) as [cells Hcells].
  rewrite Hcells.
  apply each_lookup in Hcells as [_ Hcells]. specialize (Hcells i).
  rewrite Hr in Hcells. cbn [mbind option_bind].
  destruct (cells !! i) as [v|]; [|done].
  unfold cell_by_key in Hcells. unfold cell_by_attribute.
  destruct (od_get k (_asdict r)); [|discriminate]. by injection Hcells as <-.
Qed.

Lemma to_dict_formats_agree_witness :
  exists L D,
    to_dict sample_set None "listdict" = inl (ListDict L)
    /\ to_dict sample_set None "dictlist" = inl (DictList D)
    /\ length L = 2%nat
    /\ forall i d k, L !! i = Some d ->
         kv_get k d = kv_get k D ≫= (fun cells => cells !! i).
Proof.
  eexists _, _. split; [vm_compute; reflexivity|]. split; [vm_compute; reflexivity|].
  apply (to_dict_formats_agree sample_set None); vm_compute; reflexivity.
Defined.

(** ** Subscripting a result set *)

Lemma each_cells_by_key rows k cells :
  each (fun r => cell_by_key r k) rows = inl cells ->
  res_mapM (fun r => row_getattr r k) rows = Ok cells.
Proof.
  revert cells. induction rows as [|r rows IH]; intros cells; cbn [each res_mapM].
  - by intros [= <-].
  - unfold cell_by_key at 1, row_getattr at 1.
    destruct (od_get k (_asdict r)) as [v|]; [|discriminate].
    destruct (each _ rows) as [vs|err]; [|discriminate].
    intros [= <-]. cbn [res_bind]. rewrite (IH vs eq_refl). done.
Qed.

(** X21.  Subscripting a result set with a column name gives the column
    that [to_dict] gives in the dictionary of lists, unwrapped: the list of
    cells when there are two or more rows, the bare cell when there is one
    row, and a [ValueError] when there is none. *)
Theorem getitem_column_is_dictlist_column rs name c D :
  resolve_column (rs_columns rs) name = Some c ->
  to_dict rs (Some (col_remote c)) "dictlist" = inl (DictList D) ->
  exists cells,
    kv_get (col_remote c) D = Some cells
    /\ length cells = length (rs_rows rs)
    /\ ResultSet_getitem rs (ByName name)
       = match cells with
         | [] => Raise ValueError
         | [v] => Ok (OneCell v)
         | _ => Ok (Cells cells)
         end.
Proof.
  intros Hc. unfold to_dict. cbn [String.eqb Ascii.eqb Bool.eqb].
  set (wanted := if truthy (Some (col_remote c)) then [default "" (Some (col_remote c))]
                 else col_remote <$> rs_columns rs).
  assert (Hin : col_remote c ∈ wanted).
  { unfold wanted. destruct (truthy _); [apply list_elem_of_here|].
    apply list_elem_of_fmap. exists c. split; [done|].
    unfold resolve_column in Hc. apply find_some in Hc as [Hc _].
    by apply list_elem_of_In. }
  destruct (comprehension _ wanted []) as [cols|] eqn:Hcols; [|discriminate].
  intros [= <-].
  destruct (comprehension_defined _ _ _ _ _ Hcols Hin) as [cells Hcells].
  exists cells. split_and!.
  - rewrite (comprehension_get _ _ _ _ (col_remote c) Hcols).
    rewrite decide_True by done. by rewrite Hcells.
  - by apply each_lookup in Hcells as [? _].
  - cbn [ResultSet_getitem]. rewrite Hc.
    rewrite (each_cells_by_key _ _ _ Hcells). cbn [res_bind]. unfold one_or_all.
    by destruct cells as [|v [|v' cells]].
Qed.

Lemma getitem_column_is_dictlist_column_witness :
  ResultSet_getitem sample_set (ByName "plateifu")
  = Ok (Cells [VStr "8485-3701"; VStr "8485-3702"]).
Proof.
  destruct (getitem_column_is_dictlist_column sample_set "plateifu"
              (Demo.plain_column "plateifu")
              [("plateifu", [VStr "8485-3701"; VStr "8485-3702"])] eq_refl eq_refl)
    as (cells & Hcol & _ & Hget).
  injection Hcol as <-. exact Hget.
Defined.

(** ** Sorting in place *)

Lemma insert_by_perm {A} (lt : A -> A -> bool) x l : insert_by lt x l ≡ₚ x :: l.
Proof.
  induction l as [|y l IH]; cbn [insert_by]; [done|].
  destruct (lt y x); [|done]. rewrite IH. apply Permutation_swap.
Qed.

Lemma stable_sort_perm {A} (lt : A -> A -> bool) l : stable_sort lt l ≡ₚ l.
Proof.
  unfold stable_sort. induction l as [|x l IH]; cbn [foldr]; [done|].
  rewrite insert_by_perm. by rewrite IH.
Qed.

Lemma keyed_rows (key : Row -> res value) rows keyed :
  res_mapM (fun r => res_bind (key r) (fun k => Ok (k, r))) rows = Ok keyed ->
  keyed.*2 = rows.
Proof.
  revert keyed. induction rows as [|r rows IH]; intros keyed; cbn [res_mapM].
  - by intros [= <-].
  - destruct (key r) as [k|]; cbn [res_bind]; [|discriminate].
    destruct (res_mapM _ rows) as [ks|]; cbn [res_bind]; [|discriminate].
    intros [= <-]. rewrite fmap_cons. cbn [snd]. by rewrite (IH ks eq_refl).
Qed.

(** A sorted result set holds the same rows and the same attributes. *)
Lemma ResultSet_sort_perm env rs name reverse rs' :
  ResultSet_sort env rs name reverse = Ok rs' ->
  rs_rows rs' ≡ₚ rs_rows rs
  /\ (rs_count rs', rs_total rs', rs_pages rs', rs_index rs', rs_columns rs')
     = (rs_count rs, rs_total rs, rs_pages rs, rs_index rs, rs_columns rs).
Proof.
  unfold ResultSet_sort. destruct (negb (String.eqb name "")).
  - destruct (resolve_column (rs_columns rs) name) as [c|]; [|discriminate].
    destruct (res_mapM _ (rs_rows rs)) as [keyed|] eqn:Hkeyed; cbn [res_bind];
      [|discriminate].
    intros [= <-]. cbn [rs_rows rs_count rs_total rs_pages rs_index rs_columns].
    split; [|done]. apply keyed_rows in Hkeyed. rewrite <- Hkeyed.
    apply fmap_Permutation, stable_sort_perm.
  - intros [= <-]. cbn [rs_rows rs_count rs_total rs_pages rs_index rs_columns].
    split; [apply stable_sort_perm|done].
Qed.

(** X22.  In local mode a returning [sort] rearranges the rows and does
    nothing else to them: the buffer holds the same rows, each as often as
    before, in a result set with the same count, total, pages, index and
    columns.  The controller records the remote name of the column and the
    order asked for, and keeps its count, window and everything else. *)
Theorem local_sort_permutes env name order_arg s b s' w :
  mode s = local ->
  sort env name order_arg s = (Ok b, s', w) ->
  exists c rs rs',
    resolve_column (columns s) name = Some c
    /\ results s = Paged rs /\ b = Paged rs'
    /\ rs_rows rs' ≡ₚ rs_rows rs
    /\ (rs_count rs', rs_total rs', rs_pages rs', rs_index rs', rs_columns rs')
       = (rs_count rs, rs_total rs, rs_pages rs, rs_index rs, rs_columns rs)
    /\ s' = set_results b
              (set_order (Some order_arg) (set_sortcol (Some (col_remote c)) s))
    /\ w = [].
Proof.
  intros Hmode. unfold sort, _check_column. rewrite !run_bind. cbn [get].
  destruct (resolve_column (columns s) name) as [c|]; [|discriminate].
  cbn [mret M_ret]. do 3 (rewrite run_bind; cbn [modify get]).
  rewrite run_bind.
  change (mode (set_order (Some order_arg) (set_sortcol (Some (col_remote c)) s)))
    with (mode s).
  change (results (set_order (Some order_arg) (set_sortcol (Some (col_remote c)) s)))
    with (results s).
  rewrite Hmode.
  destruct (results s) as [l|rs] eqn:Hresults; [discriminate|].
  rewrite run_bind.
  destruct (ResultSet_sort env rs (col_remote c) _) as [rs'|] eqn:Hsort; cbn [lift];
    [|discriminate].
  apply ResultSet_sort_perm in Hsort as [Hperm Hattrs].
  cbn. intros [= <- <- <-]. exists c, rs, rs'. split_and!; done.
Qed.

(** The first page sorted by plateifu, in descending order. *)
Lemma local_sort_permutes_witness :
  let o := sort Demo.env_up "plateifu" "desc" Demo.local_ctl in
  exists rs rs',
    results Demo.local_ctl = Paged rs /\ results (final o) = Paged rs'
    /\ rs_rows rs' ≡ₚ rs_rows rs
    /\ sortcol (final o) = Some "plateifu".
Proof.
  intros o.
  destruct (local_sort_permutes Demo.env_up "plateifu" "desc" Demo.local_ctl
              (results (final o)) (final o) (warned o) eq_refl)
    as (c & rs & rs' & Hc & Hrs & Hb & Hperm & _ & Hs' & _).
  - vm_compute. reflexivity.
  - exists rs, rs'. split; [exact Hrs|]. split; [exact Hb|]. split; [exact Hperm|].
    vm_compute. reflexivity.
Defined.

(** ** Saving: the cases *)

(** X23.  A save that is refused leaves the disk as it was but not the
    controller.  When the target is a directory, [save] raises
    [MarvinError]; when the target exists and [overwrite] is off, it warns
    that the file exists and returns nothing.  In both cases no path of
    the disk changes, and the controller has already lost its query
    object and its non-literal query. *)
Theorem save_refused_keeps_disk {Archive} (os : Storage Archive) path overwrite s
    (d : gmap string (node Archive)) :
  let p := save_target os path s in
  (d !! p = Some Dir ->
     save os path overwrite (s, d)
     = (Raise (MarvinError "path must be a full route, including the filename."),
        (saved_form s, d), []))
  /\ (forall a, d !! p = Some (File a) -> overwrite = false ->
     save os path overwrite (s, d) = (Ok None, (saved_form s, d), [FileExists])).
Proof.
  intros p. split.
  - intros Hdir. rewrite save_cases. fold p. unfold isdir. by rewrite Hdir.
  - intros a Hfile ->. rewrite save_cases. fold p. unfold isdir, exists_path.
    by rewrite Hfile.
Qed.

(** Saving to the path of an earlier archive. *)
Lemma save_refused_keeps_disk_witness :
  save Demo.keep_all (Some "/data/results") false (Demo.local_ctl, old_disk)
  = (Ok None, (saved_form Demo.local_ctl, old_disk), [FileExists]).
Proof.
  destruct (save_refused_keeps_disk Demo.keep_all (Some "/data/results") false
              Demo.local_ctl old_disk) as [_ Hfile].
  apply (Hfile Demo.remote_ctl); [vm_compute; reflexivity|reflexivity].
Defined.

(** X24.  When the target cannot be written, because its directory is
    not a directory when the file is opened or because pickling fails,
    [save] raises [MarvinError] and leaves no file at the target, not even
    the file that was there before the call.  When the directory existed,
    no other path of the disk has changed. *)
Theorem save_pickle_failure_removes_file {Archive} (os : Storage Archive) path overwrite s
    (d : gmap string (node Archive)) :
  let p := save_target os path s in
  let made := ensure_dir os d (dirname os p) in
  let o := save os path overwrite (s, d) in
  d !! p <> Some Dir ->
  overwrite = true \/ d !! p = None ->
  made.2 = true ->
  isdir made.1 (dirname os p) = false \/ pickle_dump os (saved_form s) = None ->
  outcome o = Raise (MarvinError "Error found while pickling")
  /\ (final o).2 = delete p made.1
  /\ (final o).2 !! p = None
  /\ (exists_path d (dirname os p) = true ->
      forall p', p' <> p -> (final o).2 !! p' = d !! p').
Proof.
  intros p made o Hnodir Hwrite Hmade Hfails. unfold o. rewrite save_cases.
  fold p. fold made.
  assert (Hisdir : isdir d p = false).
  { unfold isdir. destruct (d !! p) as [[|a]|]; done. }
  assert (Hexists : exists_path d p && negb overwrite = false).
  { destruct Hwrite as [->|Hnone]; [apply andb_false_r|].
    unfold exists_path. by rewrite Hnone. }
  rewrite Hisdir, Hexists, Hmade. cbn [negb].
  assert (Hnone : (if isdir made.1 (dirname os p) then pickle_dump os (saved_form s)
                   else None) = None).
  { destruct Hfails as [Hf|Hf].
    - by rewrite Hf.
    - rewrite Hf. destruct (isdir made.1 (dirname os p)); reflexivity. }
  rewrite Hnone. cbn [outcome final fst snd]. split_and!; [done|done| |].
  - apply lookup_delete_eq.
  - intros Hdir p' Hp. rewrite lookup_delete_ne by done.
    unfold made, ensure_dir. by rewrite Hdir.
Qed.

(** An overwrite that fails destroys the earlier archive. *)
Lemma save_pickle_failure_removes_file_witness :
  let o := save failing_pickle (Some "/data/results") true (Demo.local_ctl, old_disk) in
  old_disk !! "/data/results.mpf" = Some (File Demo.remote_ctl)
  /\ outcome o = Raise (MarvinError "Error found while pickling")
  /\ (final o).2 !! "/data/results.mpf" = None.
Proof.
  intros o. split; [vm_compute; reflexivity|].
  destruct (save_pickle_failure_removes_file failing_pickle (Some "/data/results") true
              Demo.local_ctl old_disk) as (Hout & _ & Hgone & _).
  - vm_compute. discriminate.
  - left. reflexivity.
  - vm_compute. reflexivity.
  - right. reflexivity.
  - split; [exact Hout|exact Hgone].
Defined.

(** X25.  A save that returns a path has written to the target computed
    from its arguments: the path returned is that target, which was not a
    directory and was free unless [overwrite] was on; its directory was
    there or [os.makedirs] made it without raising, and it is a directory;
    the disk is the one [os.makedirs] left, if it was called, with the
    pickle of the controller at the target; when the directory existed no
    path other than the target has changed; and no warning was issued. *)
Theorem save_writes_target_only {Archive} (os : Storage Archive) path overwrite s
    (d : gmap string (node Archive)) p s' d' w :
  save os path overwrite (s, d) = (Ok (Some p), (s', d'), w) ->
  let made := ensure_dir os d (dirname os p) in
  p = save_target os path s
  /\ d !! p <> Some Dir
  /\ (overwrite = true \/ d !! p = None)
  /\ made.2 = true
  /\ isdir made.1 (dirname os p) = true
  /\ (exists a, pickle_dump os s' = Some a /\ d' = <[p := File a]> made.1)
  /\ (exists_path d (dirname os p) = true ->
      forall p', p' <> p -> d' !! p' = d !! p')
  /\ w = [].
Proof.
  rewrite save_cases. set (p0 := save_target os path s).
  destruct (isdir d p0) eqn:Hisdir; [discriminate|].
  destruct (exists_path d p0 && negb overwrite) eqn:Hexists; [discriminate|].
  destruct (negb (ensure_dir os d (dirname os p0)).2) eqn:Hmade; [discriminate|].
  destruct (isdir (ensure_dir os d (dirname os p0)).1 (dirname os p0)) eqn:Hdir;
    [|discriminate].
  destruct (pickle_dump os (saved_form s)) as [a|] eqn:Hdump; [|discriminate].
  intros [= <- <- <- <-]. cbn zeta. split; [done|].
  split. { intros Hd. unfold isdir in Hisdir. by rewrite Hd in Hisdir. }
  split.
  { apply andb_false_iff in Hexists as [Hno|Hover].
    - right. unfold exists_path in Hno. by destruct (d !! p0).
    - left. by destruct overwrite. }
  split. { by destruct (ensure_dir os d (dirname os p0)).2. }
  split; [done|]. split; [by exists a|]. split; [|done].
  intros Hthere p' Hp. rewrite lookup_insert_ne by done.
  unfold ensure_dir. by rewrite Hthere.
Qed.

(** Overwriting the earlier archive at [/data/results.mpf]: the extension
    is added to the path given, and the directory is made. *)
Lemma save_writes_target_only_witness :
  let o := save Demo.keep_all (Some "/data/results") true (Demo.local_ctl, old_disk) in
  outcome o = Ok (Some "/data/results.mpf")
  /\ isdir (ensure_dir Demo.keep_all old_disk "/data").1 "/data" = true.
Proof.
  intros o.
  destruct (save_writes_target_only Demo.keep_all (Some "/data/results") true
              Demo.local_ctl old_disk "/data/results.mpf" (final o).1 (final o).2
              (warned o))
    as (_ & _ & _ & _ & Hdir & _).
  - vm_compute. reflexivity.
  - split; [vm_compute; reflexivity|exact Hdir].
Defined.

(** ** A saved controller *)

Lemma grab_chunk_without_query env calltype a b s :
  mode s = local -> (forall q, query s <> QLive q) ->
  grab_chunk env calltype a b s = (Raise AttributeError, s, []).
Proof.
  intros Hmode Hq. unfold grab_chunk. rewrite run_bind. cbn [get]. rewrite Hmode.
  destruct (query s) as [|sql|q]; [done|done|]. by destruct (Hq q).
Qed.

Lemma saved_form_no_live_query s q : query (saved_form s) <> QLive q.
Proof.
  unfold saved_form. destruct (query s) eqn:Hq; cbn; rewrite ?Hq; discriminate.
Qed.

(** X26.  Saving costs a local controller its query, however the save
    ends: afterwards [getSubset] raises [AttributeError], [getAll] raises
    it too unless the controller is oversized, and [showQuery] raises it
    unless the query was a literal string. *)
Theorem saved_local_controller_cannot_page {Archive} (os : Storage Archive) env
    path overwrite s (d : gmap string (node Archive)) :
  let s' := (final (save os path overwrite (s, d))).1 in
  mode s = local ->
  (forall start_arg limit_arg,
     outcome (getSubset env start_arg limit_arg s') = Raise AttributeError)
  /\ (totalcount s <= 500000 -> Z.of_nat (length (columns s)) <= 25 ->
      getAll env s' = (Raise AttributeError, s', []))
  /\ (isnotstr (query s) = true -> showQuery env s' = (Raise AttributeError, s', [])).
Proof.
  intros s' Hmode.
  assert (Hs' : s' = saved_form s).
  { unfold s'. by destruct (save_run os path overwrite s d) as [Hself _]. }
  rewrite Hs'. clear s' Hs'.
  assert (Hmode' : mode (saved_form s) = local).
  { unfold saved_form. by destruct (isnotstr (query s)). }
  split_and!.
  - intros start_arg limit_arg.
    unfold getSubset. rewrite run_bind. cbn [get]. rewrite run_bind.
    destruct (subset_limit_run (saved_form s) limit_arg) as [wl ->].
    do 4 (rewrite run_bind; cbn [modify get]).
    rewrite grab_chunk_without_query; [done|done|].
    intros q. apply saved_form_no_live_query.
  - intros Hrows Hcols. unfold getAll. rewrite run_bind. cbn [get].
    assert (Hsame : totalcount (saved_form s) = totalcount s
                    /\ columns (saved_form s) = columns s)
      by (unfold saved_form; by destruct (isnotstr (query s))).
    destruct Hsame as [-> ->].
    rewrite !bool_decide_eq_false_2 by lia. cbn [orb]. rewrite Hmode'.
    pose proof (saved_form_no_live_query s) as Hq.
    destruct (query (saved_form s)) as [|sql|q]; [done|done|]. by destruct (Hq q).
  - intros Hnotstr. unfold showQuery. rewrite run_bind. cbn [get].
    unfold saved_form. rewrite Hnotstr. reflexivity.
Qed.

Lemma saved_local_controller_cannot_page_witness :
  let s' := (final (save Demo.keep_all (Some "/data/results") false
                      (Demo.local_ctl, ∅))).1 in
  outcome (getSubset Demo.env_up 0 (Some 3) s') = Raise AttributeError.
Proof.
  intros s'.
  destruct (saved_local_controller_cannot_page Demo.keep_all Demo.env_up
              (Some "/data/results") false Demo.local_ctl ∅ eq_refl) as [Hsubset _].
  apply Hsubset.
Defined.
